(** * Momentum trading engine: sizing, risk limits, simulation loop

    A shallow embedding of the decision and accounting core of the
    momentum-trading repository:

    - [backtest/position_sizer.py]   (PositionSizer)
    - [backtest/backtester.py]       (Position, Trade, Backtester)
    - [backtest/realistic_backtester.py] (RealisticBacktester)
    - [backtest/performance.py]      (calculate_performance_metrics)
    - [signals/exit_signals.py]      (calculate_trailing_stop, check_exit_signal)
    - [indicators/moving_averages.py] (calculate_sma)

    Numbers.  Python floats are idealised as exact rationals ([Q], compared
    with [==]).  A division whose divisor is zero has no rational value:
    Python raises [ZeroDivisionError] on floats and NumPy yields inf/nan; both
    are modelled as failure of the enclosing operation ([None]).  A NaN that
    pandas produces for an empty reduction or a short rolling window is kept
    as an explicit [None] inside an [option Q] value, and comparisons against
    it are false as in IEEE arithmetic.

    Exceptions ([KeyError], [IndexError], [ZeroDivisionError]) are the [None]
    of the option monad.

    Timestamps are integers (seconds since the epoch), the way pandas stores
    them; equality and order are those of [Z]. *)

From Stdlib Require Import ZArith QArith Qminmax Qabs Lqa Lia List Bool Permutation Sorted.
From stdpp Require Import base option list strings gmap sorting.

Local Open Scope Q_scope.

(** ** Rational helpers *)

Definition Qltb (a b : Q) : bool := negb (Qle_bool b a).

(** Float division: fails on a zero divisor. *)
Definition fdiv (a b : Q) : option Q :=
  if Qeq_bool b 0 then None else Some (a / b).

(** ** backtest/position_sizer.py *)

Record PositionSizer := mkPositionSizer {
  account_size : Q;
  risk_per_trade_pct : Q;
  stop_loss_pct : Q;
  max_positions : Z;
  max_position_size_pct : Q
}.

(** The dictionary returned by [calculate_position_size]. *)
Record Sizing := mkSizing {
  position_size_usd : Q;
  position_size_pct : Q;
  num_contracts : Q;
  risk_usd : Q;
  can_open : bool;
  reason : string
}.

Definition calculate_position_size
    (self : PositionSizer) (entry_price : Q) (current_positions : nat)
  : option Sizing :=
  let can_open := (Z.of_nat current_positions <? max_positions self)%Z in
  if negb can_open then
    Some (mkSizing 0 0 0 0 false "Max positions reached")
  else
    let risk_usd := account_size self * risk_per_trade_pct self in
    position_size_usd ← fdiv risk_usd (stop_loss_pct self);
    position_size_pct ← fdiv position_size_usd (account_size self);
    let '(position_size_pct, position_size_usd, risk_usd) :=
      if Qltb (max_position_size_pct self) position_size_pct then
        let position_size_usd := account_size self * max_position_size_pct self in
        (max_position_size_pct self, position_size_usd,
         position_size_usd * stop_loss_pct self)
      else (position_size_pct, position_size_usd, risk_usd) in
    num_contracts ← fdiv position_size_usd entry_price;
    Some (mkSizing position_size_usd position_size_pct num_contracts risk_usd
                   true "Position sizing calculated").

Definition update_account_size (self : PositionSizer) (new_size : Q) : PositionSizer :=
  mkPositionSizer new_size (risk_per_trade_pct self) (stop_loss_pct self)
                  (max_positions self) (max_position_size_pct self).

(** The sizer of the module's own demonstration: a 10,000 account with the
    default 2% risk, 20% stop, five slots and a 20% cap. *)
Definition default_sizer : PositionSizer :=
  mkPositionSizer 10000 (2 # 100) (20 # 100) 5 (20 # 100).

(** ** Timestamps and the calendar

    [current_date] values are pandas timestamps.  The two calendar
    projections the engine uses are the calendar date and
    [isocalendar()[1]], the ISO week number.  The latter follows CPython's
    [datetime.py] ([_ord2ymd], [_days_before_year], [_isoweek1monday],
    [date.isocalendar]). *)

Definition datetime := Z.

Definition seconds_per_day : Z := 86400.

(** Days since 1970-01-01: the calendar date of a timestamp. *)
Definition date_of (t : datetime) : Z := (t / seconds_per_day)%Z.

(** Proleptic Gregorian ordinal, 0001-01-01 being day 1. *)
Definition toordinal (t : datetime) : Z := (date_of t + 719163)%Z.

Definition _days_before_year (year : Z) : Z :=
  (let y := year - 1 in y * 365 + y / 4 - y / 100 + y / 400)%Z.

Definition year_of_ordinal (n : Z) : Z :=
  (let n := n - 1 in
   let n400 := n / 146097 in
   let n := n mod 146097 in
   let year := n400 * 400 + 1 in
   let n100 := n / 36524 in
   let n := n mod 36524 in
   let n4 := n / 1461 in
   let n := n mod 1461 in
   let n1 := n / 365 in
   let year := year + n100 * 100 + n4 * 4 + n1 in
   if (n1 =? 4) || (n100 =? 4) then year - 1 else year)%Z.

Definition _isoweek1monday (year : Z) : Z :=
  (let firstday := _days_before_year year + 1 in
   let firstweekday := (firstday + 6) mod 7 in
   let week1monday := firstday - firstweekday in
   if 3 <? firstweekday then week1monday + 7 else week1monday)%Z.

Definition isocalendar_week (t : datetime) : Z :=
  (let today := toordinal t in
   let year := year_of_ordinal today in
   let week := (today - _isoweek1monday year) / 7 in
   if week <? 0 then (today - _isoweek1monday (year - 1)) / 7 + 1
   else if (52 <=? week) && (_isoweek1monday (year + 1) <=? today) then 1
   else week + 1)%Z.

(** ** Price frames

    A frame is the list of its rows in positional order; the loaders give
    every frame a fresh [RangeIndex], so labels are positions.  A frame may
    already carry [sma_<period>] columns. *)

Record Row := mkRow {
  timestamp : datetime;
  open_ : Q;
  high : Q;
  low : Q;
  close : Q;
  volume : Q
}.

Record DataFrame := mkFrame {
  rows : list Row;
  sma_columns : list (nat * list (option Q))
}.

(** [df[df['timestamp'] == d].index[0]]: position of the first row stamped
    [d]; [None] stands for the [IndexError] of an empty selection. *)
Fixpoint index_of (d : datetime) (rs : list Row) : option nat :=
  match rs with
  | [] => None
  | r :: rs' => if (timestamp r =? d)%Z then Some O else S <$> index_of d rs'
  end.

(** [df.iloc[a : b + 1]]: the rows at positions [a..b]. *)
Definition iloc_slice (a b : nat) (rs : list Row) : list Row :=
  take (S b - a) (drop a rs).

(** Reductions of a numeric column; the empty reduction is NaN. *)
Fixpoint series_max (xs : list Q) : option Q :=
  match xs with
  | [] => None
  | x :: xs' =>
      match series_max xs' with
      | None => Some x
      | Some m => Some (Qmax x m)
      end
  end.

Fixpoint series_min (xs : list Q) : option Q :=
  match xs with
  | [] => None
  | x :: xs' =>
      match series_min xs' with
      | None => Some x
      | Some m => Some (Qmin x m)
      end
  end.

Definition Qsum (xs : list Q) : Q := fold_right Qplus 0 xs.

(** ** indicators/moving_averages.py *)

(** [rolling(window=period).mean()] at position [i]: NaN until [period]
    observations are available. *)
Definition rolling_mean_at (period : nat) (xs : list Q) (i : nat) : option Q :=
  match period with
  | O => None
  | S _ =>
      if (period <=? S i)%nat then
        let window := take period (drop (S i - period) xs) in
        if (length window =? period)%nat
        then Some (Qsum window / inject_Z (Z.of_nat period))
        else None
      else None
  end.

Definition rolling_mean (period : nat) (xs : list Q) : list (option Q) :=
  map (rolling_mean_at period xs) (seq 0 (length xs)).

Fixpoint find_column (period : nat) (cols : list (nat * list (option Q)))
  : option (list (option Q)) :=
  match cols with
  | [] => None
  | (p, c) :: cols' => if (p =? period)%nat then Some c else find_column period cols'
  end.

(** [calculate_sma]: a copy of the frame with the [sma_<period>] column
    (re)computed from the closes. *)
Definition calculate_sma (df : DataFrame) (period : nat) : DataFrame :=
  mkFrame (rows df)
          ((period, rolling_mean period (map close (rows df)))
             :: filter (fun pc => negb (fst pc =? period)%nat) (sma_columns df)).

(** ** signals/exit_signals.py *)

Inductive ExitReason :=
| trailing_stop
| ma_exit
| none
| removed_from_universe
| end_of_backtest.

#[global] Instance ExitReason_eq_dec : EqDecision ExitReason.
Proof. solve_decision. Defined.

(** [calculate_trailing_stop]; a NaN peak gives a NaN level, and
    [current_price <= nan] is false. *)
Definition calculate_trailing_stop
    (entry_price current_price : Q) (peak_price : option Q) (trailing_stop_pct : Q)
  : option Q * bool :=
  let stop_level := (fun p => p * (1 - trailing_stop_pct)) <$> peak_price in
  let stop_triggered :=
    match stop_level with
    | Some l => Qle_bool current_price l
    | None => false
    end in
  (stop_level, stop_triggered).

(** The [exit_details] dictionary of [check_exit_signal]. *)
Record SignalExit := mkSignalExit {
  se_exit_triggered : bool;
  se_exit_reason : ExitReason;
  se_timestamp : datetime;
  se_close : Q;
  se_entry_price : Q;
  se_peak_price : option Q;
  se_stop_level : option Q;
  se_return_pct : Q;
  se_holding_days : Z;
  se_trailing_stop_triggered : bool;
  se_ma_exit_triggered : bool
}.

Definition check_exit_signal
    (df : DataFrame) (entry_index current_index : nat) (entry_price : Q)
    (trailing_stop_pct : Q) (ma_period : nat) (use_ma_exit : bool)
  : option (bool * SignalExit) :=
  let df :=
    match find_column ma_period (sma_columns df) with
    | None => calculate_sma df ma_period
    | Some _ => df
    end in
  let position_df := iloc_slice entry_index current_index (rows df) in
  let peak_price := series_max (map high position_df) in
  current_row ← rows df !! current_index;
  let current_price := close current_row in
  let '(stop_level, stop_triggered) :=
    calculate_trailing_stop entry_price current_price peak_price trailing_stop_pct in
  let ma_value :=
    col ← find_column ma_period (sma_columns df);
    v ← col !! current_index;
    v in
  let ma_exit_triggered :=
    if use_ma_exit then
      match ma_value with
      | Some m => Qltb current_price m
      | None => false
      end
    else false in
  let exit_triggered := stop_triggered || (use_ma_exit && ma_exit_triggered) in
  let exit_reason :=
    if stop_triggered then trailing_stop
    else if ma_exit_triggered then ma_exit
    else none in
  return_pct ← fdiv (current_price - entry_price) entry_price;
  let holding_days := (Z.of_nat current_index - Z.of_nat entry_index)%Z in
  Some (exit_triggered,
        mkSignalExit exit_triggered exit_reason (timestamp current_row)
                     current_price entry_price peak_price stop_level return_pct
                     holding_days stop_triggered ma_exit_triggered).

(** ** Insertion-ordered dictionaries

    [self.positions] and [signals] are Python dictionaries that the engine
    iterates: the iteration order (insertion order) decides the order of the
    trade ledger and the tie-break of the entry ranking, so they are kept as
    association lists with the dictionary operations.  [data] is only ever
    looked up and is a finite map. *)

Section Dict.
Context {V : Type}.

Fixpoint dict_get (k : string) (d : list (string * V)) : option V :=
  match d with
  | [] => None
  | (k', v) :: d' => if decide (k' = k) then Some v else dict_get k d'
  end.

Definition dict_mem (k : string) (d : list (string * V)) : bool :=
  bool_decide (k ∈ d.*1).

(** [d[k] = v]: overwrite in place, or append a new key. *)
Fixpoint dict_set (k : string) (v : V) (d : list (string * V)) : list (string * V) :=
  match d with
  | [] => [(k, v)]
  | (k', v') :: d' =>
      if decide (k' = k) then (k, v) :: d' else (k', v') :: dict_set k v d'
  end.

(** [del d[k]]. *)
Fixpoint dict_del (k : string) (d : list (string * V)) : list (string * V) :=
  match d with
  | [] => []
  | (k', v') :: d' =>
      if decide (k' = k) then d' else (k', v') :: dict_del k d'
  end.
End Dict.

(** ** backtest/backtester.py: records *)

Record Position := mkPosition {
  p_symbol : string;
  entry_date : datetime;
  entry_index : nat;
  entry_price : Q;
  p_position_size_usd : Q;
  p_num_contracts : Q;
  peak_price : Q;
  peak_date : datetime
}.

Definition update_peak (self : Position) (price : Q) (date : datetime) : Position :=
  if Qltb (peak_price self) price then
    mkPosition (p_symbol self) (entry_date self) (entry_index self)
               (entry_price self) (p_position_size_usd self)
               (p_num_contracts self) price date
  else self.

Record Trade := mkTrade {
  t_symbol : string;
  t_entry_date : datetime;
  t_entry_price : Q;
  exit_date : datetime;
  exit_price : Q;
  t_position_size_usd : Q;
  t_num_contracts : Q;
  return_pct : Q;
  return_usd : Q;
  holding_days : Z;
  exit_reason : ExitReason;
  t_peak_price : Q;
  max_adverse_excursion : option Q   (* [None] is NaN *)
}.

(** The four keys of an [exit_details] dictionary that [_close_position]
    reads. *)
Record ExitDetails := mkExitDetails {
  ed_close : Q;
  ed_timestamp : datetime;
  ed_holding_days : Z;
  ed_exit_reason : ExitReason
}.

Definition exit_details_of (s : SignalExit) : ExitDetails :=
  mkExitDetails (se_close s) (se_timestamp s) (se_holding_days s) (se_exit_reason s).

Record EquityRow := mkEquityRow {
  eq_date : datetime;
  eq_equity : Q;
  eq_cash : Q;
  eq_positions_value : Q;
  eq_num_positions : nat
}.

Record Backtester := mkBacktester {
  initial_capital : Q;
  capital : Q;
  bt_risk_per_trade_pct : Q;
  bt_stop_loss_pct : Q;
  bt_max_positions : Z;
  commission_pct : Q;
  slippage_pct : Q;
  daily_loss_limit_pct : Q;
  weekly_loss_limit_pct : Q;
  sizer : PositionSizer;
  positions : list (string * Position);
  trades : list Trade;
  equity_history : list EquityRow;
  daily_start_capital : Q;
  weekly_start_capital : Q;
  current_date : option datetime;
  current_week : option Z;
  size_multiplier : Q;
  daily_trading_stopped : bool
}.

(** [Backtester.__init__]; the sizer keeps its default 20% cap. *)
Definition Backtester_init
    (initial_capital risk_per_trade_pct stop_loss_pct : Q) (max_positions : Z)
    (commission_pct slippage_pct daily_loss_limit_pct weekly_loss_limit_pct : Q)
  : Backtester :=
  mkBacktester initial_capital initial_capital risk_per_trade_pct stop_loss_pct
    max_positions commission_pct slippage_pct daily_loss_limit_pct
    weekly_loss_limit_pct
    (mkPositionSizer initial_capital risk_per_trade_pct stop_loss_pct
                     max_positions (20 # 100))
    [] [] [] initial_capital initial_capital None None 1 false.

(** Field assignments. *)
Definition set_daily (self : Backtester) (d : option datetime) (start : Q) (stopped : bool) :=
  mkBacktester (initial_capital self) (capital self) (bt_risk_per_trade_pct self)
    (bt_stop_loss_pct self) (bt_max_positions self) (commission_pct self)
    (slippage_pct self) (daily_loss_limit_pct self) (weekly_loss_limit_pct self)
    (sizer self) (positions self) (trades self) (equity_history self)
    start (weekly_start_capital self) d (current_week self)
    (size_multiplier self) stopped.

Definition set_weekly (self : Backtester) (w : option Z) (start : Q) (mult : Q) :=
  mkBacktester (initial_capital self) (capital self) (bt_risk_per_trade_pct self)
    (bt_stop_loss_pct self) (bt_max_positions self) (commission_pct self)
    (slippage_pct self) (daily_loss_limit_pct self) (weekly_loss_limit_pct self)
    (sizer self) (positions self) (trades self) (equity_history self)
    (daily_start_capital self) start (current_date self) w
    mult (daily_trading_stopped self).

Definition set_book (self : Backtester) (cap : Q) (sz : PositionSizer)
    (ps : list (string * Position)) (ts : list Trade) :=
  mkBacktester (initial_capital self) cap (bt_risk_per_trade_pct self)
    (bt_stop_loss_pct self) (bt_max_positions self) (commission_pct self)
    (slippage_pct self) (daily_loss_limit_pct self) (weekly_loss_limit_pct self)
    sz ps ts (equity_history self)
    (daily_start_capital self) (weekly_start_capital self) (current_date self)
    (current_week self) (size_multiplier self) (daily_trading_stopped self).

Definition set_equity_history (self : Backtester) (h : list EquityRow) :=
  mkBacktester (initial_capital self) (capital self) (bt_risk_per_trade_pct self)
    (bt_stop_loss_pct self) (bt_max_positions self) (commission_pct self)
    (slippage_pct self) (daily_loss_limit_pct self) (weekly_loss_limit_pct self)
    (sizer self) (positions self) (trades self) h
    (daily_start_capital self) (weekly_start_capital self) (current_date self)
    (current_week self) (size_multiplier self) (daily_trading_stopped self).

(** ** Risk limits *)

(** [_check_daily_loss_limit]: the new state and whether trading stops. *)
Definition _check_daily_loss_limit (self : Backtester) (date : datetime)
  : option (Backtester * bool) :=
  let self :=
    if bool_decide (current_date self ≠ Some date)
    then set_daily self (Some date) (capital self) false
    else self in
  if daily_trading_stopped self then Some (self, true)
  else
    daily_loss_pct ←
      fdiv (capital self - daily_start_capital self) (daily_start_capital self);
    if Qle_bool daily_loss_pct (- daily_loss_limit_pct self) then
      Some (set_daily self (current_date self) (daily_start_capital self) true, true)
    else Some (self, false).

Definition _check_weekly_loss_limit (self : Backtester) (date : datetime)
  : option Backtester :=
  let week := isocalendar_week date in
  let self :=
    if bool_decide (current_week self ≠ Some week)
    then set_weekly self (Some week) (capital self) 1
    else self in
  weekly_loss_pct ←
    fdiv (capital self - weekly_start_capital self) (weekly_start_capital self);
  if Qle_bool weekly_loss_pct (- weekly_loss_limit_pct self)
     && Qeq_bool (size_multiplier self) 1
  then Some (set_weekly self (current_week self) (weekly_start_capital self) (1 # 2))
  else Some self.

(** ** Opening and closing positions *)

Definition _open_position (self : Backtester) (symbol : string)
    (entry_date : datetime) (entry_price : Q) (df : DataFrame)
  : option Backtester :=
  let entry_price_with_slippage := entry_price * (1 + slippage_pct self) in
  sizing ← calculate_position_size (sizer self) entry_price_with_slippage
                                    (length (positions self));
  if negb (can_open sizing) then Some self
  else
    let size_usd := position_size_usd sizing * size_multiplier self in
    let contracts := num_contracts sizing * size_multiplier self in
    let commission := size_usd * commission_pct self in
    let net_position_size := size_usd - commission in
    entry_idx ← index_of entry_date (rows df);
    let position :=
      mkPosition symbol entry_date entry_idx entry_price_with_slippage
                 net_position_size contracts entry_price_with_slippage entry_date in
    Some (set_book self (capital self - size_usd) (sizer self)
                   (dict_set symbol position (positions self)) (trades self)).

(** [(df.iloc[a : b + 1]['low'].min() - entry) / entry]; NaN on an empty
    window. *)
Definition adverse_excursion (df : DataFrame) (a b : nat) (entry : Q) : option Q :=
  (fun m => (m - entry) / entry) <$> series_min (map low (iloc_slice a b (rows df))).

Definition _close_position (self : Backtester) (symbol : string) (exit_idx : nat)
    (exit_details : ExitDetails) (df : DataFrame)
  : option Backtester :=
  position ← dict_get symbol (positions self);
  let exit_price := ed_close exit_details * (1 - slippage_pct self) in
  price_return ← fdiv (exit_price - entry_price position) (entry_price position);
  let gross_pnl := p_num_contracts position * (exit_price - entry_price position) in
  let exit_commission := (p_num_contracts position * exit_price) * commission_pct self in
  let net_pnl := gross_pnl - exit_commission in
  let position_value := p_num_contracts position * exit_price in
  let capital' := capital self + (position_value - exit_commission) in
  let trade :=
    mkTrade symbol (entry_date position) (entry_price position)
            (ed_timestamp exit_details) exit_price
            (p_position_size_usd position) (p_num_contracts position)
            price_return net_pnl (ed_holding_days exit_details)
            (ed_exit_reason exit_details) (peak_price position)
            (adverse_excursion df (entry_index position) exit_idx
                               (entry_price position)) in
  Some (set_book self capital' (update_account_size (sizer self) capital')
                 (dict_del symbol (positions self)) (trades self ++ [trade])).

(** ** Signals and entry ranking *)

(** A row of a signal frame: the price row it annotates, the entry flag and
    the strength score. *)
Record SignalRow := mkSignalRow {
  s_timestamp : datetime;
  s_close : Q;
  entry_signal : bool;
  signal_strength : Q
}.

Record Opportunity := mkOpportunity {
  o_symbol : string;
  o_date : datetime;
  o_price : Q;
  o_strength : Q
}.

(** The first row of [signal_df] stamped [date] with [entry_signal] set. *)
Definition signal_at (date : datetime) (signal_df : list SignalRow) : option SignalRow :=
  head (filter (fun r => ((s_timestamp r =? date)%Z && entry_signal r) = true) signal_df).

(** One iteration of the loop over [signals.items()]; [eligible] is the test
    that precedes the signal lookup. *)
Definition opportunity_of (eligible : string -> bool) (date : datetime)
    (entry : string * list SignalRow) : option Opportunity :=
  let '(symbol, signal_df) := entry in
  if eligible symbol then
    signal_row ← signal_at date signal_df;
    Some (mkOpportunity symbol date (s_close signal_row) (signal_strength signal_row))
  else None.

(** [list.sort(key=strength, reverse=True)]: descending and stable, equal
    strengths keep their original order. *)
Fixpoint insert_by_strength (x : Opportunity) (l : list Opportunity) : list Opportunity :=
  match l with
  | [] => [x]
  | y :: l' =>
      if Qltb (o_strength x) (o_strength y)
      then y :: insert_by_strength x l'
      else x :: y :: l'
  end.

Definition sort_by_strength (l : list Opportunity) : list Opportunity :=
  fold_right insert_by_strength [] l.

(** The opportunities that are opened: the first [max_positions - open]
    of the ranking.  The caller has already returned when no slot is free,
    so the slice bound is positive. *)
Definition ranked_entries (self : Backtester) (opps : list Opportunity) : list Opportunity :=
  let slots_available := (bt_max_positions self - Z.of_nat (length (positions self)))%Z in
  take (Z.to_nat slots_available) (sort_by_strength opps).

Fixpoint open_each (self : Backtester) (data : gmap string DataFrame)
    (opps : list Opportunity) : option Backtester :=
  match opps with
  | [] => Some self
  | opp :: rest =>
      df ← data !! o_symbol opp;
      self' ← _open_position self (o_symbol opp) (o_date opp) (o_price opp) df;
      open_each self' data rest
  end.

Definition entry_opportunities (self : Backtester) (date : datetime)
    (signals : list (string * list SignalRow)) : list Opportunity :=
  omap (opportunity_of (fun symbol => negb (dict_mem symbol (positions self))) date)
       signals.

Definition _check_entries (self : Backtester) (date : datetime)
    (signals : list (string * list SignalRow)) (data : gmap string DataFrame)
  : option Backtester :=
  '(self, stop) ← _check_daily_loss_limit self date;
  if (stop : bool) then Some self
  else
    self ← _check_weekly_loss_limit self date;
    if (bt_max_positions self <=? Z.of_nat (length (positions self)))%Z then Some self
    else
      open_each self data (ranked_entries self (entry_opportunities self date signals)).

(** ** Exits *)

Definition Closing : Type := string * nat * ExitDetails.

(** The scanning loop of [_check_exits]: peaks are updated in place and
    the triggered exits are collected. *)
Fixpoint scan_exits (stop_pct : Q) (date : datetime) (data : gmap string DataFrame)
    (ma_period : nat) (use_ma_exit : bool) (ps : list (string * Position))
  : option (list (string * Position) * list Closing) :=
  match ps with
  | [] => Some ([], [])
  | (symbol, position) :: rest =>
      match data !! symbol with
      | None =>
          '(ps', cl) ← scan_exits stop_pct date data ma_period use_ma_exit rest;
          Some ((symbol, position) :: ps', cl)
      | Some df =>
          match index_of date (rows df) with
          | None =>
              '(ps', cl) ← scan_exits stop_pct date data ma_period use_ma_exit rest;
              Some ((symbol, position) :: ps', cl)
          | Some current_idx =>
              current_row ← rows df !! current_idx;
              let position := update_peak position (high current_row) date in
              '(exit_triggered, details) ←
                check_exit_signal df (entry_index position) current_idx
                                  (entry_price position) stop_pct ma_period use_ma_exit;
              '(ps', cl) ← scan_exits stop_pct date data ma_period use_ma_exit rest;
              Some ((symbol, position) :: ps',
                    if (exit_triggered : bool)
                    then (symbol, current_idx, exit_details_of details) :: cl
                    else cl)
          end
      end
  end.

Fixpoint close_each (self : Backtester) (data : gmap string DataFrame)
    (cl : list Closing) : option Backtester :=
  match cl with
  | [] => Some self
  | (symbol, exit_idx, exit_details) :: rest =>
      df ← data !! symbol;
      self' ← _close_position self symbol exit_idx exit_details df;
      close_each self' data rest
  end.

Definition _check_exits (self : Backtester) (date : datetime)
    (data : gmap string DataFrame) (ma_period : nat) (use_ma_exit : bool)
  : option Backtester :=
  '(ps, positions_to_close) ←
    scan_exits (bt_stop_loss_pct self) date data ma_period use_ma_exit (positions self);
  close_each (set_book self (capital self) (sizer self) ps (trades self))
             data positions_to_close.

(** ** Equity mark and end of run *)

Definition mark_value (date : datetime) (data : gmap string DataFrame)
    (entry : string * Position) : Q :=
  match data !! entry.1 with
  | None => 0
  | Some df =>
      match head (filter (fun r => (timestamp r =? date)%Z = true) (rows df)) with
      | None => 0
      | Some current_row => p_num_contracts entry.2 * close current_row
      end
  end.

Definition _update_equity (self : Backtester) (date : datetime)
    (data : gmap string DataFrame) : Backtester :=
  let positions_value := Qsum (map (mark_value date data) (positions self)) in
  set_equity_history self
    (equity_history self ++
       [mkEquityRow date (capital self + positions_value) (capital self)
                    positions_value (length (positions self))]).

(** The loop of [_close_all_positions] over [list(self.positions.keys())]. *)
Fixpoint close_remaining (self : Backtester) (data : gmap string DataFrame)
    (symbols : list string) : option Backtester :=
  match symbols with
  | [] => Some self
  | symbol :: rest =>
      position ← dict_get symbol (positions self);
      df ← data !! symbol;
      last_row ← last (rows df);
      let last_idx := (length (rows df) - 1)%nat in
      let exit_details :=
        mkExitDetails (close last_row) (timestamp last_row)
                      (Z.of_nat last_idx - Z.of_nat (entry_index position))%Z
                      end_of_backtest in
      self' ← _close_position self symbol last_idx exit_details df;
      close_remaining self' data rest
  end.

Definition _close_all_positions (self : Backtester) (data : gmap string DataFrame)
  : option Backtester :=
  close_remaining self data (positions self).*1.

(** ** The simulation loop of [Backtester.run] *)

(** [sorted(set(...))] on timestamps. *)
Fixpoint insert_date (d : datetime) (l : list datetime) : list datetime :=
  match l with
  | [] => [d]
  | x :: l' =>
      if (d <? x)%Z then d :: x :: l'
      else if (d =? x)%Z then x :: l'
      else x :: insert_date d l'
  end.

Definition sorted_dates (l : list datetime) : list datetime :=
  fold_right insert_date [] l.

Definition step (ma_period : nat) (use_ma_exit : bool)
    (signals : list (string * list SignalRow)) (data : gmap string DataFrame)
    (self : Backtester) (date : datetime) : option Backtester :=
  self ← _check_exits self date data ma_period use_ma_exit;
  self ← _check_entries self date signals data;
  Some (_update_equity self date data).

Fixpoint simulate (ma_period : nat) (use_ma_exit : bool)
    (signals : list (string * list SignalRow)) (data : gmap string DataFrame)
    (self : Backtester) (trading_days : list datetime) : option Backtester :=
  match trading_days with
  | [] => Some self
  | date :: rest =>
      self' ← step ma_period use_ma_exit signals data self date;
      simulate ma_period use_ma_exit signals data self' rest
  end.

Section Run.
(** The indicator arithmetic behind an entry signal (Bollinger bands,
    relative volume, trend filter) is a collaborator of the engine:
    [check_entry_signal df i] is the pair [(triggered, signal_strength)]
    it reports for row [i]. *)
Variable check_entry_signal : DataFrame -> nat -> bool * Q.

(** [generate_entry_signals]: the frame's rows, each with its two signal
    columns. *)
Definition generate_entry_signals (df : DataFrame) : list SignalRow :=
  imap (fun i r =>
          mkSignalRow (timestamp r) (close r)
                      (check_entry_signal df i).1 (check_entry_signal df i).2)
       (rows df).

Fixpoint build_signals (symbols : list string) (data : gmap string DataFrame)
    (signals : list (string * list SignalRow)) : list (string * list SignalRow) :=
  match symbols with
  | [] => signals
  | symbol :: rest =>
      match data !! symbol with
      | None => build_signals rest data signals
      | Some df =>
          build_signals rest data (dict_set symbol (generate_entry_signals df) signals)
      end
  end.

Definition all_dates (signals : list (string * list SignalRow)) : list datetime :=
  concat (map (fun e => map s_timestamp e.2) signals).

(** [Backtester.run] once [data] is loaded; the result is the final
    engine state, of which [BacktestResult] is a projection. *)
Definition run (self : Backtester) (symbols : list string)
    (data : gmap string DataFrame) (ma_period : nat) (use_ma_exit : bool)
  : option Backtester :=
  let signals := build_signals symbols data [] in
  let trading_days := sorted_dates (all_dates signals) in
  self ← simulate ma_period use_ma_exit signals data self trading_days;
  _close_all_positions self data.
End Run.

(** ** backtest/realistic_backtester.py *)

(** The scanning loop of [_check_universe_exits]. *)
Fixpoint scan_universe_exits (date : datetime) (current_universe : list string)
    (data : gmap string DataFrame) (ps : list (string * Position))
  : option (list Closing) :=
  match ps with
  | [] => Some []
  | (symbol, position) :: rest =>
      if bool_decide (symbol ∈ current_universe) then
        scan_universe_exits date current_universe data rest
      else
        match data !! symbol with
        | None => scan_universe_exits date current_universe data rest
        | Some df =>
            match index_of date (rows df) with
            | None => scan_universe_exits date current_universe data rest
            | Some current_idx =>
                current_row ← rows df !! current_idx;
                let exit_details :=
                  mkExitDetails (close current_row) date
                    (Z.of_nat current_idx - Z.of_nat (entry_index position))%Z
                    removed_from_universe in
                cl ← scan_universe_exits date current_universe data rest;
                Some ((symbol, current_idx, exit_details) :: cl)
            end
        end
  end.

Definition _check_universe_exits (self : Backtester) (date : datetime)
    (current_universe : list string) (data : gmap string DataFrame)
  : option Backtester :=
  positions_to_close ← scan_universe_exits date current_universe data (positions self);
  close_each self data positions_to_close.

Definition entry_opportunities_filtered (self : Backtester) (date : datetime)
    (signals : list (string * list SignalRow)) (current_universe : list string)
  : list Opportunity :=
  omap (opportunity_of
          (fun symbol => bool_decide (symbol ∈ current_universe)
                         && negb (dict_mem symbol (positions self))) date)
       signals.

Definition _check_entries_filtered (self : Backtester) (date : datetime)
    (signals : list (string * list SignalRow)) (data : gmap string DataFrame)
    (current_universe : list string) : option Backtester :=
  if (bt_max_positions self <=? Z.of_nat (length (positions self)))%Z then Some self
  else
    open_each self data
      (ranked_entries self
         (entry_opportunities_filtered self date signals current_universe)).

(** The body of the event loop of [run_realistic] once the universe of the
    step is known. *)
Definition realistic_step (ma_period : nat) (use_ma_exit : bool)
    (signals : list (string * list SignalRow)) (data : gmap string DataFrame)
    (current_universe : list string) (self : Backtester) (date : datetime)
  : option Backtester :=
  self ← _check_universe_exits self date current_universe data;
  self ← _check_exits self date data ma_period use_ma_exit;
  self ← _check_entries_filtered self date signals data current_universe;
  Some (_update_equity self date data).

(** The loop state that [run_realistic] keeps besides the engine. *)
Record UniverseCursor := mkCursor {
  current_universe : list string;
  next_update_idx : nat;
  universe_history : list (datetime * list string)
}.

Fixpoint universe_lookup (d : datetime) (updates : list (datetime * list string))
  : option (list string) :=
  match updates with
  | [] => None
  | (d', u) :: rest => if (d' =? d)%Z then Some u else universe_lookup d rest
  end.

Definition same_members (a b : list string) : bool :=
  forallb (fun s => bool_decide (s ∈ b)) a && forallb (fun s => bool_decide (s ∈ a)) b.

(** "Update universe if needed": at most one pending snapshot per step. *)
Definition update_universe (universe_updates : list (datetime * list string))
    (update_dates : list datetime) (c : UniverseCursor) (date : datetime)
  : option UniverseCursor :=
  match update_dates !! next_update_idx c with
  | Some due =>
      if (due <=? date)%Z then
        new_universe ← universe_lookup due universe_updates;
        Some (mkCursor new_universe (S (next_update_idx c))
                (if same_members new_universe (current_universe c)
                 then universe_history c
                 else universe_history c ++ [(date, new_universe)]))
      else Some c
  | None => Some c
  end.

Fixpoint simulate_realistic (ma_period : nat) (use_ma_exit : bool)
    (signals : list (string * list SignalRow)) (data : gmap string DataFrame)
    (universe_updates : list (datetime * list string)) (update_dates : list datetime)
    (c : UniverseCursor) (self : Backtester) (trading_days : list datetime)
  : option (UniverseCursor * Backtester) :=
  match trading_days with
  | [] => Some (c, self)
  | date :: rest =>
      c' ← update_universe universe_updates update_dates c date;
      self' ← realistic_step ma_period use_ma_exit signals data
                             (current_universe c') self date;
      simulate_realistic ma_period use_ma_exit signals data universe_updates
                         update_dates c' self' rest
  end.

(** [run_realistic] from the fetched [data] and generated [signals] on. *)
Definition run_realistic (self : Backtester)
    (universe_updates : list (datetime * list string))
    (signals : list (string * list SignalRow)) (data : gmap string DataFrame)
    (start_date : datetime) (ma_period : nat) (use_ma_exit : bool)
  : option (UniverseCursor * Backtester) :=
  let update_dates := sorted_dates universe_updates.*1 in
  let trading_days :=
    sorted_dates
      (concat (map (fun e => filter (fun t => (start_date <=? t)%Z = true)
                                    (map s_timestamp e.2)) signals)) in
  '(c, self) ← simulate_realistic ma_period use_ma_exit signals data universe_updates
                                  update_dates (mkCursor [] 0 []) self trading_days;
  self ← _close_all_positions self data;
  Some (c, self).

(** ** backtest/performance.py *)

(** A float as NumPy has it: finite, infinite or NaN. *)
Inductive npfloat :=
| Fin (q : Q)
| PosInf
| NegInf
| NaN.

(** A value stored in the metrics dictionary. *)
Inductive Value :=
| VInt (n : Z)
| VFloat (x : npfloat)
| VReasons (counts : list (ExitReason * Z))
| VSymbols (stats : list (string * (Z * Z * Q))).

(** NumPy division: no exception, IEEE results. *)
Definition np_divide (a b : Q) : npfloat :=
  if Qeq_bool b 0 then
    if Qeq_bool a 0 then NaN else if Qltb 0 a then PosInf else NegInf
  else Fin (a / b).

(** [Series.min()], NaN skipped; NaN when nothing is left. *)
Definition np_min2 (x y : npfloat) : npfloat :=
  match x, y with
  | NaN, _ => y
  | _, NaN => x
  | NegInf, _ | _, NegInf => NegInf
  | PosInf, _ => y
  | _, PosInf => x
  | Fin a, Fin b => Fin (Qmin a b)
  end.

Definition series_min_skipna (xs : list npfloat) : npfloat := fold_right np_min2 NaN xs.

Definition mean (xs : list Q) : Q := Qsum xs / inject_Z (Z.of_nat (length xs)).

(** [Series.cummax()]. *)
Fixpoint cummax_from (m : Q) (xs : list Q) : list Q :=
  match xs with
  | [] => []
  | x :: xs' => let m' := Qmax m x in m' :: cummax_from m' xs'
  end.

Definition cummax (xs : list Q) : list Q :=
  match xs with
  | [] => []
  | x :: xs' => x :: cummax_from x xs'
  end.

Fixpoint count_reason (r : ExitReason) (counts : list (ExitReason * Z))
  : list (ExitReason * Z) :=
  match counts with
  | [] => [(r, 1%Z)]
  | (r', n) :: rest =>
      if decide (r' = r) then (r', (n + 1)%Z) :: rest
      else (r', n) :: count_reason r rest
  end.

Fixpoint count_symbol (t : Trade) (stats : list (string * (Z * Z * Q)))
  : list (string * (Z * Z * Q)) :=
  let bump '(n, w, total) :=
    ((n + 1)%Z, (if Qltb 0 (return_pct t) then w + 1 else w)%Z, total + return_pct t) in
  match stats with
  | [] => [(t_symbol t, bump (0%Z, 0%Z, 0))]
  | (s, st) :: rest =>
      if decide (s = t_symbol t) then (s, bump st) :: rest
      else (s, st) :: count_symbol t rest
  end.

Definition _empty_metrics : list (string * Value) :=
  [("total_trades", VInt 0); ("winning_trades", VInt 0); ("losing_trades", VInt 0);
   ("win_rate", VInt 0); ("avg_return_pct", VInt 0); ("avg_win_pct", VInt 0);
   ("avg_loss_pct", VInt 0); ("profit_factor", VInt 0); ("total_return", VInt 0);
   ("max_drawdown", VInt 0); ("sharpe_ratio", VInt 0)]%string.

Section Performance.
(** NumPy and pandas reductions that leave the rationals. *)
Variable np_median : list Q -> Q.
Variable np_std : list Q -> Q.
Variable series_std : list Q -> option Q.   (* NaN below two observations *)
Variable sqrt_365 : Q.

Definition positive_std (xs : list Q) : option Q :=
  match series_std xs with
  | Some s => if Qltb 0 s then Some s else None
  | None => None
  end.

Definition calculate_performance_metrics
    (trades : list Trade) (equity_curve : list Q) (daily_returns : list Q)
    (initial_capital : Q) : list (string * Value) :=
  match trades with
  | [] => _empty_metrics
  | _ :: _ =>
      let count (l : list Trade) := Z.of_nat (length l) in
      let winning_trades := filter (fun t => Qltb 0 (return_pct t) = true) trades in
      let losing_trades := filter (fun t => Qle_bool (return_pct t) 0 = true) trades in
      let returns := map return_pct trades in
      let or_zero (l : list Trade) (f : list Q -> Q) :=
        match l with [] => VInt 0 | _ => VFloat (Fin (f (map return_pct l))) end in
      let total_wins := Qsum (map return_usd winning_trades) in
      let total_losses := Qabs (Qsum (map return_usd losing_trades)) in
      let holding := map (fun t => inject_Z (holding_days t)) trades in
      [("total_trades", VInt (count trades));
       ("winning_trades", VInt (count winning_trades));
       ("losing_trades", VInt (count losing_trades));
       ("win_rate", VFloat (Fin (inject_Z (count winning_trades)
                                  / inject_Z (count trades))));
       ("avg_return_pct", VFloat (Fin (mean returns)));
       ("median_return_pct", VFloat (Fin (np_median returns)));
       ("std_return_pct", VFloat (Fin (np_std returns)));
       ("avg_win_pct", or_zero winning_trades mean);
       ("max_win_pct", or_zero winning_trades (fun l => default 0 (series_max l)));
       ("avg_loss_pct", or_zero losing_trades mean);
       ("max_loss_pct", or_zero losing_trades (fun l => default 0 (series_min l)));
       ("total_profit_usd", VFloat (Fin total_wins));
       ("total_loss_usd", VFloat (Fin total_losses));
       ("profit_factor",
         VFloat (if Qltb 0 total_losses then Fin (total_wins / total_losses)
                 else PosInf));
       ("avg_holding_days", VFloat (Fin (mean holding)));
       ("median_holding_days", VFloat (Fin (np_median holding)))]%string
      ++ match last equity_curve with
         | None => []
         | Some final_equity =>
             let total_return :=
               match np_divide final_equity initial_capital with
               | Fin q => Fin (q - 1)
               | x => x
               end in
             let drawdown :=
               zip_with (fun e m => np_divide (e - m) m) equity_curve
                        (cummax equity_curve) in
             let times100 x :=
               match x with Fin q => Fin (q * 100) | x => x end in
             [("final_equity", VFloat (Fin final_equity));
              ("total_return", VFloat total_return);
              ("total_return_pct", VFloat (times100 total_return));
              ("max_drawdown", VFloat (series_min_skipna drawdown));
              ("max_drawdown_pct", VFloat (times100 (series_min_skipna drawdown)))]%string
         end
      ++ match daily_returns with
         | [] => []
         | _ :: _ =>
             let downside := filter (fun r => Qltb r 0 = true) daily_returns in
             [("sharpe_ratio",
                match positive_std daily_returns with
                | Some s => VFloat (Fin (mean daily_returns / s * sqrt_365))
                | None => VInt 0
                end);
              ("sortino_ratio",
                match downside, positive_std downside with
                | _ :: _, Some s => VFloat (Fin (mean daily_returns / s * sqrt_365))
                | _, _ => VInt 0
                end)]%string
         end
      ++ [("exit_reasons",
            VReasons (fold_left (fun acc t => count_reason (exit_reason t) acc) trades []));
          ("symbol_stats",
            VSymbols (fold_left (fun acc t => count_symbol t acc) trades []))]%string
  end.
End Performance.

(** ** Exit-signal vocabulary *)

(** [p] is the highest high over the inclusive window of positions
    [entry_index .. current_index]. *)
Definition window_peak (df : DataFrame) (entry_index current_index : nat) (p : Q) : Prop :=
  (exists i r, (entry_index <= i <= current_index)%nat /\ rows df !! i = Some r /\ high r = p)
  /\ forall i r, (entry_index <= i <= current_index)%nat -> rows df !! i = Some r -> high r <= p.

(** The value of the [sma_<period>] column at a position: the stored column
    when the frame has one, the rolling mean of the closes otherwise. *)
Definition sma_value (df : DataFrame) (period : nat) (i : nat) : option Q :=
  match find_column period (sma_columns df) with
  | Some col => col !! i ≫= id
  | None =>
      if (i <? length (rows df))%nat
      then rolling_mean_at period (map close (rows df)) i
      else None
  end.

Definition stop_condition (df : DataFrame) (entry_index current_index : nat)
    (trailing_stop_pct : Q) : Prop :=
  exists row p,
    rows df !! current_index = Some row /\
    window_peak df entry_index current_index p /\
    close row <= p * (1 - trailing_stop_pct).

Definition ma_condition (df : DataFrame) (current_index ma_period : nat)
    (use_ma_exit : bool) : Prop :=
  use_ma_exit = true /\
  exists row m,
    rows df !! current_index = Some row /\
    sma_value df ma_period current_index = Some m /\
    close row < m.

(** ** A worked scenario

    Two symbols over five daily bars starting 2024-01-01, used to run the
    engine on concrete inputs.  The stand-in for the indicator collaborator
    signals a row whose volume exceeds 100 and scores it by volume. *)

Definition example_day (n : Z) : datetime := (1704067200 + n * 86400)%Z.

Definition example_row (t : datetime) (o h l c v : Z) : Row :=
  mkRow t (inject_Z o) (inject_Z h) (inject_Z l) (inject_Z c) (inject_Z v).

Definition example_aaa : DataFrame :=
  mkFrame [example_row (example_day 0) 10 10 10 10 50;
           example_row (example_day 1) 10 10 9 10 500;
           example_row (example_day 2) 10 12 10 12 50;
           example_row (example_day 3) 12 12 9 9 50;
           example_row (example_day 4) 9 9 9 9 50] [].

Definition example_bbb : DataFrame :=
  mkFrame [example_row (example_day 0) 5 5 5 5 50;
           example_row (example_day 1) 5 5 5 5 300;
           example_row (example_day 2) 5 6 5 6 50;
           example_row (example_day 3) 6 7 6 7 50;
           example_row (example_day 4) 7 8 7 8 50] [].

Definition example_data : gmap string DataFrame :=
  <["AAA"%string := example_aaa]> (<["BBB"%string := example_bbb]> ∅).

Definition example_entry_signal (df : DataFrame) (i : nat) : bool * Q :=
  match rows df !! i with
  | Some r => (Qltb 100 (volume r), volume r / 1000)
  | None => (false, 0)
  end.

(** The engine with the constructor's defaults. *)
Definition example_backtester : Backtester :=
  Backtester_init 10000 (2 # 100) (20 # 100) 5 (1 # 1000) (1 # 1000) (3 # 100) (8 # 100).

Definition example_signals : list (string * list SignalRow) :=
  build_signals example_entry_signal ["AAA"; "BBB"]%string example_data [].

(** The engine after the first three days: both symbols are held and the
    cash balance is 20% below the week's reference. *)
Definition example_halved : Backtester :=
  Eval vm_compute in
    default example_backtester
      (simulate 2 true example_signals example_data example_backtester
                [example_day 0; example_day 1; example_day 2]).

(** Three four-hour bars of 2024-01-01 for two symbols: AAA signals on the
    first bar, BBB on the second. *)
Definition example_bar (n : Z) : datetime := (example_day 0 + n * 14400)%Z.

Definition example_intraday_data : gmap string DataFrame :=
  <["AAA"%string :=
      mkFrame [example_row (example_bar 0) 10 10 10 10 500;
               example_row (example_bar 1) 10 10 10 10 50;
               example_row (example_bar 2) 10 10 10 10 50] []]>
  (<["BBB"%string :=
      mkFrame [example_row (example_bar 0) 5 5 5 5 50;
               example_row (example_bar 1) 5 5 5 5 300;
               example_row (example_bar 2) 5 5 5 5 50] []]> ∅).

Definition example_intraday_signals : list (string * list SignalRow) :=
  build_signals example_entry_signal ["AAA"; "BBB"]%string example_intraday_data [].

(** ** Ranking vocabulary *)

(** [a] ranks at least as high as [b]. *)
Definition stronger (a b : Opportunity) : Prop := o_strength b <= o_strength a.

(** The opportunities of a list that score exactly [s]. *)
Definition with_strength (s : Q) (l : list Opportunity) : list Opportunity :=
  filter (fun o => Qeq_bool (o_strength o) s = true) l.

(** The free slots of the engine. *)
Definition free_slots (self : Backtester) : nat :=
  Z.to_nat (bt_max_positions self - Z.of_nat (length (positions self))).

(** Three candidates of strengths 0.9, 0.95 and 0.4 on one bar, for an
    engine with a single slot. *)
Definition example_three_signals : list (string * list SignalRow) :=
  [("S90", [mkSignalRow (example_day 1) 10 true (90 # 100)]);
   ("S95", [mkSignalRow (example_day 1) 10 true (95 # 100)]);
   ("S40", [mkSignalRow (example_day 1) 10 true (40 # 100)])]%string.

Definition example_three_data : gmap string DataFrame :=
  <["S90"%string := example_aaa]>
  (<["S95"%string := example_aaa]> (<["S40"%string := example_aaa]> ∅)).

Definition example_single_slot : Backtester :=
  Backtester_init 10000 (2 # 100) (20 # 100) 1 (1 # 1000) (1 # 1000) (3 # 100) (8 # 100).

(** Two engine states agree on everything but the risk-limit bookkeeping. *)
Definition same_book (a b : Backtester) : Prop :=
  initial_capital a = initial_capital b /\ capital a = capital b /\
  positions a = positions b /\ trades a = trades b /\ sizer a = sizer b /\
  bt_max_positions a = bt_max_positions b /\
  bt_stop_loss_pct a = bt_stop_loss_pct b /\
  commission_pct a = commission_pct b /\ slippage_pct a = slippage_pct b.

(** ** Accounting vocabulary *)

(** Open-position notional, at entry prices. *)
Definition open_notional (ps : list (string * Position)) : Q :=
  Qsum (map (fun e => p_num_contracts e.2 * entry_price e.2) ps).

(** Realized profit and loss of the ledger. *)
Definition realized (ts : list Trade) : Q := Qsum (map return_usd ts).

(** Cash plus open notional less realized P&L is the initial capital. *)
Definition conserved (self : Backtester) : Prop :=
  capital self + open_notional (positions self) - realized (trades self)
    == initial_capital self.

(** What the scanning loop of [_check_exits] may change in a position: the
    peak, upwards. *)
Definition peak_updated (e e' : string * Position) : Prop :=
  e'.1 = e.1 /\
  p_symbol e'.2 = p_symbol e.2 /\ entry_date e'.2 = entry_date e.2 /\
  entry_index e'.2 = entry_index e.2 /\ entry_price e'.2 = entry_price e.2 /\
  p_position_size_usd e'.2 = p_position_size_usd e.2 /\
  p_num_contracts e'.2 = p_num_contracts e.2 /\
  peak_price e.2 <= peak_price e'.2.

(** The configuration of the engine, which no operation assigns. *)
Definition same_config (a b : Backtester) : Prop :=
  initial_capital a = initial_capital b /\
  bt_stop_loss_pct a = bt_stop_loss_pct b /\
  bt_max_positions a = bt_max_positions b /\
  commission_pct a = commission_pct b /\
  slippage_pct a = slippage_pct b.

(** ** Well-formed price data and books *)

(** The price-provider contract on a frame: strictly increasing timestamps,
    positive prices, and each low at or below its close. *)
Definition frame_ok (df : DataFrame) : Prop :=
  StronglySorted Z.lt (map timestamp (rows df)) /\
  Forall (fun r => 0 < low r /\ low r <= close r) (rows df).

Definition data_ok (data : gmap string DataFrame) : Prop :=
  forall symbol df, data !! symbol = Some df -> frame_ok df.

(** A recorded trade with a peak at or above its entry price and a maximum
    adverse excursion that is a number at most zero. *)
Definition trade_ok (t : Trade) : Prop :=
  t_entry_price t <= t_peak_price t /\
  exists m, max_adverse_excursion t = Some m /\ m <= 0.

(** An open position entered no later than [bound]: its entry row exists
    in its symbol's frame, its entry price is positive and at least that
    row's low, and its peak is at least the entry price. *)
Definition position_ok (data : gmap string DataFrame) (bound : datetime)
    (e : string * Position) : Prop :=
  0 < entry_price e.2 /\
  entry_price e.2 <= peak_price e.2 /\
  (entry_date e.2 <= bound)%Z /\
  exists df row,
    data !! e.1 = Some df /\
    rows df !! entry_index e.2 = Some row /\
    timestamp row = entry_date e.2 /\
    low row <= entry_price e.2.

Definition book_ok (data : gmap string DataFrame) (bound : datetime)
    (self : Backtester) : Prop :=
  0 <= slippage_pct self /\
  Forall (position_ok data bound) (positions self) /\
  Forall trade_ok (trades self).

(** The signal frames annotate the rows of the price frames. *)
Definition mirrors (s : SignalRow) (r : Row) : Prop :=
  s_timestamp s = timestamp r /\ s_close s = close r.

Definition signals_mirror (data : gmap string DataFrame)
    (signals : list (string * list SignalRow)) : Prop :=
  forall symbol sdf,
    (symbol, sdf) ∈ signals ->
    exists df, data !! symbol = Some df /\ Forall2 mirrors sdf (rows df).

(** A pending exit found on the bar stamped [date]. *)
Definition closing_ok (data : gmap string DataFrame) (date : datetime)
    (c : Closing) : Prop :=
  exists df, data !! c.1.1 = Some df /\ index_of date (rows df) = Some c.1.2.

(** A candidate priced at the close of its symbol's bar stamped [date]. *)
Definition opportunity_ok (data : gmap string DataFrame) (date : datetime)
    (o : Opportunity) : Prop :=
  o_date o = date /\
  forall df, data !! o_symbol o = Some df ->
             exists row, row ∈ rows df /\ timestamp row = date /\ close row = o_price o.

(** ** Exits as ledger entries *)

(** Trade [t] records the pending exit [c], closed by an engine configured
    and holding positions as [self]: the exit price is the close less
    slippage, and the return is the gross P&L less the exit commission. *)
Definition closes (self : Backtester) (c : Closing) (t : Trade) : Prop :=
  t_symbol t = c.1.1 /\
  exit_reason t = ed_exit_reason c.2 /\
  exit_date t = ed_timestamp c.2 /\
  exit_price t = ed_close c.2 * (1 - slippage_pct self) /\
  return_usd t =
    t_num_contracts t * (exit_price t - t_entry_price t)
    - t_num_contracts t * exit_price t * commission_pct self /\
  exists p, (c.1.1, p) ∈ positions self /\
            t_entry_date t = entry_date p /\
            t_entry_price t = entry_price p /\
            t_num_contracts t = p_num_contracts p.

(** A pending universe exit on the bar stamped [date]. *)
Definition universe_closing (data : gmap string DataFrame) (date : datetime)
    (current_universe : list string) (c : Closing) : Prop :=
  (c.1.1 ∉ current_universe) /\
  ed_exit_reason c.2 = removed_from_universe /\
  ed_timestamp c.2 = date /\
  exists df row,
    data !! c.1.1 = Some df /\
    index_of date (rows df) = Some c.1.2 /\
    rows df !! c.1.2 = Some row /\
    ed_close c.2 = close row.

(** ** States of the worked scenario *)

(** The completed five-day run. *)
Definition example_final : Backtester :=
  Eval vm_compute in
    default example_backtester
      (run example_entry_signal example_backtester ["AAA"; "BBB"]%string
           example_data 2 true).

(** A round trip at an unchanged price: one symbol quoted at 10 on every
    bar, a signal on the second bar, no slippage and the default 0.1%
    commission.  The position is opened on the second bar and closed at the
    end of the run. *)
Definition example_flat : DataFrame :=
  mkFrame [example_row (example_day 0) 10 10 10 10 50;
           example_row (example_day 1) 10 10 10 10 500;
           example_row (example_day 2) 10 10 10 10 50;
           example_row (example_day 3) 10 10 10 10 50] [].

Definition example_flat_data : gmap string DataFrame :=
  <["AAA"%string := example_flat]> ∅.

Definition example_flat_backtester : Backtester :=
  Backtester_init 10000 (2 # 100) (20 # 100) 5 (1 # 1000) 0 (3 # 100) (8 # 100).

Definition example_flat_opened : Backtester :=
  Eval vm_compute in
    default example_flat_backtester
      (_open_position example_flat_backtester "AAA" (example_day 1) 10 example_flat).

Definition example_flat_final : Backtester :=
  Eval vm_compute in
    default example_flat_backtester
      (run example_entry_signal example_flat_backtester ["AAA"%string]
           example_flat_data 2 true).

(** The position in AAA that [example_halved] holds. *)
Definition example_aaa_position : Position :=
  Eval vm_compute in
    default (mkPosition "" 0%Z 0%nat 0 0 0 0 0%Z)
      (dict_get "AAA" (positions example_halved)).

(** The fourth bar with AAA dropped from the universe. *)
Definition example_removed : Backtester :=
  Eval vm_compute in
    default example_backtester
      (realistic_step 2 true example_signals example_data ["BBB"%string]
                      example_halved (example_day 3)).

(** The single-slot engine after the bar with three candidates. *)
Definition example_one_entry : Backtester :=
  Eval vm_compute in
    default example_single_slot
      (_check_entries_filtered example_single_slot (example_day 1)
         example_three_signals example_three_data ["S90"; "S95"; "S40"]%string).

(** The risk-limit bookkeeping of two engine states agrees. *)
Definition same_risk (a b : Backtester) : Prop :=
  daily_start_capital a = daily_start_capital b /\
  weekly_start_capital a = weekly_start_capital b /\
  current_date a = current_date b /\ current_week a = current_week b /\
  size_multiplier a = size_multiplier b /\
  daily_trading_stopped a = daily_trading_stopped b.

(** * The rest of the strategy code

    The functions around the engine: the remaining methods of the sizer,
    the moving-average and volume indicators, the position simulator of
    [signals/exit_signals.py], the result assembly of the backtester and
    the clock and risk checks of the live system.

    A frame carries its price rows and its [sma_<period>] columns; a
    function that adds other columns returns those columns beside the
    frame, each as the list of its values in row order. *)

(** ** backtest/position_sizer.py: portfolio bounds *)

(** [get_max_portfolio_risk]. *)
Definition get_max_portfolio_risk (self : PositionSizer) : Q :=
  inject_Z (max_positions self) * (account_size self * risk_per_trade_pct self).

(** [get_max_portfolio_exposure]. *)
Definition get_max_portfolio_exposure (self : PositionSizer) : option Q :=
  per_position ← fdiv (account_size self * risk_per_trade_pct self) (stop_loss_pct self);
  Some (inject_Z (max_positions self) * per_position).

(** The module-level [calculate_position_size]: a sizer with the dataclass
    defaults for the two fields it does not pass, asked for its first
    position. *)
Module position_sizer.
Definition calculate_position_size
    (account_size entry_price risk_per_trade_pct stop_loss_pct : Q) : option Sizing :=
  let sizer :=
    mkPositionSizer account_size risk_per_trade_pct stop_loss_pct 5 (20 # 100) in
  calculate_position_size sizer entry_price 0.
End position_sizer.

(** ** indicators/moving_averages.py: the other indicators *)

(** [df['sma_<period>']] on a frame that has the column. *)
Definition column (df : DataFrame) (period : nat) : list (option Q) :=
  default [] (find_column period (sma_columns df)).

(** [calculate_multiple_smas]. *)
Definition calculate_multiple_smas (df : DataFrame) (periods : list nat) : DataFrame :=
  fold_left calculate_sma periods df.

(** [a > b] on two column values; false when either is NaN. *)
Definition gt_nan (a b : option Q) : bool :=
  match a, b with
  | Some x, Some y => Qltb y x
  | _, _ => false
  end.

(** [check_price_above_ma]: the frame with its SMA column, and the
    [above_ma_<period>] column. *)
Definition check_price_above_ma (df : DataFrame) (ma_period : nat)
  : DataFrame * list bool :=
  let result := calculate_sma df ma_period in
  (result,
   zip_with gt_nan (map (fun r => Some (close r)) (rows result)) (column result ma_period)).

(** [get_ma_regime]. *)
Record MaRegime := mkMaRegime {
  mr_frame : DataFrame;
  above_ma : list bool;
  regime_uptrend : list bool;
  regime_downtrend : list bool
}.

Definition get_ma_regime (df : DataFrame) (regime_period : nat) : MaRegime :=
  let '(result, above) := check_price_above_ma df regime_period in
  mkMaRegime result above above (map negb above).

(** [Series.shift(1)]: every value moves one row down, the first row is
    NaN. *)
Definition shift1 {A} (xs : list A) : list (option A) :=
  take (length xs) (None :: (Some <$> xs)).

(** The row tests of [calculate_ma_crossover]:
    [(col == True) & (col.shift(1) == False)] and its mirror image.  A NaN
    in the shifted column equals neither truth value. *)
Definition bullish_now (now : bool) (before : option bool) : bool :=
  bool_decide (now = true) && bool_decide (before = Some false).

Definition bearish_now (now : bool) (before : option bool) : bool :=
  bool_decide (now = false) && bool_decide (before = Some true).

(** [calculate_ma_crossover]. *)
Record MaCrossover := mkMaCrossover {
  mc_frame : DataFrame;
  fast_above_slow : list bool;
  ma_cross_bullish : list bool;
  ma_cross_bearish : list bool
}.

Definition calculate_ma_crossover (df : DataFrame) (fast_period slow_period : nat)
  : MaCrossover :=
  let result := calculate_sma (calculate_sma df fast_period) slow_period in
  let fast_above_slow :=
    zip_with gt_nan (column result fast_period) (column result slow_period) in
  let previous := shift1 fast_above_slow in
  mkMaCrossover result fast_above_slow
    (zip_with bullish_now fast_above_slow previous)
    (zip_with bearish_now fast_above_slow previous).

(** [ewm(..., adjust=False).mean()] with smoothing factor [alpha]: the
    first value is the first observation, every later one is
    [(1 - alpha) * previous + alpha * observation]. *)
Fixpoint ewm_from (alpha previous : Q) (xs : list Q) : list Q :=
  match xs with
  | [] => []
  | x :: xs' =>
      let y := (1 - alpha) * previous + alpha * x in
      y :: ewm_from alpha y xs'
  end.

Definition ewm_mean (alpha : Q) (xs : list Q) : list Q :=
  match xs with
  | [] => []
  | x :: xs' => x :: ewm_from alpha x xs'
  end.

(** [calculate_ema]: the frame and its [ema_<period>] column; pandas
    refuses a span below one. *)
Definition calculate_ema (df : DataFrame) (period : nat) : option (DataFrame * list Q) :=
  if (period =? 0)%nat then None
  else
    let alpha := 2 / (inject_Z (Z.of_nat period) + 1) in
    Some (df, ewm_mean alpha (map close (rows df))).

(** The values a rolling window of [period] rows sees at row [i]. *)
Definition window (period : nat) (xs : list Q) (i : nat) : list Q :=
  take period (drop (S i - period) xs).

(** The number of rows at which a boolean column is set. *)
Definition count_true (bs : list bool) : Z :=
  Z.of_nat (length (filter (fun b => b = true) bs)).

(** ** signals/exit_signals.py: simulate_position_exit *)

(** The [exit_reason] of a simulated position: the reason reported by
    [check_exit_signal], or one of the simulator's own two. *)
Inductive SimulatedReason :=
| by_signal (reason : ExitReason)
| max_holding_days_reached
| still_open.

(** The dictionary returned by [simulate_position_exit]. *)
Record SimulatedExit := mkSimulatedExit {
  sx_entry_index : nat;
  sx_entry_price : Q;
  sx_entry_timestamp : datetime;
  sx_exit_index : nat;
  sx_exit_price : Q;
  sx_exit_timestamp : datetime;
  sx_exit_reason : SimulatedReason;
  sx_peak_price : Q;
  sx_peak_index : nat;
  sx_return_pct : Q;
  sx_holding_days : Z;
  sx_max_adverse_excursion : option Q
}.

(** [max_holding_days and held >= max_holding_days]: [None] and 0 are
    both falsy. *)
Definition limit_reached (max_holding_days : option Z) (held : Z) : bool :=
  match max_holding_days with
  | Some n => negb (n =? 0)%Z && (n <=? held)%Z
  | None => false
  end.

(** The frame with its [sma_<ma_period>] column, computed when absent. *)
Definition ensure_sma (df : DataFrame) (ma_period : nat) : DataFrame :=
  match find_column ma_period (sma_columns df) with
  | None => calculate_sma df ma_period
  | Some _ => df
  end.

(** The holding loop over the rows after the entry: either a result is
    returned from inside the loop, or the loop runs out and leaves the
    peak it tracked. *)
Fixpoint exit_scan (df : DataFrame) (entry_index : nat) (entry_price : Q)
    (entry_row : Row) (trailing_stop_pct : Q) (ma_period : nat) (use_ma_exit : bool)
    (max_holding_days : option Z) (peak_price : Q) (peak_index : nat)
    (indices : list nat) : option (SimulatedExit + Q * nat) :=
  match indices with
  | [] => Some (inr (peak_price, peak_index))
  | i :: rest =>
      row ← rows df !! i;
      let '(peak_price, peak_index) :=
        if Qltb peak_price (high row) then (high row, i) else (peak_price, peak_index) in
      '(exit_triggered, exit_details) ←
        check_exit_signal df entry_index i entry_price trailing_stop_pct
                          ma_period use_ma_exit;
      if (exit_triggered : bool) then
        Some (inl (mkSimulatedExit entry_index entry_price (timestamp entry_row) i
                     (se_close exit_details) (se_timestamp exit_details)
                     (by_signal (se_exit_reason exit_details))
                     peak_price peak_index
                     (se_return_pct exit_details) (se_holding_days exit_details)
                     (adverse_excursion df entry_index i entry_price)))
      else
        let held := (Z.of_nat i - Z.of_nat entry_index)%Z in
        if limit_reached max_holding_days held then
          return_pct ← fdiv (close row - entry_price) entry_price;
          Some (inl (mkSimulatedExit entry_index entry_price (timestamp entry_row) i
                       (close row) (timestamp row) max_holding_days_reached
                       peak_price peak_index return_pct held
                       (adverse_excursion df entry_index i entry_price)))
        else
          exit_scan df entry_index entry_price entry_row trailing_stop_pct ma_period
                    use_ma_exit max_holding_days peak_price peak_index rest
  end.

Definition simulate_position_exit (df : DataFrame) (entry_index : nat) (entry_price : Q)
    (trailing_stop_pct : Q) (ma_period : nat) (use_ma_exit : bool)
    (max_holding_days : option Z) : option SimulatedExit :=
  let df := ensure_sma df ma_period in
  entry_row ← rows df !! entry_index;
  outcome ←
    exit_scan df entry_index entry_price entry_row trailing_stop_pct ma_period
              use_ma_exit max_holding_days entry_price entry_index
              (seq (S entry_index) (length (rows df) - S entry_index));
  match outcome with
  | inl result => Some result
  | inr (peak_price, peak_index) =>
      let final_index := (length (rows df) - 1)%nat in
      final_row ← rows df !! final_index;
      return_pct ← fdiv (close final_row - entry_price) entry_price;
      Some (mkSimulatedExit entry_index entry_price (timestamp entry_row) final_index
              (close final_row) (timestamp final_row) still_open
              peak_price peak_index return_pct
              (Z.of_nat final_index - Z.of_nat entry_index)%Z
              (adverse_excursion df entry_index final_index entry_price))
  end.

(** [check_exit_signal] at row [i] of a position entered at [entry_index]
    does not trigger. *)
Definition no_exit_at (df : DataFrame) (entry_index : nat) (entry_price : Q)
    (trailing_stop_pct : Q) (ma_period : nat) (use_ma_exit : bool) (i : nat) : Prop :=
  exists details,
    check_exit_signal df entry_index i entry_price trailing_stop_pct ma_period use_ma_exit
      = Some (false, details).

(** A position in the worked scenario's AAA, entered on the second bar at
    10.01: simulated without a holding limit, and with a limit of one
    bar. *)
Definition example_simulated : SimulatedExit :=
  Eval vm_compute in
    default (mkSimulatedExit 0 0 0%Z 0 0 0%Z still_open 0 0 0 0%Z None)
      (simulate_position_exit example_aaa 1 (1001 # 100) (20 # 100) 2 true None).

Definition example_simulated_limited : SimulatedExit :=
  Eval vm_compute in
    default (mkSimulatedExit 0 0 0%Z 0 0 0%Z still_open 0 0 0 0%Z None)
      (simulate_position_exit example_aaa 1 (1001 # 100) (20 # 100) 2 true (Some 1%Z)).

(** ** backtest/performance.py: reading the breakdowns *)

(** [exit_reasons.get(reason)]. *)
Fixpoint reason_get (r : ExitReason) (counts : list (ExitReason * Z)) : option Z :=
  match counts with
  | [] => None
  | (r', n) :: rest => if decide (r' = r) then Some n else reason_get r rest
  end.

Definition Zsum (xs : list Z) : Z := fold_right Z.add 0%Z xs.

(** The trades of a ledger with a given exit reason, and of a given
    symbol. *)
Definition trades_with_reason (r : ExitReason) (trades : list Trade) : list Trade :=
  filter (fun t => exit_reason t = r) trades.

Definition trades_of_symbol (s : string) (trades : list Trade) : list Trade :=
  filter (fun t => t_symbol t = s) trades.

(** The two breakdowns at the end of [calculate_performance_metrics]. *)
Definition exit_reasons_of (trades : list Trade) : list (ExitReason * Z) :=
  fold_left (fun acc t => count_reason (exit_reason t) acc) trades [].

Definition symbol_stats_of (trades : list Trade) : list (string * (Z * Z * Q)) :=
  fold_left (fun acc t => count_symbol t acc) trades [].

(** One trade added to a symbol's statistics: the update that
    [count_symbol] applies. *)
Definition bump_stats (t : Trade) (st : Z * Z * Q) : Z * Z * Q :=
  let '(n, w, total) := st in
  ((n + 1)%Z, (if Qltb 0 (return_pct t) then w + 1 else w)%Z, total + return_pct t).

(** The winners among some trades. *)
Definition winners (trades : list Trade) : list Trade :=
  filter (fun t => Qltb 0 (return_pct t) = true) trades.

(** ** Engine invariants *)

(** The engine holds no more positions than it has slots, and its sizer
    counts the same slots. *)
Definition slots_ok (self : Backtester) : Prop :=
  max_positions (sizer self) = bt_max_positions self /\
  (Z.of_nat (length (positions self)) <= bt_max_positions self)%Z.

(** What opening and closing positions leave alone: the equity history and
    the risk-limit bookkeeping; the slot discipline is kept. *)
Definition steady (a b : Backtester) : Prop :=
  equity_history b = equity_history a /\
  same_risk a b /\
  bt_max_positions b = bt_max_positions a /\
  daily_loss_limit_pct b = daily_loss_limit_pct a /\
  (slots_ok a -> slots_ok b).

(** A row of the equity history adds up, and counts no more positions than
    [limit]. *)
Definition equity_row_ok (limit : Z) (r : EquityRow) : Prop :=
  eq_equity r = eq_cash r + eq_positions_value r /\
  (Z.of_nat (eq_num_positions r) <= limit)%Z.

(** No daily halt is in force, and the timestamp of the last daily check is
    not after [bound]. *)
Definition unhalted (bound : datetime) (self : Backtester) : Prop :=
  daily_trading_stopped self = false /\
  forall d, current_date self = Some d -> (d <= bound)%Z.

(** The trading days of the two loops. *)
Definition realistic_trading_days (signals : list (string * list SignalRow))
    (start_date : datetime) : list datetime :=
  sorted_dates
    (concat (map (fun e => filter (fun t => (start_date <=? t)%Z = true)
                                  (map s_timestamp e.2)) signals)).

(** The worked scenario run through the realistic loop with a static
    universe of both symbols. *)
Definition example_realistic : UniverseCursor * Backtester :=
  Eval vm_compute in
    default (mkCursor [] 0 [], example_backtester)
      (run_realistic example_backtester
         [(example_day 0, ["AAA"; "BBB"]%string)]
         example_signals example_data (example_day 0) 2 true).

(** Every open position was entered no later than [bound]. *)
Definition entered_by (bound : datetime) (self : Backtester) : Prop :=
  Forall (fun e : string * Position => (entry_date e.2 <= bound)%Z) (positions self).

(** A ledger entry closed by an exit signal on a bar after its entry bar,
    or closed at the end of the run. *)
Definition held_over (t : Trade) : Prop :=
  exit_reason t = end_of_backtest \/
  ((exit_reason t = trailing_stop \/ exit_reason t = ma_exit) /\
   (t_entry_date t < exit_date t)%Z).

(** ** backtest/backtester.py: assembling the result *)

(** [Series.pct_change()]: NaN on the first row, then
    [current / previous - 1] in NumPy arithmetic. *)
Definition pct_step (previous current : Q) : npfloat :=
  match np_divide current previous with
  | Fin q => Fin (q - 1)
  | other => other
  end.

Definition pct_change (xs : list Q) : list npfloat :=
  match xs with
  | [] => []
  | _ :: rest => NaN :: zip_with pct_step xs rest
  end.

Definition is_nan (x : npfloat) : bool :=
  match x with
  | NaN => true
  | _ => false
  end.

(** [Series.dropna()]. *)
Definition dropna (xs : list npfloat) : list npfloat :=
  filter (fun x => is_nan x = false) xs.

Record BacktestConfig := mkBacktestConfig {
  cfg_initial_capital : Q;
  cfg_risk_per_trade_pct : Q;
  cfg_stop_loss_pct : Q;
  cfg_max_positions : Z;
  cfg_commission_pct : Q;
  cfg_slippage_pct : Q
}.

(** [BacktestResult]; [r_returns] is the [returns] column that
    [_generate_results] adds to the equity curve. *)
Record BacktestResult := mkBacktestResult {
  r_trades : list Trade;
  r_equity_curve : list EquityRow;
  r_returns : list npfloat;
  r_daily_returns : list npfloat;
  r_config : BacktestConfig
}.

Definition _generate_results (self : Backtester) : BacktestResult :=
  let returns := pct_change (map eq_equity (equity_history self)) in
  mkBacktestResult (trades self) (equity_history self) returns (dropna returns)
    (mkBacktestConfig (initial_capital self) (bt_risk_per_trade_pct self)
       (bt_stop_loss_pct self) (bt_max_positions self) (commission_pct self)
       (slippage_pct self)).

(** The growth factor of a series of returns. *)
Definition compound (returns : list Q) : Q :=
  fold_right (fun r acc => (1 + r) * acc) 1 returns.

(** ** backtest/realistic_backtester.py: the universe snapshots *)

(** "Get universe updates for the period": a non-empty static universe is
    a single snapshot dated at the start; without one the scanner's
    snapshots are used.  An empty static list is falsy, and the scanner
    was not built for it. *)
Definition universe_updates_for (static_universe : option (list string))
    (scanned : list (datetime * list string)) (start_date : datetime)
  : option (list (datetime * list string)) :=
  match static_universe with
  | Some [] => None
  | Some universe => Some [(start_date, universe)]
  | None => Some scanned
  end.

(** ** indicators/volume.py *)

(** [calculate_avg_volume]: the [avg_volume] column. *)
Definition calculate_avg_volume (df : DataFrame) (period : nat) : list (option Q) :=
  rolling_mean period (map volume (rows df)).

(** A column value over an average, with the infinities of a zero average
    replaced by NaN ([replace([inf, -inf], nan)]); 0/0 and a NaN average
    are NaN already. *)
Definition ratio_nan (value : Q) (average : option Q) : option Q :=
  match average with
  | Some a => if Qeq_bool a 0 then None else Some (value / a)
  | None => None
  end.

(** [calculate_relative_volume_ratio]: the [avg_volume] and [rvr]
    columns. *)
Definition calculate_relative_volume_ratio (df : DataFrame) (period : nat)
  : list (option Q) * list (option Q) :=
  let avg_volume := calculate_avg_volume df period in
  (avg_volume, zip_with ratio_nan (map volume (rows df)) avg_volume).

(** [percentile_rank]: the share of the other values of the window that
    are below its last value; NaN for a window of fewer than two. *)
Definition percentile_rank (series : list Q) : option Q :=
  if (length series <? 2)%nat then None
  else
    current ← last series;
    Some (inject_Z (Z.of_nat (length (filter (fun x => Qltb x current = true) series)))
          / inject_Z (Z.of_nat (length series - 1))).

(** [rolling(window=period).apply(f)] at row [i]: NaN until the window is
    full. *)
Definition rolling_apply_at (f : list Q -> option Q) (period : nat) (xs : list Q) (i : nat)
  : option Q :=
  match period with
  | O => None
  | S _ =>
      if (period <=? S i)%nat then
        let seen := window period xs i in
        if (length seen =? period)%nat then f seen else None
      else None
  end.

(** [calculate_volume_percentile]: the [volume_percentile] column. *)
Definition calculate_volume_percentile (df : DataFrame) (lookback_period : nat)
  : list (option Q) :=
  let volumes := map volume (rows df) in
  map (rolling_apply_at percentile_rank lookback_period volumes) (seq 0 (length volumes)).

(** ** The live trading loop ([trading_system.py])

    [TradingSystem] drives the same sizer and exit rules against the
    exchange.  Its risk check and its candle clock are pure functions of the
    risk fields and of the wall clock; the clock readings are inputs here.

    [datetime.now().month] follows CPython's [_ord2ymd]. *)

Definition _DAYS_IN_MONTH : list Z :=
  [-1; 31; 28; 31; 30; 31; 30; 31; 31; 30; 31; 30; 31]%Z.

Definition _DAYS_BEFORE_MONTH : list Z :=
  [-1; 0; 31; 59; 90; 120; 151; 181; 212; 243; 273; 304; 334]%Z.

Definition month_of_ordinal (n : Z) : Z :=
  (let n := n - 1 in
   let n := n mod 146097 in
   let n100 := n / 36524 in
   let n := n mod 36524 in
   let n4 := n / 1461 in
   let n := n mod 1461 in
   let n1 := n / 365 in
   let n := n mod 365 in
   if (n1 =? 4) || (n100 =? 4) then 12
   else
     let leapyear := (n1 =? 3) && (negb (n4 =? 24) || (n100 =? 3)) in
     let month := Z.shiftr (n + 50) 5 in
     let preceding :=
       nth (Z.to_nat month) _DAYS_BEFORE_MONTH 0
       + (if (2 <? month) && leapyear then 1 else 0) in
     if n <? preceding then month - 1 else month)%Z.

Definition month_of (t : datetime) : Z := month_of_ordinal (toordinal t).

Module TradingSystem.

(** [config.risk]: the three loss limits. *)
Record RiskConfig := mkRiskConfig {
  daily_loss_limit_pct : Q;
  weekly_loss_limit_pct : Q;
  monthly_loss_limit_pct : Q
}.

(** The risk fields of a [TradingSystem]. *)
Record t := mk {
  capital : Q;
  daily_start_capital : Q;
  weekly_start_capital : Q;
  monthly_start_capital : Q;
  size_multiplier : Q;
  daily_trading_stopped : bool;
  system_halted : bool;
  current_date : option Z;
  current_week : option Z;
  current_month : option Z
}.

(** The state [__init__] leaves. *)
Definition init (initial_capital : Q) : t :=
  mk initial_capital initial_capital initial_capital initial_capital 1
     false false None None None.

Definition set_daily (self : t) (d : option Z) (start : Q) (stopped : bool) : t :=
  mk (capital self) start (weekly_start_capital self) (monthly_start_capital self)
     (size_multiplier self) stopped (system_halted self)
     d (current_week self) (current_month self).

Definition set_weekly (self : t) (w : option Z) (start : Q) (mult : Q) : t :=
  mk (capital self) (daily_start_capital self) start (monthly_start_capital self)
     mult (daily_trading_stopped self) (system_halted self)
     (current_date self) w (current_month self).

Definition set_monthly (self : t) (m : option Z) (start : Q) (halted : bool) : t :=
  mk (capital self) (daily_start_capital self) (weekly_start_capital self) start
     (size_multiplier self) (daily_trading_stopped self) halted
     (current_date self) (current_week self) m.

(** A call of [_handle_risk_event]: what is sent to Telegram, logged to the
    database and printed. *)
Inductive RiskType := DAILY_LOSS_LIMIT | WEEKLY_LOSS_LIMIT | MONTHLY_LOSS_LIMIT.

Record RiskEvent := mkRiskEvent {
  risk_type : RiskType;
  current_value : Q;
  limit_value : Q
}.

Definition is_monthly (e : RiskEvent) : bool :=
  match risk_type e with MONTHLY_LOSS_LIMIT => true | _ => false end.

Definition is_weekly (e : RiskEvent) : bool :=
  match risk_type e with WEEKLY_LOSS_LIMIT => true | _ => false end.

Definition is_daily (e : RiskEvent) : bool :=
  match risk_type e with DAILY_LOSS_LIMIT => true | _ => false end.

(** [check_risk_limits]: the new state, whether trading should stop, and the
    risk events handled on the way.  [now1], [now2] and [now3] are the three
    readings of [datetime.now()], in the order of the calls.  A reference
    capital of zero makes the division raise; the check then has no
    result. *)
Definition check_risk_limits (config : RiskConfig) (now1 now2 now3 : datetime) (self : t)
  : option (t * bool * list RiskEvent) :=
  let today := date_of now1 in
  let self :=
    if bool_decide (current_date self ≠ Some today)
    then set_daily self (Some today) (capital self) false
    else self in
  if daily_trading_stopped self then Some (self, true, [])
  else
    daily_loss_pct ←
      fdiv (capital self - daily_start_capital self) (daily_start_capital self);
    if Qle_bool daily_loss_pct (- daily_loss_limit_pct config) then
      Some (set_daily self (current_date self) (daily_start_capital self) true, true,
            [mkRiskEvent DAILY_LOSS_LIMIT daily_loss_pct (daily_loss_limit_pct config)])
    else
      let week := isocalendar_week now2 in
      let self :=
        if bool_decide (current_week self ≠ Some week)
        then set_weekly self (Some week) (capital self) 1
        else self in
      weekly_loss_pct ←
        fdiv (capital self - weekly_start_capital self) (weekly_start_capital self);
      let '(self, weekly_events) :=
        if Qle_bool weekly_loss_pct (- weekly_loss_limit_pct config)
           && Qeq_bool (size_multiplier self) 1
        then (set_weekly self (current_week self) (weekly_start_capital self) (1 # 2),
              [mkRiskEvent WEEKLY_LOSS_LIMIT weekly_loss_pct (weekly_loss_limit_pct config)])
        else (self, []) in
      let month := month_of now3 in
      let self :=
        if bool_decide (current_month self ≠ Some month)
        then set_monthly self (Some month) (capital self) (system_halted self)
        else self in
      monthly_loss_pct ←
        fdiv (capital self - monthly_start_capital self) (monthly_start_capital self);
      if Qle_bool monthly_loss_pct (- monthly_loss_limit_pct config) then
        Some (set_monthly self (current_month self) (monthly_start_capital self) true, true,
              weekly_events
              ++ [mkRiskEvent MONTHLY_LOSS_LIMIT monthly_loss_pct
                              (monthly_loss_limit_pct config)])
      else Some (self, false, weekly_events).

(** [RiskConfig]'s defaults: 3% a day, 8% a week, 15% a month. *)
Definition default_config : RiskConfig :=
  mkRiskConfig (3 # 100) (8 # 100) (15 # 100).

(** A wall-clock reading as [datetime] keeps it: the proleptic ordinal of
    the date and the time of day. *)
Record clock := mkClock {
  day : Z;
  hour : Z;
  minute : Z;
  second : Z;
  microsecond : Z
}.

(** [date.max.toordinal()]: 9999-12-31. *)
Definition _MAXORDINAL : Z := 3652059.

Definition clock_ok (c : clock) : Prop :=
  (1 <= day c <= _MAXORDINAL /\ 0 <= hour c < 24 /\ 0 <= minute c < 60
   /\ 0 <= second c < 60 /\ 0 <= microsecond c < 1000000)%Z.

(** Microseconds since the start of day 0: [datetime] values compare as
    these numbers do. *)
Definition to_microseconds (c : clock) : Z :=
  ((((day c * 24 + hour c) * 60 + minute c) * 60 + second c) * 1000000
   + microsecond c)%Z.

(** [now.replace(hour=h, minute=0, second=0, microsecond=0)]; an hour
    outside 0..23 raises [ValueError]. *)
Definition replace_hour (now : clock) (h : Z) : option clock :=
  if (0 <=? h)%Z && (h <? 24)%Z then Some (mkClock (day now) h 0 0 0) else None.

(** [c + timedelta(days=n)]; a date outside 0001-01-01 .. 9999-12-31 raises
    [OverflowError]. *)
Definition add_days (c : clock) (n : Z) : option clock :=
  if (0 <? day c + n)%Z && (day c + n <=? _MAXORDINAL)%Z
  then Some (mkClock (day c + n) (hour c) (minute c) (second c) (microsecond c))
  else None.

(** [_calculate_next_check_time], [now] being [datetime.utcnow()] and
    [check_interval_hours] the configured integer. *)
Definition _calculate_next_check_time (check_interval_hours : Z) (now : clock)
  : option clock :=
  if (check_interval_hours =? 0)%Z then None
  else
    let next_hour := ((hour now / check_interval_hours + 1) * check_interval_hours)%Z in
    if (24 <=? next_hour)%Z then
      c ← replace_hour now 0; add_days c 1
    else replace_hour now next_hour.

(** A candle boundary of the [check_interval_hours] grid. *)
Definition aligned (check_interval_hours : Z) (c : clock) : Prop :=
  (hour c mod check_interval_hours = 0 /\ minute c = 0 /\ second c = 0
   /\ microsecond c = 0)%Z.

Definition example_system : t :=
  mk 9000 10000 10000 10000 1 false false (Some 19782%Z) (Some 9%Z) (Some 2%Z).

Definition example_now : datetime := (19782 * 86400 + 3600)%Z.

Definition example_checked : t * bool * list RiskEvent :=
  Eval vm_compute in
    default (example_system, false, [])
      (check_risk_limits default_config example_now example_now example_now
         example_system).

Definition example_started : t * bool * list RiskEvent :=
  Eval vm_compute in
    default (example_system, false, [])
      (check_risk_limits default_config example_now example_now example_now
         (init 10000)).

End TradingSystem.
(** * Properties *)

(** ** Rational helpers *)

Lemma Qltb_lt a b : Qltb a b = true <-> a < b.
Proof.
  unfold Qltb. rewrite negb_true_iff. split; intros H.
  - apply Qnot_le_lt. intros Hle. apply Qle_bool_iff in Hle. congruence.
  - destruct (Qle_bool b a) eqn:E; [|reflexivity].
    apply Qle_bool_iff in E. exfalso. apply (Qlt_not_le _ _ H E).
Qed.

Lemma Qltb_ge a b : Qltb a b = false <-> b <= a.
Proof.
  unfold Qltb. rewrite negb_false_iff. apply Qle_bool_iff.
Qed.

Lemma Qle_bool_false a b : Qle_bool a b = false <-> b < a.
Proof.
  rewrite <- Qltb_lt. unfold Qltb. rewrite negb_true_iff. reflexivity.
Qed.

Lemma Qeq_bool_false a b : Qeq_bool a b = false <-> ~ a == b.
Proof.
  split; intros H.
  - intros E. apply Qeq_bool_iff in E. congruence.
  - destruct (Qeq_bool a b) eqn:E; [|reflexivity].
    apply Qeq_bool_iff in E. contradiction.
Qed.

Lemma fdiv_Some a b q : fdiv a b = Some q -> ~ b == 0 /\ q = a / b.
Proof.
  unfold fdiv. destruct (Qeq_bool b 0) eqn:E; [discriminate|].
  intros [= <-]. split; [|reflexivity]. now apply Qeq_bool_false.
Qed.

Lemma fdiv_nonzero a b : ~ b == 0 -> fdiv a b = Some (a / b).
Proof.
  intros H. unfold fdiv. apply Qeq_bool_false in H. now rewrite H.
Qed.

(** ** The calendar on known dates *)

(** ISO week numbers of 2024-01-01, 2021-01-03, 2020-12-31, 2019-12-30,
    2024-12-30, 2024-01-07, 2024-01-08, 2023-01-01, 1970-01-01, 2000-02-29 and
    2016-01-03, as [date.isocalendar()] reports them. *)
Example isocalendar_week_known_dates :
  map (fun days => isocalendar_week (days * seconds_per_day + 3600)%Z)
      [19723; 18630; 18627; 18260; 20087; 19729; 19730; 19358; 0; 11016; 16803]%Z
  = [1; 53; 53; 1; 1; 1; 2; 52; 1; 9; 53]%Z.
Proof. reflexivity. Qed.

(** Bars of one day share the calendar date but not the timestamp. *)
Example intraday_bars_share_the_date :
  date_of (example_bar 0) = date_of (example_bar 1) /\
  example_bar 0 <> example_bar 1 /\
  date_of (example_day 0) <> date_of (example_day 1).
Proof. repeat split; discriminate. Qed.

(** The two-bar rolling mean of closes 10, 12, 9 is NaN, 11, 10.5. *)
Example rolling_mean_example :
  map (fmap Qred) (rolling_mean 2 [10; 12; 9]) = [None; Some 11; Some (21 # 2)].
Proof. reflexivity. Qed.

(** ** Position sizing *)

(** C3.  With a free slot ([current_positions < max_positions]) and the three
    divisors non-zero, [calculate_position_size] accepts, and its result is
    the risk-based size [account * risk% / stop%] with risk
    [account * risk%] when that size is at most [max_position_size_pct] of
    the account, and otherwise the clamped size [account * max%] with the
    risk recomputed as [size * stop%]; the quantity is [size / entry_price].
    For the 10,000 account with 2% risk and a 20% stop the size is 1000 and,
    at an entry price of 0.25, the quantity is 4000. *)
Theorem C3_position_size_algorithm (s : PositionSizer) (entry_price : Q) (n : nat) :
  (Z.of_nat n < max_positions s)%Z ->
  ~ stop_loss_pct s == 0 -> ~ account_size s == 0 -> ~ entry_price == 0 ->
  (exists r,
      calculate_position_size s entry_price n = Some r /\
      can_open r = true /\
      (account_size s * risk_per_trade_pct s / stop_loss_pct s / account_size s
         <= max_position_size_pct s ->
       position_size_usd r == account_size s * risk_per_trade_pct s / stop_loss_pct s /\
       risk_usd r == account_size s * risk_per_trade_pct s) /\
      (max_position_size_pct s
         < account_size s * risk_per_trade_pct s / stop_loss_pct s / account_size s ->
       position_size_usd r == account_size s * max_position_size_pct s /\
       risk_usd r == position_size_usd r * stop_loss_pct s) /\
      num_contracts r == position_size_usd r / entry_price) /\
  (exists r0,
      calculate_position_size default_sizer (25 # 100) 0 = Some r0 /\
      position_size_usd r0 == 1000 /\ num_contracts r0 == 4000).
Proof.
  intros Hslot Hstop Hacc Hprice. split.
  - unfold calculate_position_size.
    apply Z.ltb_lt in Hslot. rewrite Hslot. simpl.
    rewrite (fdiv_nonzero _ _ Hstop). simpl.
    rewrite (fdiv_nonzero _ _ Hacc). simpl.
    destruct (Qltb (max_position_size_pct s) _) eqn:Hcap; simpl;
      rewrite (fdiv_nonzero _ _ Hprice); simpl;
      eexists; (split; [reflexivity|]); simpl; (split; [reflexivity|]).
    + apply Qltb_lt in Hcap. repeat split; try reflexivity.
      * exfalso. apply (Qlt_not_le _ _ Hcap). assumption.
      * exfalso. apply (Qlt_not_le _ _ Hcap). assumption.
    + apply Qltb_ge in Hcap. repeat split; try reflexivity.
      * exfalso. apply (Qlt_not_le _ _ H). assumption.
      * exfalso. apply (Qlt_not_le _ _ H). assumption.
  - eexists. split; [vm_compute; reflexivity|]. split; reflexivity.
Qed.

Lemma C3_position_size_algorithm_witness :
  exists r,
    calculate_position_size default_sizer (25 # 100) 0 = Some r /\
    can_open r = true /\
    position_size_usd r == 1000 /\ risk_usd r == 200 /\ num_contracts r == 4000.
Proof.
  destruct (C3_position_size_algorithm default_sizer (25 # 100) 0)
    as [[r (Hr & Hopen & Hfree & _ & Hqty)] _].
  - vm_compute. reflexivity.
  - vm_compute. discriminate.
  - vm_compute. discriminate.
  - vm_compute. discriminate.
  - exists r. split; [exact Hr|]. split; [exact Hopen|].
    destruct Hfree as [Hsize Hrisk].
    + vm_compute. discriminate.
    + split; [rewrite Hsize; reflexivity|].
      split; [rewrite Hrisk; reflexivity|].
      rewrite Hqty, Hsize. reflexivity.
Defined.

(** ** Performance metrics on an empty ledger *)

(** C9.  On an empty trade list [calculate_performance_metrics] returns the
    neutral record of [_empty_metrics], whatever the equity curve, the daily
    returns and the initial capital are: zero trades, zero win rate, the zero
    profit-factor sentinel, zero drawdown and zero Sharpe ratio.  The function
    is total, so nothing is raised. *)
Theorem C9_empty_ledger_metrics
    (np_median np_std : list Q -> Q) (series_std : list Q -> option Q) (sqrt_365 : Q)
    (equity_curve daily_returns : list Q) (initial_capital : Q) :
  let metrics :=
    calculate_performance_metrics np_median np_std series_std sqrt_365
                                  [] equity_curve daily_returns initial_capital in
  metrics = _empty_metrics /\
  dict_get "total_trades" metrics = Some (VInt 0) /\
  dict_get "win_rate" metrics = Some (VInt 0) /\
  dict_get "profit_factor" metrics = Some (VInt 0) /\
  dict_get "max_drawdown" metrics = Some (VInt 0) /\
  dict_get "sharpe_ratio" metrics = Some (VInt 0).
Proof.
  simpl. repeat split; reflexivity.
Qed.

(** ** Exit signals *)

Lemma Qmax_cases (x y : Q) : Qmax x y = x \/ Qmax x y = y.
Proof. unfold Qmax, GenericMinMax.gmax. destruct (x ?= y); auto. Qed.

Lemma Qmin_cases (x y : Q) : Qmin x y = x \/ Qmin x y = y.
Proof. unfold Qmin, GenericMinMax.gmin. destruct (x ?= y); auto. Qed.

Lemma series_max_spec (xs : list Q) (m : Q) :
  series_max xs = Some m -> m ∈ xs /\ forall x, x ∈ xs -> x <= m.
Proof.
  revert m. induction xs as [|x xs IH]; intros m; simpl; [discriminate|].
  destruct (series_max xs) as [m'|] eqn:E.
  - intros [= <-]. destruct (IH m' eq_refl) as [Hin Hub]. split.
    + destruct (Qmax_cases x m') as [Hmax|Hmax]; rewrite Hmax.
      * apply list_elem_of_here.
      * apply list_elem_of_further, Hin.
    + intros y Hy. apply elem_of_cons in Hy as [->|Hy].
      * apply Q.le_max_l.
      * eapply Qle_trans; [apply Hub, Hy|apply Q.le_max_r].
  - intros [= <-]. destruct xs; [|simpl in E; destruct (series_max xs); discriminate].
    split; [apply list_elem_of_here|].
    intros y Hy. apply list_elem_of_singleton in Hy as ->. apply Qle_refl.
Qed.

Lemma series_max_None (xs : list Q) : series_max xs = None -> xs = [].
Proof.
  destruct xs as [|x xs]; [reflexivity|]. simpl.
  destruct (series_max xs); discriminate.
Qed.

Lemma series_min_spec (xs : list Q) (m : Q) :
  series_min xs = Some m -> m ∈ xs /\ forall x, x ∈ xs -> m <= x.
Proof.
  revert m. induction xs as [|x xs IH]; intros m; simpl; [discriminate|].
  destruct (series_min xs) as [m'|] eqn:E.
  - intros [= <-]. destruct (IH m' eq_refl) as [Hin Hlb]. split.
    + destruct (Qmin_cases x m') as [Hmin|Hmin]; rewrite Hmin.
      * apply list_elem_of_here.
      * apply list_elem_of_further, Hin.
    + intros y Hy. apply elem_of_cons in Hy as [->|Hy].
      * apply Q.le_min_l.
      * eapply Qle_trans; [apply Q.le_min_r|apply Hlb, Hy].
  - intros [= <-]. destruct xs; [|simpl in E; destruct (series_min xs); discriminate].
    split; [apply list_elem_of_here|].
    intros y Hy. apply list_elem_of_singleton in Hy as ->. apply Qle_refl.
Qed.

Lemma series_min_None (xs : list Q) : series_min xs = None -> xs = [].
Proof.
  destruct xs as [|x xs]; [reflexivity|]. simpl.
  destruct (series_min xs); discriminate.
Qed.

(** Membership in an [iloc] window by position. *)
Lemma elem_of_iloc_slice (a b : nat) (rs : list Row) (r : Row) :
  r ∈ iloc_slice a b rs <-> exists i, (a <= i <= b)%nat /\ rs !! i = Some r.
Proof.
  unfold iloc_slice. rewrite list_elem_of_lookup. split.
  - intros [j Hj]. apply lookup_take_Some in Hj as [Hj Hlt].
    rewrite lookup_drop in Hj. exists (a + j)%nat. split; [lia|exact Hj].
  - intros [i [Hi Hr]]. exists (i - a)%nat.
    apply lookup_take_Some. split; [|lia].
    rewrite lookup_drop. replace (a + (i - a))%nat with i by lia. exact Hr.
Qed.

Lemma peak_is_window_peak (df : DataFrame) (a b : nat) (p : Q) :
  series_max (map high (iloc_slice a b (rows df))) = Some p -> window_peak df a b p.
Proof.
  intros H. apply series_max_spec in H as [Hin Hub]. split.
  - apply list_elem_of_fmap in Hin as [r [-> Hr]].
    apply elem_of_iloc_slice in Hr as [i [Hi Hr]]. eauto.
  - intros i r Hi Hr. apply Hub. apply list_elem_of_fmap. exists r. split; [reflexivity|].
    apply elem_of_iloc_slice. eauto.
Qed.

Lemma window_peak_unique (df : DataFrame) (a b : nat) (p q : Q) :
  window_peak df a b p -> window_peak df a b q -> p == q.
Proof.
  intros [(i & r & Hi & Hr & <-) Hp] [(j & s & Hj & Hs & <-) Hq].
  apply Qle_antisym; eauto.
Qed.

Lemma no_window_peak (df : DataFrame) (a b : nat) (p : Q) :
  series_max (map high (iloc_slice a b (rows df))) = None -> ~ window_peak df a b p.
Proof.
  intros H [(i & r & Hi & Hr & _) _].
  apply series_max_None, fmap_nil_inv in H.
  assert (Hin : r ∈ iloc_slice a b (rows df)) by (apply elem_of_iloc_slice; eauto).
  rewrite H in Hin. inversion Hin.
Qed.

Lemma lookup_rolling_mean (period : nat) (xs : list Q) (i : nat) :
  rolling_mean period xs !! i ≫= id =
    if (i <? length xs)%nat then rolling_mean_at period xs i else None.
Proof.
  unfold rolling_mean. rewrite list_lookup_fmap.
  destruct (Nat.ltb_spec i (length xs)) as [Hlt|Hge].
  - rewrite lookup_seq_lt by exact Hlt. reflexivity.
  - rewrite lookup_seq_ge by exact Hge. reflexivity.
Qed.

(** What [check_exit_signal] computes, read off its result. *)
Lemma check_exit_signal_inv df entry_index current_index entry_price
    trailing_stop_pct ma_period use_ma_exit triggered details :
  check_exit_signal df entry_index current_index entry_price trailing_stop_pct
                    ma_period use_ma_exit = Some (triggered, details) ->
  exists row,
    rows df !! current_index = Some row /\
    let stop :=
      match series_max (map high (iloc_slice entry_index current_index (rows df))) with
      | Some p => Qle_bool (close row) (p * (1 - trailing_stop_pct))
      | None => false
      end in
    let ma :=
      if use_ma_exit then
        match sma_value df ma_period current_index with
        | Some m => Qltb (close row) m
        | None => false
        end
      else false in
    se_exit_reason details = (if stop then trailing_stop else if ma then ma_exit else none) /\
    triggered = stop || (use_ma_exit && ma) /\
    se_close details = close row /\
    se_timestamp details = timestamp row /\
    se_holding_days details = (Z.of_nat current_index - Z.of_nat entry_index)%Z /\
    ~ entry_price == 0.
Proof.
  unfold check_exit_signal. intros H.
  set (df' := match find_column ma_period (sma_columns df) with
              | Some _ => df
              | None => calculate_sma df ma_period
              end) in H.
  assert (Hrows : rows df' = rows df).
  { unfold df'. destruct (find_column ma_period (sma_columns df)); reflexivity. }
  assert (Hsma : (find_column ma_period (sma_columns df') ≫= fun col =>
                  col !! current_index ≫= id)
                 = sma_value df ma_period current_index).
  { unfold df', sma_value.
    destruct (find_column ma_period (sma_columns df)) as [col|] eqn:Hcol.
    - rewrite Hcol. reflexivity.
    - simpl. rewrite Nat.eqb_refl. simpl.
      rewrite lookup_rolling_mean, length_map. reflexivity. }
  rewrite Hrows in H.
  destruct (rows df !! current_index) as [row|] eqn:Hrow; [|discriminate].
  simpl in H. exists row. split; [reflexivity|].
  unfold calculate_trailing_stop in H.
  destruct (fdiv (close row - entry_price) entry_price) as [ret|] eqn:Hret;
    [|destruct (series_max _); simpl in H; discriminate].
  apply fdiv_Some in Hret as [Hnz _].
  replace (find_column ma_period (sma_columns df') ≫= fun col =>
           col !! current_index ≫= λ v : option Q, v)
    with (sma_value df ma_period current_index) in H.
  destruct (series_max (map high (iloc_slice entry_index current_index (rows df))))
    as [p|]; simpl in H; injection H as <- <-; simpl; auto 10.
Qed.

(** C10.  In [check_exit_signal] the trailing stop has priority over the
    moving-average exit: the reported reason is [trailing_stop] exactly when
    the close is at or below [peak * (1 - trailing_stop_pct)], the peak being
    the highest high over the inclusive window [entry_index .. current_index];
    it is [ma_exit] exactly when the MA exit is enabled, the close is below
    the period's SMA and the stop condition does not hold.  So when both
    conditions hold at a step the reason is [trailing_stop]. *)
Theorem C10_exit_reason_priority df entry_index current_index entry_price
    trailing_stop_pct ma_period use_ma_exit triggered details :
  check_exit_signal df entry_index current_index entry_price trailing_stop_pct
                    ma_period use_ma_exit = Some (triggered, details) ->
  (se_exit_reason details = trailing_stop
     <-> stop_condition df entry_index current_index trailing_stop_pct) /\
  (se_exit_reason details = ma_exit
     <-> ma_condition df current_index ma_period use_ma_exit /\
         ~ stop_condition df entry_index current_index trailing_stop_pct) /\
  (stop_condition df entry_index current_index trailing_stop_pct ->
   ma_condition df current_index ma_period use_ma_exit ->
   se_exit_reason details = trailing_stop).
Proof.
  intros H. apply check_exit_signal_inv in H as (row & Hrow & Hreason & _).
  cbv zeta in Hreason.
  set (stop := match series_max _ with Some p => _ | None => false end) in Hreason.
  set (ma := if use_ma_exit then _ else false) in Hreason.
  assert (Hstop : stop = true
                  <-> stop_condition df entry_index current_index trailing_stop_pct).
  { unfold stop, stop_condition.
    destruct (series_max (map high (iloc_slice entry_index current_index (rows df))))
      as [p|] eqn:Hp.
    - apply peak_is_window_peak in Hp. rewrite Qle_bool_iff. split.
      + intros Hle. exists row, p. auto.
      + intros (row' & q & Hrow' & Hq & Hle).
        rewrite Hrow in Hrow'. injection Hrow' as <-.
        rewrite (window_peak_unique _ _ _ _ _ Hp Hq). exact Hle.
    - split; [discriminate|].
      intros (row' & q & _ & Hq & _). exfalso. eapply no_window_peak; eauto. }
  assert (Hma : ma = true <-> ma_condition df current_index ma_period use_ma_exit).
  { unfold ma, ma_condition. destruct use_ma_exit.
    - destruct (sma_value df ma_period current_index) as [m|].
      + rewrite Qltb_lt. split.
        * intros Hlt. split; [reflexivity|]. exists row, m. auto.
        * intros (_ & row' & m' & Hrow' & [= <-] & Hlt).
          rewrite Hrow in Hrow'. injection Hrow' as <-. exact Hlt.
      + split; [discriminate|]. intros (_ & ? & ? & _ & ? & _). discriminate.
    - split; [discriminate|]. intros [? _]. discriminate. }
  assert (Htrail : se_exit_reason details = trailing_stop <-> stop = true).
  { rewrite Hreason. destruct stop, ma; split; congruence. }
  split; [rewrite Htrail; exact Hstop|]. split.
  - rewrite <- Hstop, <- Hma, Hreason.
    destruct stop, ma; split; try congruence; intuition congruence.
  - intros Hs _. apply Htrail, Hstop, Hs.
Qed.

Lemma C10_exit_reason_priority_witness :
  exists details,
    check_exit_signal example_aaa 1 3 (1001 # 100) (20 # 100) 2 true
      = Some (true, details) /\
    se_exit_reason details = trailing_stop /\
    stop_condition example_aaa 1 3 (20 # 100) /\
    ma_condition example_aaa 3 2 true.
Proof.
  eexists. split; [vm_compute; reflexivity|].
  split; [reflexivity|]. split.
  - eapply (C10_exit_reason_priority example_aaa 1 3 (1001 # 100) (20 # 100) 2 true).
    + vm_compute. reflexivity.
    + reflexivity.
  - split; [reflexivity|].
    eexists _, _. split; [reflexivity|]. split; [vm_compute; reflexivity|].
    reflexivity.
Defined.

(** ** Dictionary lemmas *)

Section DictFacts.
Context {V : Type}.
Implicit Types (d : list (string * V)) (k : string) (v : V).

Lemma dict_get_None k d : dict_get k d = None <-> k ∉ d.*1.
Proof.
  induction d as [|[k' v'] d IH]; simpl.
  - split; [intros _; apply not_elem_of_nil|reflexivity].
  - destruct (decide (k' = k)) as [->|Hne].
    + split; [discriminate|]. intros H. exfalso. apply H, list_elem_of_here.
    + rewrite IH, not_elem_of_cons. split; [intros H; split; [congruence|exact H]|tauto].
Qed.

Lemma dict_get_elem k v d : dict_get k d = Some v -> (k, v) ∈ d.
Proof.
  induction d as [|[k' v'] d IH]; simpl; [discriminate|].
  destruct (decide (k' = k)) as [->|Hne].
  - intros [= ->]. apply list_elem_of_here.
  - intros H. apply list_elem_of_further, IH, H.
Qed.

Lemma dict_get_key k v d : dict_get k d = Some v -> k ∈ d.*1.
Proof.
  intros H. apply dict_get_elem in H.
  apply list_elem_of_fmap. exists (k, v). split; [reflexivity|exact H].
Qed.

Lemma dict_get_NoDup k v d : NoDup d.*1 -> (k, v) ∈ d -> dict_get k d = Some v.
Proof.
  induction d as [|[k' v'] d IH]; simpl; intros Hnd Hin.
  - inversion Hin.
  - apply NoDup_cons in Hnd as [Hk' Hnd].
    destruct (decide (k' = k)) as [->|Hne].
    + apply elem_of_cons in Hin as [[= ->]|Hin]; [reflexivity|].
      exfalso. apply Hk'. apply list_elem_of_fmap. exists (k, v). split; [reflexivity|exact Hin].
    + apply elem_of_cons in Hin as [[= -> ->]|Hin]; [congruence|]. apply IH; assumption.
Qed.

Lemma dict_mem_true k d : dict_mem k d = true <-> k ∈ d.*1.
Proof. unfold dict_mem. apply bool_decide_eq_true. Qed.

Lemma dict_mem_false k d : dict_mem k d = false <-> k ∉ d.*1.
Proof. unfold dict_mem. apply bool_decide_eq_false. Qed.

Lemma dict_get_set_eq k v d : dict_get k (dict_set k v d) = Some v.
Proof.
  induction d as [|[k' v'] d IH]; simpl.
  - rewrite decide_True by reflexivity. reflexivity.
  - destruct (decide (k' = k)) as [->|Hne]; simpl.
    + rewrite decide_True by reflexivity. reflexivity.
    + rewrite decide_False by exact Hne. exact IH.
Qed.

Lemma dict_set_fresh k v d : k ∉ d.*1 -> dict_set k v d = d ++ [(k, v)].
Proof.
  induction d as [|[k' v'] d IH]; simpl; intros H; [reflexivity|].
  apply not_elem_of_cons in H as [Hne Hk].
  rewrite decide_False by congruence. rewrite IH by exact Hk. reflexivity.
Qed.

Lemma dict_set_keys k v d : k ∈ d.*1 -> (dict_set k v d).*1 = d.*1.
Proof.
  induction d as [|[k' v'] d IH]; csimpl; intros H; [inversion H|].
  destruct (decide (k' = k)) as [->|Hne]; csimpl; [reflexivity|].
  apply elem_of_cons in H as [->|H]; [congruence|]. rewrite IH by exact H. reflexivity.
Qed.

Lemma dict_set_NoDup k v d : NoDup d.*1 -> NoDup (dict_set k v d).*1.
Proof.
  intros Hnd. destruct (decide (k ∈ d.*1)) as [Hin|Hout].
  - rewrite dict_set_keys by exact Hin. exact Hnd.
  - rewrite dict_set_fresh by exact Hout. rewrite fmap_app. simpl.
    apply NoDup_app. split; [exact Hnd|]. split.
    + intros x Hx Hx'. apply list_elem_of_singleton in Hx' as ->. contradiction.
    + apply NoDup_singleton.
Qed.

Lemma dict_del_subseteq k d : dict_del k d ⊆ d.
Proof.
  induction d as [|[k' v'] d IH]; simpl; [reflexivity|].
  destruct (decide (k' = k)).
  - intros x Hx. apply list_elem_of_further, Hx.
  - intros x Hx. apply elem_of_cons in Hx as [->|Hx].
    + apply list_elem_of_here.
    + apply list_elem_of_further, IH, Hx.
Qed.

Lemma dict_del_keys_sublist k d : sublist (dict_del k d).*1 d.*1.
Proof.
  induction d as [|[k' v'] d IH]; simpl; [constructor|].
  destruct (decide (k' = k)); simpl.
  - apply sublist_cons. reflexivity.
  - apply sublist_skip. exact IH.
Qed.

Lemma dict_del_NoDup k d : NoDup d.*1 -> NoDup (dict_del k d).*1.
Proof. intros H. eapply sublist_NoDup; [exact H|apply dict_del_keys_sublist]. Qed.

Lemma dict_del_not_elem k d : NoDup d.*1 -> k ∉ (dict_del k d).*1.
Proof.
  induction d as [|[k' v'] d IH]; simpl; intros Hnd.
  - apply not_elem_of_nil.
  - apply NoDup_cons in Hnd as [Hk' Hnd].
    destruct (decide (k' = k)) as [->|Hne]; simpl; [exact Hk'|].
    apply not_elem_of_cons. split; [congruence|apply IH, Hnd].
Qed.

Lemma dict_get_del_ne k k' d : k <> k' -> dict_get k' (dict_del k d) = dict_get k' d.
Proof.
  intros Hne. induction d as [|[k0 v0] d IH]; simpl; [reflexivity|].
  destruct (decide (k0 = k)) as [->|Hk]; simpl.
  - rewrite decide_False by exact Hne. reflexivity.
  - destruct (decide (k0 = k')); [reflexivity|exact IH].
Qed.

Lemma dict_del_elem_ne k k' v d : k <> k' -> (k', v) ∈ d -> (k', v) ∈ dict_del k d.
Proof.
  intros Hne. induction d as [|[k0 v0] d IH]; simpl; intros Hin; [inversion Hin|].
  apply elem_of_cons in Hin as [[= <- <-]|Hin].
  - rewrite decide_False by congruence. apply list_elem_of_here.
  - destruct (decide (k0 = k)); [exact Hin|]. apply list_elem_of_further, IH, Hin.
Qed.
End DictFacts.

(** ** Opening and closing, read off their results *)

Lemma calculate_position_size_inv (s : PositionSizer) (p : Q) (n : nat) (r : Sizing) :
  calculate_position_size s p n = Some r ->
  (can_open r = false /\ (max_positions s <= Z.of_nat n)%Z) \/
  (can_open r = true /\ (Z.of_nat n < max_positions s)%Z /\
   ~ p == 0 /\ num_contracts r = position_size_usd r / p).
Proof.
  unfold calculate_position_size.
  destruct (Z.ltb_spec (Z.of_nat n) (max_positions s)) as [Hlt|Hge]; simpl.
  - intros H. right.
    destruct (fdiv _ (stop_loss_pct s)) as [u|]; simpl in H; [|discriminate].
    destruct (fdiv u (account_size s)) as [q|]; simpl in H; [|discriminate].
    destruct (Qltb _ q); simpl in H;
      (destruct (fdiv _ p) as [c|] eqn:Hc; simpl in H; [|discriminate]);
      apply fdiv_Some in Hc as [Hp ->]; injection H as <-; simpl; auto.
  - intros [= <-]. left. simpl. auto.
Qed.

Lemma _open_position_inv (self : Backtester) symbol date price df self' :
  _open_position self symbol date price df = Some self' ->
  (self' = self /\
   (max_positions (sizer self) <= Z.of_nat (length (positions self)))%Z) \/
  (exists sizing idx,
      calculate_position_size (sizer self) (price * (1 + slippage_pct self))
                              (length (positions self)) = Some sizing /\
      can_open sizing = true /\
      index_of date (rows df) = Some idx /\
      self' =
        set_book self
          (capital self - position_size_usd sizing * size_multiplier self)
          (sizer self)
          (dict_set symbol
             (mkPosition symbol date idx (price * (1 + slippage_pct self))
                (position_size_usd sizing * size_multiplier self
                 - position_size_usd sizing * size_multiplier self * commission_pct self)
                (num_contracts sizing * size_multiplier self)
                (price * (1 + slippage_pct self)) date)
             (positions self))
          (trades self)).
Proof.
  unfold _open_position.
  destruct (calculate_position_size _ _ _) as [sizing|] eqn:Hsz; simpl; [|discriminate].
  destruct (can_open sizing) eqn:Hopen; simpl.
  - destruct (index_of date (rows df)) as [idx|] eqn:Hidx; simpl; [|discriminate].
    intros [= <-]. right. exists sizing, idx. auto.
  - intros [= <-]. left. split; [reflexivity|].
    apply calculate_position_size_inv in Hsz as [[_ H]|[H _]]; [exact H|congruence].
Qed.

Lemma _close_position_inv (self : Backtester) symbol exit_idx details df self' :
  _close_position self symbol exit_idx details df = Some self' ->
  exists position ret,
    dict_get symbol (positions self) = Some position /\
    ~ entry_price position == 0 /\
    let exit_price := ed_close details * (1 - slippage_pct self) in
    let value := p_num_contracts position * exit_price in
    let capital' := capital self + (value - value * commission_pct self) in
    self' =
      set_book self capital' (update_account_size (sizer self) capital')
        (dict_del symbol (positions self))
        (trades self ++
           [mkTrade symbol (entry_date position) (entry_price position)
              (ed_timestamp details) exit_price
              (p_position_size_usd position) (p_num_contracts position) ret
              (p_num_contracts position * (exit_price - entry_price position)
               - value * commission_pct self)
              (ed_holding_days details) (ed_exit_reason details)
              (peak_price position)
              (adverse_excursion df (entry_index position) exit_idx
                                 (entry_price position))]).
Proof.
  unfold _close_position.
  destruct (dict_get symbol (positions self)) as [position|]; simpl; [|discriminate].
  destruct (fdiv _ (entry_price position)) as [ret|] eqn:Hret; simpl; [|discriminate].
  intros [= <-]. apply fdiv_Some in Hret as [Hnz _].
  exists position, ret. auto.
Qed.

(** What the two operations do to the cash balance.  Opening a position
    (a slot being free) takes the gross size out of the cash balance and
    records the gross size less [commission_pct * gross] as the position's
    [position_size_usd]; the quantity is the sizer's, scaled by the size
    multiplier only.  Closing credits [quantity * exit price] less
    [commission_pct] of it, the exit price being the close less slippage. *)
Lemma _open_position_debit (self self' : Backtester) (symbol : string)
    date price df :
  _open_position self symbol date price df = Some self' ->
  (Z.of_nat (length (positions self)) < max_positions (sizer self))%Z ->
  exists sizing position,
    calculate_position_size (sizer self) (price * (1 + slippage_pct self))
                            (length (positions self)) = Some sizing /\
    dict_get symbol (positions self') = Some position /\
    let gross := position_size_usd sizing * size_multiplier self in
    p_num_contracts position == num_contracts sizing * size_multiplier self /\
    p_position_size_usd position == gross - commission_pct self * gross /\
    capital self - capital self' == gross.
Proof.
  intros Hopen Hslot.
  apply _open_position_inv in Hopen as [[_ Hfull]|(sizing & idx & Hsz & _ & _ & ->)];
    [lia|].
  eexists sizing, _. split; [exact Hsz|]. simpl.
  split; [apply dict_get_set_eq|]. simpl.
  split; [reflexivity|]. split; ring.
Qed.

Lemma _close_position_credit (self self' : Backtester) (symbol : string)
    exit_idx details df :
  _close_position self symbol exit_idx details df = Some self' ->
  exists position trade,
    dict_get symbol (positions self) = Some position /\
    trades self' = trades self ++ [trade] /\
    exit_price trade == ed_close details * (1 - slippage_pct self) /\
    let notional := p_num_contracts position * exit_price trade in
    let commission := commission_pct self * notional in
    capital self' - capital self == notional - commission /\
    return_usd trade ==
      p_num_contracts position * (exit_price trade - entry_price position)
      - commission.
Proof.
  intros Hclose.
  apply _close_position_inv in Hclose as (position & ret & Hget & _ & ->).
  eexists position, _. split; [exact Hget|]. simpl.
  split; [reflexivity|]. split; [reflexivity|]. split; simpl; ring.
Qed.

(** C2 (the code at a failing input).  One symbol quoted at 10 on every bar,
    no slippage, 0.1% commission.  The engine buys 100 units at 10, a
    notional of 1000 on which the entry commission is 1, and takes exactly
    1000 out of the cash balance: the commission is subtracted from the
    recorded [position_size_usd] (999) and from nothing else, the quantity
    held is still the full 100 units and the equity stays at 10000.  Closing
    at 10 credits 1000 less the exit commission of 1.  The whole round
    trip costs the cash balance one commission, the exit's; the trade's
    [return_usd] is -1 as well. *)
Theorem C2_entry_commission_not_charged :
  let self := example_flat_backtester in
  _open_position self "AAA" (example_day 1) 10 example_flat = Some example_flat_opened /\
  run example_entry_signal self ["AAA"%string] example_flat_data 2 true
    = Some example_flat_final /\
  exists position trade,
    positions example_flat_opened = [("AAA"%string, position)] /\
    trades example_flat_final = [trade] /\
    entry_price position == 10 /\
    p_num_contracts position == 100 /\
    commission_pct self * (p_num_contracts position * entry_price position) == 1 /\
    p_position_size_usd position == 999 /\
    capital self - capital example_flat_opened == 1000 /\
    capital example_flat_opened
      + p_num_contracts position * entry_price position == capital self /\
    t_num_contracts trade == 100 /\
    t_entry_price trade == 10 /\
    exit_price trade == 10 /\
    exit_reason trade = end_of_backtest /\
    commission_pct self * (t_num_contracts trade * exit_price trade) == 1 /\
    return_usd trade == - (1) /\
    capital example_flat_final == capital self - 1.
Proof.
  split; [vm_compute; reflexivity|].
  split; [vm_compute; reflexivity|].
  eexists _, _.
  split; [reflexivity|].
  split; [reflexivity|].
  repeat (split; [vm_compute; reflexivity|]).
  vm_compute; reflexivity.
Qed.

(** ** Risk limits *)

Lemma zero_loss (c : Q) : ~ c == 0 -> (c - c) / c == 0.
Proof. intros H. field. exact H. Qed.

Lemma daily_rollover (self : Backtester) (date : datetime) :
  current_date self <> Some date ->
  ~ capital self == 0 ->
  0 < daily_loss_limit_pct self ->
  _check_daily_loss_limit self date
    = Some (set_daily self (Some date) (capital self) false, false).
Proof.
  intros Hnew Hcap Hlim. unfold _check_daily_loss_limit.
  rewrite bool_decide_eq_true_2 by exact Hnew. simpl.
  rewrite (fdiv_nonzero _ _ Hcap). simpl.
  replace (Qle_bool _ _) with false; [reflexivity|].
  symmetry. apply Qle_bool_false.
  rewrite (zero_loss _ Hcap). lra.
Qed.

Lemma daily_halt_sticky (self : Backtester) (date : datetime) :
  current_date self = Some date ->
  daily_trading_stopped self = true ->
  _check_daily_loss_limit self date = Some (self, true).
Proof.
  intros Hsame Hstop. unfold _check_daily_loss_limit.
  rewrite bool_decide_eq_false_2 by (intros Hne; apply Hne, Hsame).
  rewrite Hstop. reflexivity.
Qed.

Lemma daily_breach (self : Backtester) (date : datetime) (loss : Q) :
  current_date self = Some date ->
  daily_trading_stopped self = false ->
  fdiv (capital self - daily_start_capital self) (daily_start_capital self) = Some loss ->
  loss <= - daily_loss_limit_pct self ->
  _check_daily_loss_limit self date
    = Some (set_daily self (Some date) (daily_start_capital self) true, true).
Proof.
  intros Hsame Hrun Hloss Hle. unfold _check_daily_loss_limit.
  rewrite bool_decide_eq_false_2 by (intros Hne; apply Hne, Hsame).
  rewrite Hrun, Hloss. simpl.
  apply Qle_bool_iff in Hle. rewrite Hle, Hsame. reflexivity.
Qed.

(** A halted day opens nothing: [_check_entries] returns at the gate. *)
Lemma halted_check_entries (self : Backtester) (date : datetime) signals data :
  current_date self = Some date ->
  daily_trading_stopped self = true ->
  _check_entries self date signals data = Some self.
Proof.
  intros Hsame Hstop. unfold _check_entries.
  rewrite (daily_halt_sticky _ _ Hsame Hstop). reflexivity.
Qed.

Lemma weekly_rollover (self : Backtester) (date : datetime) :
  current_week self <> Some (isocalendar_week date) ->
  ~ capital self == 0 ->
  0 < weekly_loss_limit_pct self ->
  _check_weekly_loss_limit self date
    = Some (set_weekly self (Some (isocalendar_week date)) (capital self) 1).
Proof.
  intros Hnew Hcap Hlim. unfold _check_weekly_loss_limit.
  rewrite bool_decide_eq_true_2 by exact Hnew. simpl.
  rewrite (fdiv_nonzero _ _ Hcap). simpl.
  replace (Qle_bool _ _) with false; [reflexivity|].
  symmetry. apply Qle_bool_false. rewrite (zero_loss _ Hcap). lra.
Qed.

(** Opening positions leaves the risk-limit bookkeeping alone. *)
Lemma open_each_risk (self : Backtester) data opps self' :
  open_each self data opps = Some self' -> same_risk self self'.
Proof.
  revert self. induction opps as [|o opps IH]; intros self; simpl.
  - intros [= <-]. repeat split.
  - destruct (data !! o_symbol o) as [df|]; simpl; [|discriminate].
    destruct (_open_position self _ _ _ df) as [self1|] eqn:Ho; simpl; [|discriminate].
    intros Hrest. apply IH in Hrest.
    apply _open_position_inv in Ho as [[-> _]|(sizing & idx & _ & _ & _ & ->)];
      [exact Hrest|].
    destruct Hrest as (?&?&?&?&?&?). repeat split; assumption.
Qed.

(** C6.  The weekly size reduction.  Within the stored ISO week a
    multiplier of 0.5 stays at 0.5 whatever the capital does (a further
    breach does not reduce it again), and a first breach at multiplier 1.0
    sets it to 0.5.  At a step whose ISO week number differs from the stored
    one, the multiplier is back at 1.0 and [weekly_start_capital] is the
    current capital, for every non-zero capital level (with a positive
    limit, the fresh zero loss is no breach); this holds of
    [_check_weekly_loss_limit] and of the whole entry phase [_check_entries]
    of such a step.  The multiplier only ever takes the values it had, 1.0 or
    0.5. *)
Theorem C6_weekly_multiplier (self : Backtester) (date : datetime) :
  (current_week self = Some (isocalendar_week date) ->
   size_multiplier self == 1 # 2 ->
   ~ weekly_start_capital self == 0 ->
   _check_weekly_loss_limit self date = Some self) /\
  (current_week self = Some (isocalendar_week date) ->
   size_multiplier self == 1 ->
   ~ weekly_start_capital self == 0 ->
   (capital self - weekly_start_capital self) / weekly_start_capital self
     <= - weekly_loss_limit_pct self ->
   exists self',
     _check_weekly_loss_limit self date = Some self' /\
     size_multiplier self' = 1 # 2 /\
     weekly_start_capital self' = weekly_start_capital self) /\
  (current_week self <> Some (isocalendar_week date) ->
   ~ capital self == 0 ->
   0 < weekly_loss_limit_pct self ->
   exists self',
     _check_weekly_loss_limit self date = Some self' /\
     size_multiplier self' = 1 /\
     weekly_start_capital self' = capital self /\
     current_week self' = Some (isocalendar_week date)) /\
  (forall self',
     _check_weekly_loss_limit self date = Some self' ->
     size_multiplier self' = size_multiplier self \/
     size_multiplier self' = 1 \/ size_multiplier self' = 1 # 2) /\
  (forall signals data self',
     current_week self <> Some (isocalendar_week date) ->
     current_date self <> Some date ->
     ~ capital self == 0 ->
     0 < daily_loss_limit_pct self ->
     0 < weekly_loss_limit_pct self ->
     _check_entries self date signals data = Some self' ->
     size_multiplier self' = 1 /\
     weekly_start_capital self' = capital self /\
     current_week self' = Some (isocalendar_week date)).
Proof.
  split; [|split; [|split; [|split]]].
  - intros Hweek Hhalf Hstart. unfold _check_weekly_loss_limit.
    rewrite bool_decide_eq_false_2 by (intros Hne; apply Hne, Hweek).
    rewrite (fdiv_nonzero _ _ Hstart). simpl.
    replace (Qeq_bool (size_multiplier self) 1) with false;
      [rewrite andb_false_r; reflexivity|].
    symmetry. apply Qeq_bool_false. rewrite Hhalf. discriminate.
  - intros Hweek Hone Hstart Hbreach. unfold _check_weekly_loss_limit.
    rewrite bool_decide_eq_false_2 by (intros Hne; apply Hne, Hweek).
    rewrite (fdiv_nonzero _ _ Hstart). simpl.
    apply Qle_bool_iff in Hbreach. apply Qeq_bool_iff in Hone.
    rewrite Hbreach, Hone. simpl. eexists. split; [reflexivity|]. split; reflexivity.
  - intros Hnew Hcap Hlim. rewrite (weekly_rollover _ _ Hnew Hcap Hlim).
    eexists. split; [reflexivity|]. repeat split.
  - intros self'. unfold _check_weekly_loss_limit.
    destruct (bool_decide (current_week self <> Some (isocalendar_week date))); simpl;
      (destruct (fdiv _ _); simpl; [|discriminate]);
      (destruct (Qle_bool _ _ && Qeq_bool _ 1); intros [= <-]; simpl; auto).
  - intros signals data self' Hweek Hday Hcap Hdl Hwl. unfold _check_entries.
    rewrite (daily_rollover _ _ Hday Hcap Hdl). simpl.
    rewrite weekly_rollover by assumption. simpl.
    destruct (_ <=? _)%Z; [intros [= <-]; repeat split|].
    intros Hopen. apply open_each_risk in Hopen as (_ & Hw & _ & Hcw & Hm & _).
    simpl in *. repeat split; congruence.
Qed.

Lemma C6_weekly_multiplier_witness :
  simulate 2 true example_signals example_data example_backtester
           [example_day 0; example_day 1; example_day 2] = Some example_halved /\
  size_multiplier example_halved = 1 # 2 /\
  _check_weekly_loss_limit example_halved (example_day 3) = Some example_halved /\
  exists reset,
    _check_weekly_loss_limit example_halved (example_day 7) = Some reset /\
    size_multiplier reset = 1 /\
    weekly_start_capital reset = capital example_halved.
Proof.
  split; [vm_compute; reflexivity|].
  split; [reflexivity|]. split.
  - apply (C6_weekly_multiplier example_halved (example_day 3)).
    + reflexivity.
    + reflexivity.
    + vm_compute. discriminate.
  - destruct (C6_weekly_multiplier example_halved (example_day 7))
      as (_ & _ & Hreset & _).
    destruct Hreset as (reset & Hrun & Hmult & Hstart & _).
    + vm_compute. discriminate.
    + vm_compute. discriminate.
    + reflexivity.
    + exists reset. split; [exact Hrun|]. split; [exact Hmult|exact Hstart].
Defined.

(** ** The daily halt across bars of one calendar day *)

(** C5 (the code at a failing input).  On the 00:00 bar the engine opens
    AAA, so that at the 04:00 bar of the same calendar day the capital
    stands 10% below the day's starting reference, well past the 3% limit.
    [_check_daily_loss_limit] compares whole timestamps: the 04:00 bar counts
    as a new day, the reference is reset, and BBB is opened.  The realistic
    engine's [_check_entries_filtered] never consults the limit and opens BBB
    as well. *)
Theorem C5_daily_halt_lost_within_day :
  let t0 := example_bar 0 in
  let t1 := example_bar 1 in
  date_of t1 = date_of t0 /\
  exists s0 s1 r0 r1,
    step 2 true example_intraday_signals example_intraday_data
         example_backtester t0 = Some s0 /\
    current_date s0 = Some t0 /\
    daily_start_capital s0 == 10000 /\
    (capital s0 - daily_start_capital s0) / daily_start_capital s0
      <= - daily_loss_limit_pct s0 /\
    dict_mem "BBB" (positions s0) = false /\
    step 2 true example_intraday_signals example_intraday_data s0 t1 = Some s1 /\
    dict_mem "BBB" (positions s1) = true /\
    daily_start_capital s1 == capital s0 /\
    realistic_step 2 true example_intraday_signals example_intraday_data
                   ["AAA"; "BBB"]%string example_backtester t0 = Some r0 /\
    (capital r0 - daily_start_capital r0) / daily_start_capital r0
      <= - daily_loss_limit_pct r0 /\
    dict_mem "BBB" (positions r0) = false /\
    realistic_step 2 true example_intraday_signals example_intraday_data
                   ["AAA"; "BBB"]%string r0 t1 = Some r1 /\
    dict_mem "BBB" (positions r1) = true.
Proof.
  split; [reflexivity|].
  eexists _, _, _, _.
  split; [vm_compute; reflexivity|].
  split; [reflexivity|].
  split; [reflexivity|].
  split; [vm_compute; discriminate|].
  split; [reflexivity|].
  split; [vm_compute; reflexivity|].
  split; [reflexivity|].
  split; [reflexivity|].
  split; [vm_compute; reflexivity|].
  split; [vm_compute; discriminate|].
  split; [reflexivity|].
  split; [vm_compute; reflexivity|].
  reflexivity.
Qed.

(** ** Entry ranking *)

Lemma insert_by_strength_perm (x : Opportunity) (l : list Opportunity) :
  insert_by_strength x l ≡ₚ x :: l.
Proof.
  induction l as [|y l IH]; simpl; [reflexivity|].
  destruct (Qltb (o_strength x) (o_strength y)); [|reflexivity].
  rewrite IH. apply Permutation_swap.
Qed.

Lemma sort_by_strength_perm (l : list Opportunity) : sort_by_strength l ≡ₚ l.
Proof.
  induction l as [|x l IH]; simpl; [reflexivity|].
  rewrite insert_by_strength_perm, IH. reflexivity.
Qed.

Lemma insert_by_strength_sorted (x : Opportunity) (l : list Opportunity) :
  StronglySorted stronger l -> StronglySorted stronger (insert_by_strength x l).
Proof.
  induction l as [|y l IH]; simpl; intros Hs.
  - repeat constructor.
  - apply StronglySorted_cons in Hs as [Hy Hs].
    destruct (Qltb (o_strength x) (o_strength y)) eqn:Hxy.
    + apply StronglySorted_cons. split; [|apply IH, Hs].
      rewrite insert_by_strength_perm. constructor; [|exact Hy].
      apply Qltb_lt in Hxy. unfold stronger. apply Qlt_le_weak, Hxy.
    + apply Qltb_ge in Hxy.
      apply StronglySorted_cons. split.
      * constructor; [exact Hxy|].
        eapply Forall_impl; [exact Hy|]. intros z Hz. unfold stronger in *.
        eapply Qle_trans; eassumption.
      * apply StronglySorted_cons. auto.
Qed.

Lemma sort_by_strength_sorted (l : list Opportunity) :
  StronglySorted stronger (sort_by_strength l).
Proof.
  induction l as [|x l IH]; simpl; [constructor|].
  apply insert_by_strength_sorted, IH.
Qed.

(** Stability: the sort keeps candidates of equal strength in their
    original order. *)
Lemma insert_by_strength_stable (s : Q) (x : Opportunity) (l : list Opportunity) :
  with_strength s (insert_by_strength x l) = with_strength s (x :: l).
Proof.
  unfold with_strength. induction l as [|y l IH]; simpl; [reflexivity|].
  destruct (Qltb (o_strength x) (o_strength y)) eqn:Hxy; [|reflexivity].
  rewrite filter_cons, IH, !filter_cons.
  destruct (decide (Qeq_bool (o_strength x) s = true)) as [Hx|Hx];
    destruct (decide (Qeq_bool (o_strength y) s = true)) as [Hy|Hy]; try reflexivity.
  exfalso. apply Qltb_lt in Hxy. apply Qeq_bool_iff in Hx, Hy.
  rewrite Hx, Hy in Hxy. apply (Qlt_irrefl _ Hxy).
Qed.

Lemma sort_by_strength_stable (s : Q) (l : list Opportunity) :
  with_strength s (sort_by_strength l) = with_strength s l.
Proof.
  induction l as [|x l IH]; simpl; [reflexivity|].
  rewrite insert_by_strength_stable. unfold with_strength in *.
  rewrite !filter_cons, IH. reflexivity.
Qed.

(** The ranked entries are the top of the candidates. *)
Lemma ranked_entries_top (self : Backtester) (opps : list Opportunity) :
  exists rest,
    ranked_entries self opps ++ rest ≡ₚ opps /\
    length (ranked_entries self opps) = Nat.min (free_slots self) (length opps) /\
    StronglySorted stronger (ranked_entries self opps) /\
    (forall x y, x ∈ ranked_entries self opps -> y ∈ rest -> stronger x y) /\
    (forall s, with_strength s (ranked_entries self opps ++ rest) = with_strength s opps).
Proof.
  unfold ranked_entries. fold (free_slots self).
  exists (drop (free_slots self) (sort_by_strength opps)).
  rewrite take_drop. split; [apply sort_by_strength_perm|].
  split; [rewrite length_take, (Permutation_length (sort_by_strength_perm opps)); lia|].
  pose proof (sort_by_strength_sorted opps) as Hs.
  rewrite <- (take_drop (free_slots self)) in Hs.
  split; [eapply StronglySorted_app_1_l, Hs|].
  split; [intros x y; eapply StronglySorted_app_1_elem_of, Hs|].
  intros s. apply sort_by_strength_stable.
Qed.

(** Candidates come from distinct, unheld symbols. *)
Lemma opportunity_of_symbol eligible date entry o :
  opportunity_of eligible date entry = Some o ->
  o_symbol o = entry.1 /\ eligible entry.1 = true /\ o_date o = date /\
  exists row, signal_at date entry.2 = Some row /\
              o_price o = s_close row /\ o_strength o = signal_strength row.
Proof.
  destruct entry as [symbol sdf]. simpl.
  destruct (eligible symbol); [|discriminate].
  destruct (signal_at date sdf) as [row|]; simpl; [|discriminate].
  intros [= <-]. simpl. eauto 10.
Qed.

Lemma omap_opportunity_symbols eligible date (signals : list (string * list SignalRow)) :
  sublist (map o_symbol (omap (opportunity_of eligible date) signals)) signals.*1.
Proof.
  induction signals as [|entry signals IH]; csimpl; [constructor|].
  destruct (opportunity_of eligible date entry) as [o|] eqn:Ho; csimpl.
  - apply opportunity_of_symbol in Ho as [-> _]. apply sublist_skip, IH.
  - apply sublist_cons, IH.
Qed.

Lemma omap_opportunity_eligible eligible date (signals : list (string * list SignalRow)) o :
  o ∈ omap (opportunity_of eligible date) signals -> eligible (o_symbol o) = true.
Proof.
  intros H. apply list_elem_of_omap in H as (entry & _ & Ho).
  apply opportunity_of_symbol in Ho as (-> & He & _). exact He.
Qed.

(** What a run of [_open_position] calls opens. *)
Lemma open_each_keys (self : Backtester) data (opps : list Opportunity) self' :
  open_each self data opps = Some self' ->
  NoDup (map o_symbol opps) ->
  (forall o, o ∈ opps -> o_symbol o ∉ (positions self).*1) ->
  (Z.of_nat (length (positions self) + length opps) <= max_positions (sizer self))%Z ->
  (positions self').*1 = (positions self).*1 ++ map o_symbol opps /\
  trades self' = trades self.
Proof.
  revert self. induction opps as [|o opps IH]; intros self; simpl.
  - intros [= <-] _ _ _. rewrite app_nil_r. auto.
  - destruct (data !! o_symbol o) as [df|]; simpl; [|discriminate].
    destruct (_open_position self (o_symbol o) (o_date o) (o_price o) df)
      as [self1|] eqn:Hopen; simpl; [|discriminate].
    intros Hrest Hnd Hfresh Hroom.
    apply NoDup_cons in Hnd as [Ho Hnd].
    apply _open_position_inv in Hopen as [[_ Hfull]|(sizing & idx & _ & _ & _ & ->)];
      [lia|].
    apply IH in Hrest; simpl.
    + destruct Hrest as [Hkeys Htrades]. simpl in Hkeys, Htrades.
      rewrite Hkeys, Htrades. split; [|reflexivity].
      rewrite dict_set_fresh by (apply Hfresh, list_elem_of_here).
      rewrite fmap_app, <- app_assoc. reflexivity.
    + exact Hnd.
    + intros o' Ho'. rewrite dict_set_fresh by (apply Hfresh, list_elem_of_here).
      rewrite fmap_app. simpl. rewrite elem_of_app, list_elem_of_singleton.
      intros [Hin|Heq].
      * apply (Hfresh o'); [apply list_elem_of_further, Ho'|exact Hin].
      * apply Ho. rewrite <- Heq. apply list_elem_of_fmap. eauto.
    + rewrite dict_set_fresh by (apply Hfresh, list_elem_of_here).
      rewrite length_app. simpl. lia.
Qed.

Lemma same_book_refl (a : Backtester) : same_book a a.
Proof. repeat split. Qed.

Lemma same_book_trans (a b c : Backtester) : same_book a b -> same_book b c -> same_book a c.
Proof. unfold same_book. intuition congruence. Qed.

Lemma daily_same_book (self : Backtester) date self' stop :
  _check_daily_loss_limit self date = Some (self', stop) -> same_book self self'.
Proof.
  unfold _check_daily_loss_limit.
  set (s0 := if bool_decide _ then _ else self).
  assert (Hb : same_book self s0)
    by (unfold s0; destruct (bool_decide _); repeat split).
  clearbody s0.
  destruct (daily_trading_stopped s0); [intros H; inversion H; subst; exact Hb|].
  destruct (fdiv _ _); simpl; [|discriminate].
  destruct (Qle_bool _ _); intros H; inversion H; subst; [|exact Hb].
  destruct Hb as (?&?&?&?&?&?&?&?&?). repeat split; assumption.
Qed.

Lemma weekly_same_book (self : Backtester) date self' :
  _check_weekly_loss_limit self date = Some self' -> same_book self self'.
Proof.
  unfold _check_weekly_loss_limit.
  set (s0 := if bool_decide _ then _ else self).
  assert (Hb : same_book self s0)
    by (unfold s0; destruct (bool_decide _); repeat split).
  clearbody s0.
  destruct (fdiv _ _); simpl; [|discriminate].
  destruct (Qle_bool _ _ && Qeq_bool _ 1); intros H; inversion H; subst; [|exact Hb].
  destruct Hb as (?&?&?&?&?&?&?&?&?). repeat split; assumption.
Qed.

Lemma open_ranked (self : Backtester) data (candidates : list Opportunity) self' :
  NoDup (map o_symbol candidates) ->
  (forall o, o ∈ candidates -> o_symbol o ∉ (positions self).*1) ->
  max_positions (sizer self) = bt_max_positions self ->
  (Z.of_nat (length (positions self)) <= bt_max_positions self)%Z ->
  open_each self data (ranked_entries self candidates) = Some self' ->
  exists ranked rest,
    ranked ++ rest ≡ₚ candidates /\
    length ranked = Nat.min (free_slots self) (length candidates) /\
    StronglySorted stronger ranked /\
    (forall x y, x ∈ ranked -> y ∈ rest -> stronger x y) /\
    (forall s, with_strength s (ranked ++ rest) = with_strength s candidates) /\
    (positions self').*1 = (positions self).*1 ++ map o_symbol ranked /\
    trades self' = trades self.
Proof.
  intros Hnd Hfresh Hmax Hroom Hopen.
  destruct (ranked_entries_top self candidates) as (rest & Hperm & Hlen & Hsorted & Htop & Hst).
  exists (ranked_entries self candidates), rest.
  repeat (split; [assumption|]).
  apply (open_each_keys _ _ _ _ Hopen).
  - assert (Hnd' : NoDup (map o_symbol (ranked_entries self candidates ++ rest))).
    { rewrite Hperm. exact Hnd. }
    rewrite map_app in Hnd'. apply NoDup_app in Hnd' as [Hnd' _]. exact Hnd'.
  - intros o Ho. apply Hfresh. rewrite <- Hperm. apply elem_of_app. auto.
  - rewrite Hmax, Nat2Z.inj_add, Hlen. unfold free_slots. lia.
Qed.

Lemma candidates_fresh (self : Backtester) eligible date signals :
  NoDup signals.*1 ->
  (forall symbol, eligible symbol = true -> symbol ∉ (positions self).*1) ->
  NoDup (map o_symbol (omap (opportunity_of eligible date) signals)) /\
  forall o, o ∈ omap (opportunity_of eligible date) signals ->
            o_symbol o ∉ (positions self).*1.
Proof.
  intros Hnd Hel. split.
  - eapply sublist_NoDup; [exact Hnd|apply omap_opportunity_symbols].
  - intros o Ho. eapply Hel, omap_opportunity_eligible, Ho.
Qed.

(** The eligible candidates of a bar, spelled out: a symbol of [signals] in
    the universe, not held, whose signal frame has an entry signal stamped
    with the bar's date; priced at that row's close and scored by its
    strength. *)
Lemma entry_opportunities_filtered_spec (self : Backtester) date signals universe o :
  o ∈ entry_opportunities_filtered self date signals universe <->
  exists signal_df row,
    (o_symbol o, signal_df) ∈ signals /\
    o_symbol o ∈ universe /\
    (o_symbol o ∉ (positions self).*1) /\
    signal_at date signal_df = Some row /\
    o = mkOpportunity (o_symbol o) date (s_close row) (signal_strength row).
Proof.
  unfold entry_opportunities_filtered. rewrite list_elem_of_omap. split.
  - intros ([symbol sdf] & Hin & Ho). simpl in Ho.
    destruct (bool_decide (symbol ∈ universe)) eqn:Hu; simpl in Ho; [|discriminate].
    destruct (dict_mem symbol (positions self)) eqn:Hm; simpl in Ho; [discriminate|].
    destruct (signal_at date sdf) as [row|] eqn:Hat; simpl in Ho; [|discriminate].
    injection Ho as <-. simpl. exists sdf, row.
    apply bool_decide_eq_true in Hu. apply dict_mem_false in Hm. auto.
  - intros (sdf & row & Hin & Hu & Hm & Hat & Ho).
    exists (o_symbol o, sdf). split; [exact Hin|]. simpl.
    rewrite bool_decide_eq_true_2 by exact Hu.
    apply dict_mem_false in Hm. rewrite Hm. simpl. rewrite Hat. simpl.
    symmetry in Ho. rewrite Ho. reflexivity.
Qed.

(** C7.  Entry selection.  When entries are permitted and a slot is free,
    both [_check_entries_filtered] and [_check_entries] split the eligible
    candidates (symbols of [signals], in the universe for the filtered
    variant, without an open position and with an entry signal on this bar)
    into the entries and the rest: the entries are as many as there are free
    slots (or all candidates, if fewer), they are in descending order of
    strength, no remaining candidate is stronger than an entry, candidates of
    equal strength keep their original order, and the positions opened are
    exactly the entries, in that order.  With strengths 0.9, 0.95 and 0.4
    and one slot, the symbol of strength 0.95 alone is opened. *)
Theorem C7_entry_ranking :
  (forall self date signals data universe self',
      NoDup signals.*1 ->
      max_positions (sizer self) = bt_max_positions self ->
      (Z.of_nat (length (positions self)) < bt_max_positions self)%Z ->
      _check_entries_filtered self date signals data universe = Some self' ->
      let candidates := entry_opportunities_filtered self date signals universe in
      exists ranked rest,
        ranked ++ rest ≡ₚ candidates /\
        length ranked = Nat.min (free_slots self) (length candidates) /\
        StronglySorted stronger ranked /\
        (forall x y, x ∈ ranked -> y ∈ rest -> stronger x y) /\
        (forall s, with_strength s (ranked ++ rest) = with_strength s candidates) /\
        (positions self').*1 = (positions self).*1 ++ map o_symbol ranked) /\
  (forall self date signals data gate self',
      NoDup signals.*1 ->
      max_positions (sizer self) = bt_max_positions self ->
      (Z.of_nat (length (positions self)) < bt_max_positions self)%Z ->
      _check_daily_loss_limit self date = Some (gate, false) ->
      _check_entries self date signals data = Some self' ->
      let candidates := entry_opportunities self date signals in
      exists ranked rest,
        ranked ++ rest ≡ₚ candidates /\
        length ranked = Nat.min (free_slots self) (length candidates) /\
        StronglySorted stronger ranked /\
        (forall x y, x ∈ ranked -> y ∈ rest -> stronger x y) /\
        (forall s, with_strength s (ranked ++ rest) = with_strength s candidates) /\
        (positions self').*1 = (positions self).*1 ++ map o_symbol ranked) /\
  (exists s,
      _check_entries_filtered example_single_slot (example_day 1) example_three_signals
        example_three_data ["S90"; "S95"; "S40"]%string = Some s /\
      (positions s).*1 = ["S95"%string]) /\
  (exists s,
      _check_entries example_single_slot (example_day 1) example_three_signals
        example_three_data = Some s /\
      (positions s).*1 = ["S95"%string]).
Proof.
  split; [|split; [|split]].
  - intros self date signals data universe self' Hnd Hmax Hslot. unfold _check_entries_filtered.
    rewrite (proj2 (Z.leb_gt _ _)) by exact Hslot.
    intros Hopen. cbv zeta.
    destruct (candidates_fresh self
                (fun symbol => bool_decide (symbol ∈ universe)
                               && negb (dict_mem symbol (positions self)))
                date signals Hnd) as [Hnd' Hfresh].
    { intros symbol Hs. apply andb_true_iff in Hs as [_ Hs].
      apply negb_true_iff, dict_mem_false in Hs. exact Hs. }
    destruct (open_ranked _ _ _ _ Hnd' Hfresh Hmax (Z.lt_le_incl _ _ Hslot) Hopen)
      as (ranked & rest & H1 & H2 & H3 & H4 & H5 & H6 & _).
    exists ranked, rest. auto 10.
  - intros self date signals data gate self' Hnd Hmax Hslot Hgate. unfold _check_entries.
    rewrite Hgate. simpl.
    destruct (_check_weekly_loss_limit gate date) as [gate'|] eqn:Hweek; simpl; [|discriminate].
    assert (Hbook : same_book self gate').
    { eapply same_book_trans; [eapply daily_same_book, Hgate|eapply weekly_same_book, Hweek]. }
    destruct Hbook as (_ & _ & Hpos & _ & Hsizer & Hbmax & _).
    rewrite <- Hbmax, <- Hpos.
    rewrite (proj2 (Z.leb_gt _ _)) by exact Hslot.
    unfold entry_opportunities. rewrite <- Hpos.
    intros Hopen. cbv zeta.
    destruct (candidates_fresh gate'
                (fun symbol => negb (dict_mem symbol (positions self)))
                date signals Hnd) as [Hnd' Hfresh].
    { intros symbol Hs. rewrite <- Hpos.
      apply negb_true_iff, dict_mem_false in Hs. exact Hs. }
    assert (Hmax' : max_positions (sizer gate') = bt_max_positions gate') by congruence.
    assert (Hroom : (Z.of_nat (length (positions gate')) <= bt_max_positions gate')%Z)
      by (rewrite <- Hpos, <- Hbmax; lia).
    destruct (open_ranked _ _ _ _ Hnd' Hfresh Hmax' Hroom Hopen)
      as (ranked & rest & H1 & H2 & H3 & H4 & H5 & H6 & _).
    exists ranked, rest. unfold free_slots in *. rewrite <- Hpos, <- Hbmax in *.
    auto 10.
  - eexists. split; [vm_compute; reflexivity|]. reflexivity.
  - eexists. split; [vm_compute; reflexivity|]. reflexivity.
Qed.

(** ** Capital conservation *)

Lemma Qsum_app (xs ys : list Q) : Qsum (xs ++ ys) == Qsum xs + Qsum ys.
Proof.
  induction xs as [|x xs IH]; simpl; [ring|]. rewrite IH. ring.
Qed.

Lemma open_notional_snoc ps k p :
  open_notional (ps ++ [(k, p)]) == open_notional ps + p_num_contracts p * entry_price p.
Proof.
  unfold open_notional. rewrite map_app, Qsum_app. simpl. ring.
Qed.

Lemma realized_snoc ts t : realized (ts ++ [t]) == realized ts + return_usd t.
Proof.
  unfold realized. rewrite map_app, Qsum_app. simpl. ring.
Qed.

Lemma open_notional_del ps k p :
  dict_get k ps = Some p ->
  open_notional ps == p_num_contracts p * entry_price p + open_notional (dict_del k ps).
Proof.
  unfold open_notional. induction ps as [|[k' p'] ps IH]; simpl; [discriminate|].
  destruct (decide (k' = k)) as [->|Hne].
  - intros [= ->]. reflexivity.
  - intros H. simpl. rewrite (IH H). ring.
Qed.

Lemma _open_position_conserved (self : Backtester) symbol date price df self' :
  _open_position self symbol date price df = Some self' ->
  symbol ∉ (positions self).*1 ->
  conserved self -> conserved self'.
Proof.
  intros Hopen Hfresh Hc.
  apply _open_position_inv in Hopen as [[-> _]|(sizing & idx & Hsz & Hcan & _ & ->)];
    [exact Hc|].
  apply calculate_position_size_inv in Hsz as [[Hno _]|(_ & _ & Hp & Hqty)];
    [congruence|].
  unfold conserved in *. simpl.
  rewrite dict_set_fresh by exact Hfresh. rewrite open_notional_snoc. simpl.
  rewrite Hqty. rewrite <- Hc.
  generalize dependent (price * (1 + slippage_pct self)). intros ep Hp _.
  field. exact Hp.
Qed.

Lemma _close_position_conserved (self : Backtester) symbol exit_idx details df self' :
  _close_position self symbol exit_idx details df = Some self' ->
  conserved self -> conserved self'.
Proof.
  intros Hclose Hc.
  apply _close_position_inv in Hclose as (position & ret & Hget & _ & ->).
  unfold conserved in *. simpl.
  rewrite realized_snoc. simpl.
  rewrite (open_notional_del _ _ _ Hget) in Hc. rewrite <- Hc. ring.
Qed.

Lemma update_peak_updated k (p : Position) price date :
  peak_updated (k, p) (k, update_peak p price date).
Proof.
  unfold update_peak, peak_updated.
  destruct (Qltb (peak_price p) price) eqn:Hlt; simpl.
  - apply Qltb_lt in Hlt. repeat split; try reflexivity. apply Qlt_le_weak, Hlt.
  - repeat split; try reflexivity. apply Qle_refl.
Qed.

Lemma peak_updated_refl e : peak_updated e e.
Proof. unfold peak_updated. repeat split; try reflexivity. apply Qle_refl. Qed.

(** The scanning loop keeps the book: same keys, same entries, peaks only
    raised. *)
Lemma scan_exits_positions stop_pct date data ma_period use_ma_exit ps ps' cl :
  scan_exits stop_pct date data ma_period use_ma_exit ps = Some (ps', cl) ->
  Forall2 peak_updated ps ps'.
Proof.
  revert ps' cl. induction ps as [|[symbol position] ps IH]; intros ps' cl; simpl.
  - intros [= <- <-]. constructor.
  - destruct (data !! symbol) as [df|].
    + destruct (index_of date (rows df)) as [idx|].
      * destruct (rows df !! idx) as [row|]; simpl; [|discriminate].
        destruct (check_exit_signal _ _ _ _ _ _ _) as [[trig details]|]; simpl;
          [|discriminate].
        destruct (scan_exits _ _ _ _ _ ps) as [[ps1 cl1]|]; simpl; [|discriminate].
        intros H. inversion H; subst. constructor; [|eapply IH; reflexivity].
        apply update_peak_updated.
      * destruct (scan_exits _ _ _ _ _ ps) as [[ps1 cl1]|]; simpl; [|discriminate].
        intros H. inversion H; subst. constructor; [|eapply IH; reflexivity].
        apply peak_updated_refl.
    + destruct (scan_exits _ _ _ _ _ ps) as [[ps1 cl1]|]; simpl; [|discriminate].
      intros H. inversion H; subst. constructor; [|eapply IH; reflexivity].
      apply peak_updated_refl.
Qed.

Lemma peak_updated_keys ps ps' : Forall2 peak_updated ps ps' -> ps'.*1 = ps.*1.
Proof.
  induction 1 as [|e e' ps ps' He _ IH]; csimpl; [reflexivity|].
  destruct He as [-> _]. rewrite IH. reflexivity.
Qed.

Lemma peak_updated_notional ps ps' :
  Forall2 peak_updated ps ps' -> open_notional ps' = open_notional ps.
Proof.
  unfold open_notional. induction 1 as [|e e' ps ps' He _ IH]; simpl; [reflexivity|].
  destruct He as (_ & _ & _ & _ & -> & _ & -> & _). rewrite IH. reflexivity.
Qed.

Lemma close_each_conserved (self : Backtester) data cl self' :
  close_each self data cl = Some self' -> conserved self -> conserved self'.
Proof.
  revert self. induction cl as [|[[symbol idx] details] cl IH]; intros self; simpl.
  - intros [= <-]. auto.
  - destruct (data !! symbol) as [df|]; simpl; [|discriminate].
    destruct (_close_position self symbol idx details df) as [self1|] eqn:Hc; simpl;
      [|discriminate].
    intros Hrest Hcons. eapply IH; [exact Hrest|].
    eapply _close_position_conserved; eassumption.
Qed.

Lemma _check_exits_conserved (self : Backtester) date data ma_period use_ma_exit self' :
  _check_exits self date data ma_period use_ma_exit = Some self' ->
  conserved self -> conserved self'.
Proof.
  unfold _check_exits.
  destruct (scan_exits _ _ _ _ _ _) as [[ps cl]|] eqn:Hscan; simpl; [|discriminate].
  intros Hclose Hc. eapply close_each_conserved; [exact Hclose|].
  apply scan_exits_positions in Hscan.
  unfold conserved in *. simpl. rewrite (peak_updated_notional _ _ Hscan). exact Hc.
Qed.

Lemma open_each_conserved (self : Backtester) data (opps : list Opportunity) self' :
  open_each self data opps = Some self' ->
  NoDup (map o_symbol opps) ->
  (forall o, o ∈ opps -> o_symbol o ∉ (positions self).*1) ->
  conserved self -> conserved self'.
Proof.
  revert self. induction opps as [|o opps IH]; intros self; simpl.
  - intros [= <-]. auto.
  - destruct (data !! o_symbol o) as [df|]; simpl; [|discriminate].
    destruct (_open_position self (o_symbol o) (o_date o) (o_price o) df)
      as [self1|] eqn:Hopen; simpl; [|discriminate].
    intros Hrest Hnd Hfresh Hc.
    apply NoDup_cons in Hnd as [Ho Hnd].
    assert (Hhere : o_symbol o ∉ (positions self).*1) by apply Hfresh, list_elem_of_here.
    eapply IH; [exact Hrest|exact Hnd| |].
    + intros o' Ho'.
      apply _open_position_inv in Hopen as [[-> _]|(sizing & idx & _ & _ & _ & ->)].
      * apply Hfresh, list_elem_of_further, Ho'.
      * simpl. rewrite dict_set_fresh by exact Hhere.
        rewrite fmap_app. simpl. rewrite elem_of_app, list_elem_of_singleton.
        intros [Hin|Heq].
        -- apply (Hfresh o'); [apply list_elem_of_further, Ho'|exact Hin].
        -- apply Ho. rewrite <- Heq. apply list_elem_of_fmap. eauto.
    + eapply _open_position_conserved; eassumption.
Qed.

Lemma ranked_entries_fresh (self : Backtester) (candidates : list Opportunity)
    (P : Opportunity -> Prop) :
  NoDup (map o_symbol candidates) ->
  (forall o, o ∈ candidates -> P o) ->
  NoDup (map o_symbol (ranked_entries self candidates)) /\
  forall o, o ∈ ranked_entries self candidates -> P o.
Proof.
  intros Hnd HP.
  destruct (ranked_entries_top self candidates) as (rest & Hperm & _).
  split.
  - assert (Hnd' : NoDup (map o_symbol (ranked_entries self candidates ++ rest))).
    { rewrite Hperm. exact Hnd. }
    rewrite map_app in Hnd'. apply NoDup_app in Hnd' as [Hnd' _]. exact Hnd'.
  - intros o Ho. apply HP. rewrite <- Hperm. apply elem_of_app. auto.
Qed.

Lemma same_book_conserved (a b : Backtester) : same_book a b -> conserved a -> conserved b.
Proof.
  intros (Hi & Hc & Hp & Ht & _). unfold conserved. rewrite Hi, Hc, Hp, Ht. auto.
Qed.

Lemma _check_entries_conserved (self : Backtester) date signals data self' :
  NoDup signals.*1 ->
  _check_entries self date signals data = Some self' ->
  conserved self -> conserved self'.
Proof.
  intros Hnd. unfold _check_entries.
  destruct (_check_daily_loss_limit self date) as [[gate stop]|] eqn:Hd; simpl;
    [|discriminate].
  apply daily_same_book in Hd.
  destruct stop.
  - intros [= <-]. apply same_book_conserved, Hd.
  - destruct (_check_weekly_loss_limit gate date) as [gate'|] eqn:Hw; simpl;
      [|discriminate].
    apply weekly_same_book in Hw.
    pose proof (same_book_trans _ _ _ Hd Hw) as Hb.
    destruct (_ <=? _)%Z.
    + intros [= <-]. apply same_book_conserved, Hb.
    + intros Hopen Hc.
      destruct (candidates_fresh gate'
                  (fun symbol => negb (dict_mem symbol (positions gate')))
                  date signals Hnd) as [Hnd' Hfresh].
      { intros symbol Hs. apply negb_true_iff, dict_mem_false in Hs. exact Hs. }
      destruct (ranked_entries_fresh gate' _ _ Hnd' Hfresh) as [Hnd'' Hfresh'].
      eapply open_each_conserved; [exact Hopen|exact Hnd''|exact Hfresh'|].
      eapply same_book_conserved; eassumption.
Qed.

Lemma _update_equity_same_book (self : Backtester) date data :
  same_book self (_update_equity self date data).
Proof. repeat split. Qed.

Lemma step_conserved ma_period use_ma_exit signals data (self : Backtester) date self' :
  NoDup signals.*1 ->
  step ma_period use_ma_exit signals data self date = Some self' ->
  conserved self -> conserved self'.
Proof.
  intros Hnd. unfold step.
  destruct (_check_exits self date data ma_period use_ma_exit) as [s1|] eqn:H1; simpl;
    [|discriminate].
  destruct (_check_entries s1 date signals data) as [s2|] eqn:H2; simpl; [|discriminate].
  intros [= <-] Hc.
  eapply same_book_conserved; [apply _update_equity_same_book|].
  eapply _check_entries_conserved; [exact Hnd|exact H2|].
  eapply _check_exits_conserved; eassumption.
Qed.

Lemma simulate_conserved ma_period use_ma_exit signals data (self : Backtester) days self' :
  NoDup signals.*1 ->
  simulate ma_period use_ma_exit signals data self days = Some self' ->
  conserved self -> conserved self'.
Proof.
  intros Hnd. revert self. induction days as [|date days IH]; intros self; simpl.
  - intros [= <-]. auto.
  - destruct (step ma_period use_ma_exit signals data self date) as [s1|] eqn:H1; simpl;
      [|discriminate].
    intros Hrest Hc. eapply IH; [exact Hrest|]. eapply step_conserved; eassumption.
Qed.

(** The end-of-run loop empties the book. *)
Lemma close_remaining_all (ps : list (string * Position)) :
  forall (self : Backtester) data self',
    positions self = ps ->
    close_remaining self data ps.*1 = Some self' ->
    positions self' = [] /\ (conserved self -> conserved self').
Proof.
  induction ps as [|[k p] ps IH]; intros self data self' Hps; csimpl.
  - intros [= <-]. auto.
  - rewrite Hps. simpl. rewrite decide_True by reflexivity. simpl.
    destruct (data !! k) as [df|]; simpl; [|discriminate].
    destruct (last (rows df)) as [last_row|]; simpl; [|discriminate].
    destruct (_close_position self k _ _ df) as [s1|] eqn:Hclose; simpl; [|discriminate].
    intros Hrest.
    pose proof (_close_position_conserved _ _ _ _ _ _ Hclose) as Hcons.
    apply _close_position_inv in Hclose as (position & ret & _ & _ & Hs1).
    assert (Hps1 : positions s1 = ps).
    { rewrite Hs1. simpl. rewrite Hps. simpl. rewrite decide_True by reflexivity.
      reflexivity. }
    destruct (IH s1 data self' Hps1 Hrest) as [Hempty Hkeep].
    split; [exact Hempty|]. auto.
Qed.

Lemma build_signals_NoDup check_entry_signal symbols data signals :
  NoDup signals.*1 ->
  NoDup (build_signals check_entry_signal symbols data signals).*1.
Proof.
  revert signals. induction symbols as [|symbol symbols IH]; intros signals Hnd; simpl.
  - exact Hnd.
  - destruct (data !! symbol); [|apply IH, Hnd].
    apply IH, dict_set_NoDup, Hnd.
Qed.

Lemma Backtester_init_conserved ic risk stop maxp comm slip dl wl :
  conserved (Backtester_init ic risk stop maxp comm slip dl wl).
Proof. unfold conserved, open_notional, realized. simpl. ring. Qed.

(** No operation assigns the configuration. *)
Lemma same_config_refl (a : Backtester) : same_config a a.
Proof. repeat split. Qed.

Lemma same_config_trans (a b c : Backtester) :
  same_config a b -> same_config b c -> same_config a c.
Proof. unfold same_config. intuition congruence. Qed.

Lemma same_book_config (a b : Backtester) : same_book a b -> same_config a b.
Proof. unfold same_book, same_config. intuition congruence. Qed.

Lemma _open_position_config (self : Backtester) symbol date price df self' :
  _open_position self symbol date price df = Some self' -> same_config self self'.
Proof.
  intros H. apply _open_position_inv in H as [[-> _]|(sizing & idx & _ & _ & _ & ->)];
    repeat split.
Qed.

Lemma _close_position_config (self : Backtester) symbol exit_idx details df self' :
  _close_position self symbol exit_idx details df = Some self' -> same_config self self'.
Proof.
  intros H. apply _close_position_inv in H as (position & ret & _ & _ & ->). repeat split.
Qed.

Lemma close_each_config (self : Backtester) data cl self' :
  close_each self data cl = Some self' -> same_config self self'.
Proof.
  revert self. induction cl as [|[[symbol idx] details] cl IH]; intros self; simpl.
  - intros [= <-]. apply same_config_refl.
  - destruct (data !! symbol) as [df|]; simpl; [|discriminate].
    destruct (_close_position self symbol idx details df) as [self1|] eqn:Hc; simpl;
      [|discriminate].
    intros Hrest. eapply same_config_trans; [eapply _close_position_config, Hc|].
    apply IH, Hrest.
Qed.

Lemma open_each_config (self : Backtester) data opps self' :
  open_each self data opps = Some self' -> same_config self self'.
Proof.
  revert self. induction opps as [|o opps IH]; intros self; simpl.
  - intros [= <-]. apply same_config_refl.
  - destruct (data !! o_symbol o) as [df|]; simpl; [|discriminate].
    destruct (_open_position self _ _ _ df) as [self1|] eqn:Ho; simpl; [|discriminate].
    intros Hrest. eapply same_config_trans; [eapply _open_position_config, Ho|].
    apply IH, Hrest.
Qed.

Lemma _check_exits_config (self : Backtester) date data ma_period use_ma_exit self' :
  _check_exits self date data ma_period use_ma_exit = Some self' -> same_config self self'.
Proof.
  unfold _check_exits.
  destruct (scan_exits _ _ _ _ _ _) as [[ps cl]|]; simpl; [|discriminate].
  intros H. apply close_each_config in H. exact H.
Qed.

Lemma _check_entries_config (self : Backtester) date signals data self' :
  _check_entries self date signals data = Some self' -> same_config self self'.
Proof.
  unfold _check_entries.
  destruct (_check_daily_loss_limit self date) as [[gate stop]|] eqn:Hd; simpl;
    [|discriminate].
  apply daily_same_book, same_book_config in Hd.
  destruct stop; [intros [= <-]; exact Hd|].
  destruct (_check_weekly_loss_limit gate date) as [gate'|] eqn:Hw; simpl; [|discriminate].
  apply weekly_same_book, same_book_config in Hw.
  pose proof (same_config_trans _ _ _ Hd Hw) as Hb.
  destruct (_ <=? _)%Z; [intros [= <-]; exact Hb|].
  intros H. eapply same_config_trans; [exact Hb|]. eapply open_each_config, H.
Qed.

Lemma step_config ma_period use_ma_exit signals data (self : Backtester) date self' :
  step ma_period use_ma_exit signals data self date = Some self' -> same_config self self'.
Proof.
  unfold step.
  destruct (_check_exits self date data ma_period use_ma_exit) as [s1|] eqn:H1; simpl;
    [|discriminate].
  destruct (_check_entries s1 date signals data) as [s2|] eqn:H2; simpl; [|discriminate].
  intros [= <-].
  eapply same_config_trans; [eapply _check_exits_config, H1|].
  eapply same_config_trans; [eapply _check_entries_config, H2|].
  repeat split.
Qed.

Lemma simulate_config ma_period use_ma_exit signals data (self : Backtester) days self' :
  simulate ma_period use_ma_exit signals data self days = Some self' ->
  same_config self self'.
Proof.
  revert self. induction days as [|date days IH]; intros self; simpl.
  - intros [= <-]. apply same_config_refl.
  - destruct (step ma_period use_ma_exit signals data self date) as [s1|] eqn:H1; simpl;
      [|discriminate].
    intros Hrest. eapply same_config_trans; [eapply step_config, H1|]. apply IH, Hrest.
Qed.

Lemma close_remaining_config (self : Backtester) data symbols self' :
  close_remaining self data symbols = Some self' -> same_config self self'.
Proof.
  revert self. induction symbols as [|k symbols IH]; intros self; simpl.
  - intros [= <-]. apply same_config_refl.
  - destruct (dict_get k (positions self)) as [p|]; simpl; [|discriminate].
    destruct (data !! k) as [df|]; simpl; [|discriminate].
    destruct (last (rows df)) as [last_row|]; simpl; [|discriminate].
    destruct (_close_position self k _ _ df) as [s1|] eqn:Hclose; simpl; [|discriminate].
    intros Hrest. eapply same_config_trans; [eapply _close_position_config, Hclose|].
    apply IH, Hrest.
Qed.

(** The realistic loop keeps the same books. *)
Lemma _check_entries_filtered_conserved (self : Backtester) date signals data universe self' :
  NoDup signals.*1 ->
  _check_entries_filtered self date signals data universe = Some self' ->
  same_config self self' /\ (conserved self -> conserved self').
Proof.
  intros Hnd. unfold _check_entries_filtered.
  destruct (_ <=? _)%Z; [intros [= <-]; split; [apply same_config_refl|auto]|].
  intros Hopen. split; [eapply open_each_config, Hopen|]. intros Hc.
  destruct (candidates_fresh self
              (fun symbol => bool_decide (symbol ∈ universe)
                             && negb (dict_mem symbol (positions self)))
              date signals Hnd) as [Hnd' Hfresh].
  { intros symbol Hs. apply andb_true_iff in Hs as [_ Hs].
    apply negb_true_iff, dict_mem_false in Hs. exact Hs. }
  destruct (ranked_entries_fresh self _ _ Hnd' Hfresh) as [Hnd'' Hfresh'].
  eapply open_each_conserved; eassumption.
Qed.

Lemma realistic_step_conserved ma_period use_ma_exit signals data universe
    (self : Backtester) date self' :
  NoDup signals.*1 ->
  realistic_step ma_period use_ma_exit signals data universe self date = Some self' ->
  same_config self self' /\ (conserved self -> conserved self').
Proof.
  intros Hnd. unfold realistic_step, _check_universe_exits.
  destruct (scan_universe_exits date universe data (positions self)) as [cl|];
    simpl; [|discriminate].
  destruct (close_each self data cl) as [s1|] eqn:H1; simpl; [|discriminate].
  destruct (_check_exits s1 date data ma_period use_ma_exit) as [s2|] eqn:H2; simpl;
    [|discriminate].
  destruct (_check_entries_filtered s2 date signals data universe) as [s3|] eqn:H3;
    simpl; [|discriminate].
  intros [= <-].
  destruct (_check_entries_filtered_conserved _ _ _ _ _ _ Hnd H3) as [Hcfg3 Hc3].
  split.
  - eapply same_config_trans; [eapply close_each_config, H1|].
    eapply same_config_trans; [eapply _check_exits_config, H2|].
    eapply same_config_trans; [exact Hcfg3|]. repeat split.
  - intros Hc. eapply same_book_conserved; [apply _update_equity_same_book|].
    apply Hc3. eapply _check_exits_conserved; [exact H2|].
    eapply close_each_conserved; eassumption.
Qed.

Lemma simulate_realistic_conserved ma_period use_ma_exit signals data updates dates days :
  NoDup signals.*1 ->
  forall c (self : Backtester) c' self',
    simulate_realistic ma_period use_ma_exit signals data updates dates c self days
      = Some (c', self') ->
    same_config self self' /\ (conserved self -> conserved self').
Proof.
  intros Hnd. induction days as [|date days IH]; intros c self c' self'; simpl.
  - intros [= <- <-]. split; [apply same_config_refl|auto].
  - destruct (update_universe updates dates c date) as [c1|]; simpl; [|discriminate].
    destruct (realistic_step _ _ _ _ _ self date) as [s1|] eqn:H1; simpl; [|discriminate].
    intros Hrest.
    destruct (realistic_step_conserved _ _ _ _ _ _ _ _ Hnd H1) as [Hcfg1 Hc1].
    destruct (IH _ _ _ _ Hrest) as [Hcfg Hc].
    split; [eapply same_config_trans; eassumption|auto].
Qed.

(** C1.  Capital conservation.  A completed run, of [Backtester.run] as of
    the realistic loop, ends with an empty book, and its final cash plus the
    (empty) open notional equals the initial capital plus the sum of
    [return_usd] over the recorded trades.  The quantity
    [cash + open notional at entry prices - realized P&L] is preserved by
    every [_open_position] of a symbol that is not held (the engine never
    opens a held symbol) and by every [_close_position]. *)
Theorem C1_capital_conservation :
  (forall check_entry_signal ic risk stop maxp comm slip dl wl symbols data
          ma_period use_ma_exit final,
      run check_entry_signal (Backtester_init ic risk stop maxp comm slip dl wl)
          symbols data ma_period use_ma_exit = Some final ->
      positions final = [] /\
      capital final + open_notional (positions final) == ic + realized (trades final)) /\
  (forall ic risk stop maxp comm slip dl wl universe_updates signals data start_date
          ma_period use_ma_exit cursor final,
      NoDup signals.*1 ->
      run_realistic (Backtester_init ic risk stop maxp comm slip dl wl)
          universe_updates signals data start_date ma_period use_ma_exit
        = Some (cursor, final) ->
      positions final = [] /\
      capital final + open_notional (positions final) == ic + realized (trades final)) /\
  (forall self symbol date price df self',
      _open_position self symbol date price df = Some self' ->
      symbol ∉ (positions self).*1 ->
      conserved self -> conserved self') /\
  (forall self symbol exit_idx details df self',
      _close_position self symbol exit_idx details df = Some self' ->
      conserved self -> conserved self').
Proof.
  split; [|split; [|split]].
  - intros check_entry_signal ic risk stop maxp comm slip dl wl symbols data
           ma_period use_ma_exit final.
    unfold run, _close_all_positions.
    destruct (simulate _ _ _ _ _ _) as [s1|] eqn:Hsim; simpl; [|discriminate].
    intros Hclose.
    destruct (close_remaining_all _ _ _ _ eq_refl Hclose) as [Hempty Hkeep].
    split; [exact Hempty|].
    assert (Hc : conserved final).
    { apply Hkeep. eapply simulate_conserved; [|exact Hsim|apply Backtester_init_conserved].
      apply build_signals_NoDup. constructor. }
    assert (Hic : initial_capital final = ic).
    { apply simulate_config in Hsim as [Hi _].
      apply close_remaining_config in Hclose as [Hi' _]. simpl in Hi. congruence. }
    unfold conserved in Hc. rewrite Hic in Hc. rewrite <- Hc. ring.
  - intros ic risk stop maxp comm slip dl wl universe_updates signals data start_date
           ma_period use_ma_exit cursor final Hnd.
    unfold run_realistic, _close_all_positions.
    destruct (simulate_realistic _ _ _ _ _ _ _ _ _) as [[c1 s1]|] eqn:Hsim; simpl;
      [|discriminate].
    destruct (close_remaining s1 data (positions s1).*1) as [s2|] eqn:Hclose; simpl;
      [|discriminate].
    intros [= <- <-].
    destruct (close_remaining_all _ _ _ _ eq_refl Hclose) as [Hempty Hkeep].
    split; [exact Hempty|].
    destruct (simulate_realistic_conserved _ _ _ _ _ _ _ Hnd _ _ _ _ Hsim) as [[Hi _] Hc1].
    assert (Hc : conserved s2) by (apply Hkeep, Hc1, Backtester_init_conserved).
    assert (Hic : initial_capital s2 = ic).
    { apply close_remaining_config in Hclose as [Hi' _]. simpl in Hi. congruence. }
    unfold conserved in Hc. rewrite Hic in Hc. rewrite <- Hc. ring.
  - exact _open_position_conserved.
  - exact _close_position_conserved.
Qed.

(** ** Peaks and adverse excursion *)

Lemma index_of_Some (d : datetime) (rs : list Row) (i : nat) :
  index_of d rs = Some i -> exists r, rs !! i = Some r /\ timestamp r = d.
Proof.
  revert i. induction rs as [|r rs IH]; intros i; simpl; [discriminate|].
  destruct (Z.eqb_spec (timestamp r) d) as [Heq|Hne].
  - intros [= <-]. exists r. auto.
  - destruct (index_of d rs) as [j|]; simpl; [|discriminate].
    intros [= <-]. apply IH. reflexivity.
Qed.

(** In a frame with strictly increasing timestamps, positions follow
    timestamps. *)
Lemma sorted_positions (rs : list Row) (i j : nat) (r r' : Row) :
  StronglySorted Z.lt (map timestamp rs) ->
  rs !! i = Some r -> rs !! j = Some r' ->
  (timestamp r <= timestamp r')%Z -> (i <= j)%nat.
Proof.
  revert i j. induction rs as [|r0 rs IH]; intros i j Hs Hi Hj Hle; [discriminate|].
  simpl in Hs. apply StronglySorted_cons in Hs as [Hall Hs].
  destruct i as [|i]; [lia|]. destruct j as [|j].
  - simpl in Hi, Hj. injection Hj as <-.
    rewrite Forall_forall in Hall.
    assert (timestamp r0 < timestamp r)%Z.
    { apply Hall. apply list_elem_of_fmap. exists r. split; [reflexivity|].
      eapply list_elem_of_lookup_2, Hi. }
    lia.
  - simpl in Hi, Hj. apply le_n_S. eapply IH; eassumption.
Qed.

Lemma sorted_unique_row (rs : list Row) (r r' : Row) :
  StronglySorted Z.lt (map timestamp rs) ->
  r ∈ rs -> r' ∈ rs -> timestamp r = timestamp r' -> r = r'.
Proof.
  intros Hs Hr Hr' Ht.
  apply list_elem_of_lookup in Hr as [i Hi]. apply list_elem_of_lookup in Hr' as [j Hj].
  assert (i <= j)%nat by (eapply sorted_positions; [exact Hs|exact Hi|exact Hj|lia]).
  assert (j <= i)%nat by (eapply sorted_positions; [exact Hs|exact Hj|exact Hi|lia]).
  assert (i = j) by lia. subst. congruence.
Qed.

Lemma adverse_excursion_nonpositive (df : DataFrame) (a b : nat) (row : Row) (entry : Q) :
  rows df !! a = Some row -> (a <= b)%nat ->
  low row <= entry -> 0 < entry ->
  exists m, adverse_excursion df a b entry = Some m /\ m <= 0.
Proof.
  intros Hrow Hab Hlow Hpos. unfold adverse_excursion.
  assert (Hin : low row ∈ map low (iloc_slice a b (rows df))).
  { apply list_elem_of_fmap. exists row. split; [reflexivity|].
    apply elem_of_iloc_slice. exists a. split; [lia|exact Hrow]. }
  destruct (series_min (map low (iloc_slice a b (rows df)))) as [mn|] eqn:Hmin.
  - simpl. eexists. split; [reflexivity|].
    apply series_min_spec in Hmin as [_ Hlb].
    apply Qle_shift_div_r; [exact Hpos|].
    specialize (Hlb _ Hin). lra.
  - apply series_min_None in Hmin. rewrite Hmin in Hin. inversion Hin.
Qed.

Lemma dict_set_elem {V} (k : string) (v : V) (d : list (string * V)) (x : string * V) :
  x ∈ dict_set k v d -> x = (k, v) \/ x ∈ d.
Proof.
  induction d as [|[k' v'] d IH]; simpl.
  - intros H. apply list_elem_of_singleton in H. auto.
  - destruct (decide (k' = k)) as [->|Hne]; intros H;
      apply elem_of_cons in H as [->|H]; auto.
    + right. apply list_elem_of_further, H.
    + right. apply list_elem_of_here.
    + destruct (IH H) as [->|Hin]; [auto|]. right. apply list_elem_of_further, Hin.
Qed.

Lemma position_ok_later data bound bound' e :
  (bound <= bound')%Z -> position_ok data bound e -> position_ok data bound' e.
Proof.
  intros Hle (H1 & H2 & H3 & H4). repeat split; try assumption. lia.
Qed.

Lemma book_ok_later data bound bound' (self : Backtester) :
  (bound <= bound')%Z -> book_ok data bound self -> book_ok data bound' self.
Proof.
  intros Hle (H1 & H2 & H3). repeat split; try assumption.
  eapply Forall_impl; [exact H2|]. intros e. apply position_ok_later, Hle.
Qed.

Lemma position_ok_peak data bound e e' :
  peak_updated e e' -> position_ok data bound e -> position_ok data bound e'.
Proof.
  intros (Hk & _ & Hd & Hi & Hp & _ & _ & Hpeak) (H1 & H2 & H3 & H4).
  unfold position_ok. rewrite Hk, Hd, Hi, Hp. repeat split; try assumption.
  eapply Qle_trans; eassumption.
Qed.

Lemma same_book_ok data bound (a b : Backtester) :
  same_book a b -> book_ok data bound a -> book_ok data bound b.
Proof.
  intros (_ & _ & Hp & Ht & _ & _ & _ & _ & Hs) (H1 & H2 & H3).
  unfold book_ok. rewrite <- Hp, <- Ht, <- Hs. auto.
Qed.

(** A pending exit found at or after the bound lies at or after the entry
    row of the position it closes. *)
Lemma closing_after_entry data bound date symbol (p : Position) idx details :
  data_ok data -> (bound <= date)%Z ->
  position_ok data bound (symbol, p) ->
  closing_ok data date (symbol, idx, details) ->
  (entry_index p <= idx)%nat.
Proof.
  intros Hdata Hle (_ & _ & Hentry & df & row & Hdf & Hrow & Hts & _) (df' & Hdf' & Hidx).
  simpl in *. rewrite Hdf in Hdf'. injection Hdf' as <-.
  apply index_of_Some in Hidx as (row' & Hrow' & Hts').
  destruct (Hdata _ _ Hdf) as [Hsorted _].
  eapply sorted_positions; [exact Hsorted|exact Hrow|exact Hrow'|]. lia.
Qed.

Lemma _close_position_ok data bound (self : Backtester) symbol exit_idx details df self' :
  book_ok data bound self ->
  data !! symbol = Some df ->
  (forall p, (symbol, p) ∈ positions self -> (entry_index p <= exit_idx)%nat) ->
  _close_position self symbol exit_idx details df = Some self' ->
  book_ok data bound self'.
Proof.
  intros (Hslip & Hps & Hts) Hdf Hafter Hclose.
  apply _close_position_inv in Hclose as (position & ret & Hget & _ & ->).
  apply dict_get_elem in Hget.
  unfold book_ok. simpl. split; [exact Hslip|]. split.
  - rewrite Forall_forall in Hps |- *. intros e He. apply Hps.
    eapply dict_del_subseteq, He.
  - apply Forall_app. split; [exact Hts|]. constructor; [|constructor].
    rewrite Forall_forall in Hps.
    destruct (Hps _ Hget) as (Hpos & Hpeak & _ & df' & row & Hdf' & Hrow & _ & Hlow).
    simpl in *. rewrite Hdf in Hdf'. injection Hdf' as <-.
    split; simpl; [exact Hpeak|].
    eapply adverse_excursion_nonpositive; eauto.
Qed.

Lemma close_each_ok data bound date (self : Backtester) cl self' :
  data_ok data -> (bound <= date)%Z ->
  book_ok data bound self ->
  Forall (closing_ok data date) cl ->
  close_each self data cl = Some self' ->
  book_ok data bound self'.
Proof.
  intros Hdata Hle. revert self.
  induction cl as [|[[symbol idx] details] cl IH]; intros self Hok Hcl; simpl.
  - intros [= <-]. exact Hok.
  - destruct (data !! symbol) as [df|] eqn:Hdf; simpl; [|discriminate].
    destruct (_close_position self symbol idx details df) as [self1|] eqn:Hc; simpl;
      [|discriminate].
    apply Forall_cons in Hcl as [Hc1 Hcl].
    intros Hrest. eapply IH; [|exact Hcl|exact Hrest].
    eapply _close_position_ok; [exact Hok|exact Hdf| |exact Hc].
    intros p Hp. destruct Hok as (_ & Hps & _). rewrite Forall_forall in Hps.
    eapply closing_after_entry; [exact Hdata|exact Hle|apply Hps, Hp|exact Hc1].
Qed.

Lemma scan_exits_closings stop_pct date data ma_period use_ma_exit ps ps' cl :
  scan_exits stop_pct date data ma_period use_ma_exit ps = Some (ps', cl) ->
  Forall (closing_ok data date) cl.
Proof.
  revert ps' cl. induction ps as [|[symbol position] ps IH]; intros ps' cl; simpl.
  - intros [= <- <-]. constructor.
  - destruct (data !! symbol) as [df|] eqn:Hdf.
    + destruct (index_of date (rows df)) as [idx|] eqn:Hidx.
      * destruct (rows df !! idx) as [row|]; simpl; [|discriminate].
        destruct (check_exit_signal _ _ _ _ _ _ _) as [[trig details]|]; simpl;
          [|discriminate].
        destruct (scan_exits _ _ _ _ _ ps) as [[ps1 cl1]|]; simpl; [|discriminate].
        intros H. inversion H; subst.
        destruct trig; [constructor|]; try (eapply IH; reflexivity).
        exists df. simpl. auto.
      * destruct (scan_exits _ _ _ _ _ ps) as [[ps1 cl1]|]; simpl; [|discriminate].
        intros H. inversion H; subst. eapply IH; reflexivity.
    + destruct (scan_exits _ _ _ _ _ ps) as [[ps1 cl1]|]; simpl; [|discriminate].
      intros H. inversion H; subst. eapply IH; reflexivity.
Qed.

Lemma _check_exits_ok data bound date (self : Backtester) ma_period use_ma_exit self' :
  data_ok data -> (bound <= date)%Z ->
  book_ok data bound self ->
  _check_exits self date data ma_period use_ma_exit = Some self' ->
  book_ok data bound self'.
Proof.
  intros Hdata Hle (Hslip & Hps & Hts). unfold _check_exits.
  destruct (scan_exits _ _ _ _ _ _) as [[ps cl]|] eqn:Hscan; simpl; [|discriminate].
  intros Hclose.
  eapply close_each_ok; [exact Hdata|exact Hle| |eapply scan_exits_closings, Hscan|exact Hclose].
  unfold book_ok. simpl. split; [exact Hslip|]. split; [|exact Hts].
  apply scan_exits_positions in Hscan.
  clear -Hscan Hps. induction Hscan as [|e e' ps ps' He _ IH]; [constructor|].
  apply Forall_cons in Hps as [H1 H2]. constructor; [|apply IH, H2].
  eapply position_ok_peak; eassumption.
Qed.

Lemma _open_position_ok data date (self : Backtester) (o : Opportunity) df self' :
  data_ok data ->
  book_ok data date self ->
  opportunity_ok data date o ->
  data !! o_symbol o = Some df ->
  _open_position self (o_symbol o) (o_date o) (o_price o) df = Some self' ->
  book_ok data date self'.
Proof.
  intros Hdata (Hslip & Hps & Hts) [Hdate Hprice] Hdf Hopen.
  apply _open_position_inv in Hopen as [[-> _]|(sizing & idx & _ & _ & Hidx & ->)];
    [repeat split; assumption|].
  unfold book_ok. simpl. split; [exact Hslip|]. split; [|exact Hts].
  rewrite Forall_forall in Hps |- *. intros e He.
  apply dict_set_elem in He as [->|He]; [|apply Hps, He].
  destruct (Hprice _ Hdf) as (row & Hrow & Hts' & Hclose).
  rewrite Hdate in Hidx. apply index_of_Some in Hidx as (row' & Hrow' & Hts'').
  destruct (Hdata _ _ Hdf) as [Hsorted Hprices].
  assert (row' = row).
  { eapply sorted_unique_row; [exact Hsorted|eapply list_elem_of_lookup_2, Hrow'|exact Hrow|].
    congruence. }
  subst row'.
  rewrite Forall_forall in Hprices. destruct (Hprices _ Hrow) as [Hlow Hle].
  assert (Hgrow : o_price o <= o_price o * (1 + slippage_pct self)).
  { rewrite <- Hclose. nra. }
  unfold position_ok. simpl. rewrite <- Hclose in *.
  split; [lra|]. split; [apply Qle_refl|]. split; [lia|].
  exists df, row. split; [exact Hdf|]. split; [exact Hrow'|]. split; [congruence|]. lra.
Qed.

Lemma open_each_ok data date (self : Backtester) opps self' :
  data_ok data ->
  book_ok data date self ->
  Forall (opportunity_ok data date) opps ->
  open_each self data opps = Some self' ->
  book_ok data date self'.
Proof.
  intros Hdata. revert self. induction opps as [|o opps IH]; intros self Hok Hopps; simpl.
  - intros [= <-]. exact Hok.
  - destruct (data !! o_symbol o) as [df|] eqn:Hdf; simpl; [|discriminate].
    destruct (_open_position self _ _ _ df) as [self1|] eqn:Ho; simpl; [|discriminate].
    apply Forall_cons in Hopps as [Ho1 Hopps].
    intros Hrest. eapply IH; [|exact Hopps|exact Hrest].
    eapply _open_position_ok; eassumption.
Qed.

Lemma signal_at_Some date sdf row :
  signal_at date sdf = Some row -> row ∈ sdf /\ s_timestamp row = date.
Proof.
  unfold signal_at. intros H. apply head_Some in H as [l Hl].
  assert (Hin : row ∈ filter (fun r => ((s_timestamp r =? date)%Z && entry_signal r) = true) sdf).
  { rewrite Hl. apply list_elem_of_here. }
  apply list_elem_of_filter in Hin as [Hp Hin]. split; [exact Hin|].
  apply andb_true_iff in Hp as [Hp _]. apply Z.eqb_eq, Hp.
Qed.

Lemma Forall2_mirrors_elem sdf rs s :
  Forall2 mirrors sdf rs -> s ∈ sdf -> exists r, r ∈ rs /\ mirrors s r.
Proof.
  induction 1 as [|s0 r0 sdf rs Hm _ IH]; intros Hin; [inversion Hin|].
  apply elem_of_cons in Hin as [->|Hin].
  - exists r0. split; [apply list_elem_of_here|exact Hm].
  - destruct (IH Hin) as (r & Hr & Hmr). exists r. split; [apply list_elem_of_further, Hr|exact Hmr].
Qed.

Lemma candidates_ok data eligible date signals :
  signals_mirror data signals ->
  Forall (opportunity_ok data date) (omap (opportunity_of eligible date) signals).
Proof.
  intros Hmirror. apply Forall_forall. intros o Ho.
  apply list_elem_of_omap in Ho as ([symbol sdf] & Hin & Ho).
  apply opportunity_of_symbol in Ho as (Hsym & _ & Hdate & srow & Hat & Hprice & _).
  simpl in *. apply signal_at_Some in Hat as [Hsrow Hts].
  destruct (Hmirror _ _ Hin) as (df & Hdf & Hrows).
  destruct (Forall2_mirrors_elem _ _ _ Hrows Hsrow) as (row & Hrow & Hm1 & Hm2).
  split; [exact Hdate|]. intros df' Hdf'. rewrite Hsym, Hdf in Hdf'. injection Hdf' as <-.
  exists row. split; [exact Hrow|]. split; congruence.
Qed.

Lemma _check_entries_ok data date (self : Backtester) signals self' :
  data_ok data -> signals_mirror data signals ->
  book_ok data date self ->
  _check_entries self date signals data = Some self' ->
  book_ok data date self'.
Proof.
  intros Hdata Hmirror Hok. unfold _check_entries.
  destruct (_check_daily_loss_limit self date) as [[gate stop]|] eqn:Hd; simpl;
    [|discriminate].
  apply daily_same_book in Hd.
  destruct stop; [intros [= <-]; eapply same_book_ok; eassumption|].
  destruct (_check_weekly_loss_limit gate date) as [gate'|] eqn:Hw; simpl; [|discriminate].
  apply weekly_same_book in Hw.
  pose proof (same_book_ok _ _ _ _ (same_book_trans _ _ _ Hd Hw) Hok) as Hok'.
  destruct (_ <=? _)%Z; [intros [= <-]; exact Hok'|].
  intros Hopen. eapply open_each_ok; [exact Hdata|exact Hok'| |exact Hopen].
  unfold ranked_entries. apply Forall_take.
  rewrite sort_by_strength_perm. apply candidates_ok, Hmirror.
Qed.

Lemma step_ok data bound date ma_period use_ma_exit signals (self : Backtester) self' :
  data_ok data -> signals_mirror data signals -> (bound <= date)%Z ->
  book_ok data bound self ->
  step ma_period use_ma_exit signals data self date = Some self' ->
  book_ok data date self'.
Proof.
  intros Hdata Hmirror Hle Hok. unfold step.
  destruct (_check_exits self date data ma_period use_ma_exit) as [s1|] eqn:H1; simpl;
    [|discriminate].
  destruct (_check_entries s1 date signals data) as [s2|] eqn:H2; simpl; [|discriminate].
  intros [= <-].
  eapply same_book_ok; [apply _update_equity_same_book|].
  eapply _check_entries_ok; [exact Hdata|exact Hmirror| |exact H2].
  eapply book_ok_later; [exact Hle|].
  eapply _check_exits_ok; eassumption.
Qed.

Lemma simulate_ok data ma_period use_ma_exit signals days :
  data_ok data -> signals_mirror data signals ->
  StronglySorted Z.lt days ->
  forall bound (self self' : Backtester),
    Forall (Z.le bound) days ->
    book_ok data bound self ->
    simulate ma_period use_ma_exit signals data self days = Some self' ->
    exists bound', book_ok data bound' self'.
Proof.
  intros Hdata Hmirror. induction 1 as [|date days Hs IH Hall]; intros bound self self' Hb Hok; simpl.
  - intros [= <-]. eauto.
  - destruct (step ma_period use_ma_exit signals data self date) as [s1|] eqn:H1; simpl;
      [|discriminate].
    apply Forall_cons in Hb as [Hb1 Hb].
    eapply IH; [|eapply step_ok; eassumption].
    eapply Forall_impl; [exact Hall|]. intros d Hd. simpl in Hd. lia.
Qed.

Lemma close_remaining_ok data bound :
  forall symbols (self self' : Backtester),
    book_ok data bound self ->
    close_remaining self data symbols = Some self' ->
    book_ok data bound self'.
Proof.
  induction symbols as [|k symbols IH]; intros self self' Hok; simpl.
  - intros [= <-]. exact Hok.
  - destruct (dict_get k (positions self)) as [p|] eqn:Hget; simpl; [|discriminate].
    destruct (data !! k) as [df|] eqn:Hdf; simpl; [|discriminate].
    destruct (last (rows df)) as [last_row|]; simpl; [|discriminate].
    destruct (_close_position self k _ _ df) as [s1|] eqn:Hclose; simpl; [|discriminate].
    intros Hrest. eapply IH; [|exact Hrest].
    eapply _close_position_ok; [exact Hok|exact Hdf| |exact Hclose].
    intros q Hq. destruct Hok as (_ & Hps & _). rewrite Forall_forall in Hps.
    destruct (Hps _ Hq) as (_ & _ & _ & df' & row & Hdf' & Hrow & _).
    simpl in *. rewrite Hdf in Hdf'. injection Hdf' as <-.
    apply lookup_lt_Some in Hrow. lia.
Qed.

Lemma insert_date_sorted d l :
  StronglySorted Z.lt l ->
  StronglySorted Z.lt (insert_date d l) /\
  forall x, x ∈ insert_date d l -> x = d \/ x ∈ l.
Proof.
  induction l as [|y l IH]; simpl; intros Hs.
  - split; [repeat constructor|]. intros x Hx. apply list_elem_of_singleton in Hx. auto.
  - apply StronglySorted_cons in Hs as [Hy Hs].
    destruct (Z.ltb_spec d y) as [Hlt|Hge].
    + split.
      * apply StronglySorted_cons. split; [|apply StronglySorted_cons; auto].
        constructor; [exact Hlt|]. eapply Forall_impl; [exact Hy|]. intros z Hz. simpl in Hz. lia.
      * intros x Hx. apply elem_of_cons in Hx as [->|Hx]; auto.
    + destruct (Z.eqb_spec d y) as [->|Hne].
      * split; [apply StronglySorted_cons; auto|]. intros x Hx. auto.
      * destruct (IH Hs) as [Hs' Hel]. split.
        -- apply StronglySorted_cons. split; [|exact Hs'].
           apply Forall_forall. intros x Hx. destruct (Hel _ Hx) as [->|Hin]; [lia|].
           rewrite Forall_forall in Hy. apply Hy, Hin.
        -- intros x Hx. apply elem_of_cons in Hx as [->|Hx].
           ++ right. apply list_elem_of_here.
           ++ destruct (Hel _ Hx) as [->|Hin]; [auto|]. right. apply list_elem_of_further, Hin.
Qed.

Lemma sorted_dates_sorted (l : list datetime) : StronglySorted Z.lt (sorted_dates l).
Proof.
  induction l as [|d l IH]; simpl; [constructor|]. apply insert_date_sorted, IH.
Qed.

Lemma imap_mirrors (f : nat -> bool * Q) (rs : list Row) :
  Forall2 mirrors
    (imap (fun i r => mkSignalRow (timestamp r) (close r) (f i).1 (f i).2) rs) rs.
Proof.
  revert f. induction rs as [|r rs IH]; intros f; simpl; [constructor|].
  constructor; [split; reflexivity|]. apply (IH (f ∘ S)).
Qed.

Lemma build_signals_mirror check_entry_signal symbols data signals :
  signals_mirror data signals ->
  signals_mirror data (build_signals check_entry_signal symbols data signals).
Proof.
  revert signals. induction symbols as [|symbol symbols IH]; intros signals Hm; simpl.
  - exact Hm.
  - destruct (data !! symbol) as [df|] eqn:Hdf; [|apply IH, Hm].
    apply IH. intros k sdf Hin. apply dict_set_elem in Hin as [[= -> ->]|Hin].
    + exists df. split; [exact Hdf|]. apply imap_mirrors.
    + apply Hm, Hin.
Qed.

Lemma Backtester_init_ok data bound ic risk stop maxp comm slip dl wl :
  0 <= slip -> book_ok data bound (Backtester_init ic risk stop maxp comm slip dl wl).
Proof. intros H. repeat split; [exact H|constructor|constructor]. Qed.

(** C8.  Over price data that honours the provider contract (in every frame
    the timestamps increase strictly, the prices are positive and each low is
    at or below its close) and with a non-negative slippage, every trade
    recorded by a completed [Backtester.run] has a maximum adverse excursion
    that is a number, not NaN, and at most zero, and a peak price at least
    its entry price. *)
Theorem C8_trade_excursion_and_peak check_entry_signal ic risk stop maxp comm slip dl wl
    symbols data ma_period use_ma_exit final :
  data_ok data ->
  0 <= slip ->
  run check_entry_signal (Backtester_init ic risk stop maxp comm slip dl wl)
      symbols data ma_period use_ma_exit = Some final ->
  forall t, t ∈ trades final ->
    (exists m, max_adverse_excursion t = Some m /\ m <= 0) /\
    t_entry_price t <= t_peak_price t.
Proof.
  intros Hdata Hslip. unfold run, _close_all_positions.
  set (signals := build_signals check_entry_signal symbols data []).
  destruct (simulate _ _ _ _ _ _) as [s1|] eqn:Hsim; simpl; [|discriminate].
  intros Hclose.
  assert (Hmirror : signals_mirror data signals).
  { apply build_signals_mirror. intros k sdf Hin. inversion Hin. }
  pose proof (sorted_dates_sorted (all_dates signals)) as Hsorted.
  assert (Hok : exists bound, book_ok data bound s1).
  { destruct (sorted_dates (all_dates signals)) as [|d days] eqn:Hdays.
    - simpl in Hsim. injection Hsim as <-. exists 0%Z. apply Backtester_init_ok, Hslip.
    - eapply (simulate_ok _ _ _ _ _ Hdata Hmirror Hsorted d); [|apply Backtester_init_ok, Hslip|exact Hsim].
      apply StronglySorted_cons in Hsorted as [Hall _].
      constructor; [lia|]. eapply Forall_impl; [exact Hall|]. intros x Hx. simpl in Hx. lia. }
  destruct Hok as [bound Hok].
  pose proof (close_remaining_ok _ _ _ _ _ Hok Hclose) as (_ & _ & Hts).
  intros t Ht. rewrite Forall_forall in Hts. destruct (Hts _ Ht) as [Hpeak Hmae].
  split; assumption.
Qed.

(** ** Universe exits *)

Lemma closes_weaken (a b : Backtester) c t :
  slippage_pct b = slippage_pct a -> commission_pct b = commission_pct a ->
  positions b ⊆ positions a ->
  closes b c t -> closes a c t.
Proof.
  intros Hs Hc Hsub (H1 & H2 & H3 & H4 & H5 & p & Hp & H6).
  unfold closes. rewrite <- Hs, <- Hc. repeat split; try assumption.
  exists p. split; [apply Hsub, Hp|exact H6].
Qed.

(** The ledger and the book after a run of closings. *)
Lemma close_each_trace data (cl : list Closing) :
  forall (self self' : Backtester),
    close_each self data cl = Some self' ->
    exists ts,
      trades self' = trades self ++ ts /\
      Forall2 (closes self) cl ts /\
      positions self' ⊆ positions self /\
      sublist (positions self').*1 (positions self).*1 /\
      (NoDup (positions self).*1 ->
       forall c, c ∈ cl -> c.1.1 ∉ (positions self').*1).
Proof.
  induction cl as [|[[symbol idx] details] cl IH]; intros self self'; simpl.
  - intros [= <-]. exists []. rewrite app_nil_r.
    split; [reflexivity|]. split; [constructor|]. split; [reflexivity|].
    split; [reflexivity|]. intros _ c Hc. inversion Hc.
  - destruct (data !! symbol) as [df|] eqn:Hdf; simpl; [|discriminate].
    destruct (_close_position self symbol idx details df) as [self1|] eqn:Hc; simpl;
      [|discriminate].
    intros Hrest. destruct (IH _ _ Hrest) as (ts & Hts & Hall & Hsub & Hkeys & Hgone).
    apply _close_position_inv in Hc as (position & ret & Hget & _ & Hself1).
    assert (Hpos1 : positions self1 = dict_del symbol (positions self))
      by (rewrite Hself1; reflexivity).
    assert (Hsub1 : positions self1 ⊆ positions self)
      by (rewrite Hpos1; apply dict_del_subseteq).
    eexists (_ :: ts). split; [|split; [|split; [|split]]].
    + rewrite Hts, Hself1. simpl. rewrite <- app_assoc. reflexivity.
    + constructor.
      * unfold closes. simpl. repeat split.
        exists position. split; [apply dict_get_elem, Hget|]. auto.
      * eapply Forall2_impl; [exact Hall|]. intros c t.
        apply closes_weaken; [rewrite Hself1; reflexivity..|exact Hsub1].
    + etransitivity; eassumption.
    + etransitivity; [exact Hkeys|]. rewrite Hpos1. apply dict_del_keys_sublist.
    + intros Hnd c Hin. apply elem_of_cons in Hin as [->|Hin].
      * simpl. intros Hk. eapply (dict_del_not_elem symbol _ Hnd).
        rewrite <- Hpos1. eapply elem_of_sublist; [exact Hk|exact Hkeys].
      * apply Hgone; [|exact Hin]. rewrite Hpos1. apply dict_del_NoDup, Hnd.
Qed.

Lemma scan_universe_closings date current_universe data (ps : list (string * Position)) cl :
  scan_universe_exits date current_universe data ps = Some cl ->
  Forall (universe_closing data date current_universe) cl /\
  forall symbol position df idx,
    (symbol, position) ∈ ps -> symbol ∉ current_universe ->
    data !! symbol = Some df -> index_of date (rows df) = Some idx ->
    exists details, (symbol, idx, details) ∈ cl.
Proof.
  revert cl. induction ps as [|[k p] ps IH]; intros cl; simpl.
  - intros [= <-]. split; [constructor|]. intros ? ? ? ? H. inversion H.
  - destruct (decide (k ∈ current_universe)) as [Hin|Hout].
    + rewrite bool_decide_eq_true_2 by exact Hin. intros H.
      destruct (IH _ H) as [Hall Hfind]. split; [exact Hall|].
      intros symbol position df idx Hel Hnot Hdf Hidx.
      apply elem_of_cons in Hel as [[= -> ->]|Hel]; [contradiction|]. eauto.
    + rewrite bool_decide_eq_false_2 by exact Hout.
      destruct (data !! k) as [df0|] eqn:Hdf0.
      * destruct (index_of date (rows df0)) as [i0|] eqn:Hi0.
        -- destruct (rows df0 !! i0) as [row0|] eqn:Hrow0; simpl; [|discriminate].
           destruct (scan_universe_exits date current_universe data ps) as [cl0|];
             simpl; [|discriminate].
           intros [= <-]. destruct (IH _ eq_refl) as [Hall Hfind]. split.
           ++ constructor; [|exact Hall]. unfold universe_closing. simpl.
              split; [exact Hout|]. split; [reflexivity|]. split; [reflexivity|].
              exists df0, row0. auto.
           ++ intros symbol position df idx Hel Hnot Hdf Hidx.
              apply elem_of_cons in Hel as [[= -> ->]|Hel].
              ** rewrite Hdf0 in Hdf. injection Hdf as <-.
                 rewrite Hi0 in Hidx. injection Hidx as <-.
                 eexists. apply list_elem_of_here.
              ** destruct (Hfind _ _ _ _ Hel Hnot Hdf Hidx) as [d Hd].
                 exists d. apply list_elem_of_further, Hd.
        -- intros H. destruct (IH _ H) as [Hall Hfind]. split; [exact Hall|].
           intros symbol position df idx Hel Hnot Hdf Hidx.
           apply elem_of_cons in Hel as [[= -> ->]|Hel]; [congruence|]. eauto.
      * intros H. destruct (IH _ H) as [Hall Hfind]. split; [exact Hall|].
        intros symbol position df idx Hel Hnot Hdf Hidx.
        apply elem_of_cons in Hel as [[= -> ->]|Hel]; [congruence|]. eauto.
Qed.

Lemma scan_exits_symbols stop_pct date data ma_period use_ma_exit ps ps' cl :
  scan_exits stop_pct date data ma_period use_ma_exit ps = Some (ps', cl) ->
  Forall (fun c : Closing => c.1.1 ∈ ps.*1 /\
                            (ed_exit_reason c.2 = trailing_stop \/
                             ed_exit_reason c.2 = ma_exit)) cl.
Proof.
  revert ps' cl. induction ps as [|[symbol position] ps IH]; intros ps' cl; csimpl.
  - intros [= <- <-]. constructor.
  - assert (Hmono : forall cl0 : list Closing,
              Forall (fun c : Closing => c.1.1 ∈ ps.*1 /\
                        (ed_exit_reason c.2 = trailing_stop \/
                         ed_exit_reason c.2 = ma_exit)) cl0 ->
              Forall (fun c : Closing => c.1.1 ∈ symbol :: ps.*1 /\
                        (ed_exit_reason c.2 = trailing_stop \/
                         ed_exit_reason c.2 = ma_exit)) cl0).
    { intros cl0 H0. eapply Forall_impl; [exact H0|]. intros c [H1 H2]. split; [|exact H2].
      apply list_elem_of_further, H1. }
    destruct (data !! symbol) as [df|] eqn:Hdf.
    + destruct (index_of date (rows df)) as [idx|] eqn:Hidx.
      * destruct (rows df !! idx) as [row|]; simpl; [|discriminate].
        destruct (check_exit_signal _ _ _ _ _ _ _) as [[trig details]|] eqn:Hsig; simpl;
          [|discriminate].
        destruct (scan_exits _ _ _ _ _ ps) as [[ps1 cl1]|]; simpl; [|discriminate].
        intros H. inversion H; subst.
        destruct trig; [constructor|]; try (apply Hmono; eapply IH; reflexivity).
        simpl. split; [apply list_elem_of_here|].
        apply check_exit_signal_inv in Hsig as (row' & _ & Hreason & Htrig & _).
        cbv zeta in Hreason, Htrig. rewrite Hreason.
        destruct (match series_max _ with Some _ => _ | None => false end); [auto|].
        simpl in Htrig.
        destruct use_ma_exit; simpl in Htrig; [|discriminate].
        rewrite <- Htrig. auto.
      * destruct (scan_exits _ _ _ _ _ ps) as [[ps1 cl1]|]; simpl; [|discriminate].
        intros H. inversion H; subst. apply Hmono. eapply IH; reflexivity.
    + destruct (scan_exits _ _ _ _ _ ps) as [[ps1 cl1]|]; simpl; [|discriminate].
      intros H. inversion H; subst. apply Hmono. eapply IH; reflexivity.
Qed.

Lemma scan_universe_symbols date current_universe data (ps : list (string * Position)) cl :
  scan_universe_exits date current_universe data ps = Some cl ->
  sublist (map (fun c : Closing => c.1.1) cl) ps.*1.
Proof.
  revert cl. induction ps as [|[k p] ps IH]; intros cl; csimpl.
  - intros [= <-]. constructor.
  - destruct (bool_decide (k ∈ current_universe)).
    + intros H. apply sublist_cons, IH, H.
    + destruct (data !! k) as [df0|]; [|intros H; apply sublist_cons, IH, H].
      destruct (index_of date (rows df0)) as [i0|]; [|intros H; apply sublist_cons, IH, H].
      destruct (rows df0 !! i0) as [row0|]; simpl; [|discriminate].
      destruct (scan_universe_exits date current_universe data ps) as [cl0|];
        simpl; [|discriminate].
      intros [= <-]. simpl. apply sublist_skip, IH. reflexivity.
Qed.

Lemma closes_symbols (self : Backtester) cl ts :
  Forall2 (closes self) cl ts -> map t_symbol ts = map (fun c : Closing => c.1.1) cl.
Proof.
  induction 1 as [|c t cl ts Hc _ IH]; simpl; [reflexivity|].
  destruct Hc as [-> _]. rewrite IH. reflexivity.
Qed.

Lemma dict_set_key {V} (k k' : string) (v : V) (d : list (string * V)) :
  k' ∈ (dict_set k v d).*1 -> k' = k \/ k' ∈ d.*1.
Proof.
  intros H. apply list_elem_of_fmap in H as ([k0 v0] & -> & Hin).
  apply dict_set_elem in Hin as [[= -> ->]|Hin]; [auto|].
  right. apply list_elem_of_fmap. exists (k0, v0). auto.
Qed.

Lemma open_each_trace (self : Backtester) data opps self' :
  open_each self data opps = Some self' ->
  trades self' = trades self /\
  forall k, k ∈ (positions self').*1 ->
            k ∈ (positions self).*1 \/ k ∈ map o_symbol opps.
Proof.
  revert self. induction opps as [|o opps IH]; intros self; simpl.
  - intros [= <-]. auto.
  - destruct (data !! o_symbol o) as [df|]; simpl; [|discriminate].
    destruct (_open_position self _ _ _ df) as [self1|] eqn:Ho; simpl; [|discriminate].
    intros Hrest. destruct (IH _ Hrest) as [Ht Hk].
    apply _open_position_inv in Ho as [[-> _]|(sizing & idx & _ & _ & _ & ->)].
    + split; [exact Ht|]. intros k Hin. destruct (Hk _ Hin) as [H|H]; [auto|].
      right. apply list_elem_of_further, H.
    + simpl in Ht, Hk. split; [exact Ht|]. intros k Hin.
      destruct (Hk _ Hin) as [H|H].
      * apply dict_set_key in H as [->|H]; [right; apply list_elem_of_here|auto].
      * right. apply list_elem_of_further, H.
Qed.

(** Whatever [_check_entries_filtered] opens is in the universe. *)
Lemma _check_entries_filtered_trace (self : Backtester) date signals data universe self' :
  _check_entries_filtered self date signals data universe = Some self' ->
  trades self' = trades self /\
  forall k, k ∈ (positions self').*1 -> k ∈ (positions self).*1 \/ k ∈ universe.
Proof.
  unfold _check_entries_filtered.
  destruct (_ <=? _)%Z; [intros [= <-]; auto|].
  intros H. apply open_each_trace in H as [Ht Hk]. split; [exact Ht|].
  intros k Hin. destruct (Hk _ Hin) as [H|H]; [auto|]. right.
  apply list_elem_of_fmap in H as (o & -> & Ho).
  unfold ranked_entries in Ho.
  eapply elem_of_sublist in Ho; [|apply sublist_take].
  rewrite sort_by_strength_perm in Ho.
  apply omap_opportunity_eligible in Ho. apply andb_true_iff in Ho as [Ho _].
  apply bool_decide_eq_true in Ho. exact Ho.
Qed.

(** The signal exits of a step concern held symbols only. *)
Lemma _check_exits_trace (self : Backtester) date data ma_period use_ma_exit self' :
  _check_exits self date data ma_period use_ma_exit = Some self' ->
  sublist (positions self').*1 (positions self).*1 /\
  exists ts,
    trades self' = trades self ++ ts /\
    Forall (fun t => t_symbol t ∈ (positions self).*1 /\
                     (exit_reason t = trailing_stop \/ exit_reason t = ma_exit)) ts.
Proof.
  unfold _check_exits.
  destruct (scan_exits _ _ _ _ _ _) as [[ps cl]|] eqn:Hscan; simpl; [|discriminate].
  intros Hclose.
  pose proof (scan_exits_symbols _ _ _ _ _ _ _ _ Hscan) as Hsym.
  apply scan_exits_positions, peak_updated_keys in Hscan.
  apply close_each_trace in Hclose as (ts & Hts & Hall & _ & Hkeys & _).
  simpl in Hts, Hkeys. rewrite Hscan in Hkeys. split; [exact Hkeys|].
  exists ts. split; [exact Hts|].
  clear -Hall Hsym. induction Hall as [|c t cl ts Hc _ IH]; [constructor|].
  apply Forall_cons in Hsym as [[H1 H2] Hsym]. constructor; [|apply IH, Hsym].
  destruct Hc as (-> & -> & _). auto.
Qed.

(** C4 (as amended).  On a step at which a held symbol is absent from the
    effective universe and has a price row stamped with the step's date, the
    position is force-closed with exit reason [removed_from_universe], dated
    at the step, at the step's close less slippage; the exit commission is
    charged; the symbol is no longer held after the step, and the step
    records no other trade for it (the universe check runs before the signal
    exits, and entries come from the universe only). *)
Theorem C4_universe_exit ma_period use_ma_exit signals data universe
    (self self' : Backtester) date symbol position df idx row :
  NoDup (positions self).*1 ->
  dict_get symbol (positions self) = Some position ->
  symbol ∉ universe ->
  data !! symbol = Some df ->
  index_of date (rows df) = Some idx ->
  rows df !! idx = Some row ->
  realistic_step ma_period use_ma_exit signals data universe self date = Some self' ->
  (symbol ∉ (positions self').*1) /\
  exists before trade after,
    trades self' = trades self ++ before ++ trade :: after /\
    t_symbol trade = symbol /\
    exit_reason trade = removed_from_universe /\
    exit_date trade = date /\
    exit_price trade = close row * (1 - slippage_pct self) /\
    t_entry_price trade = entry_price position /\
    t_num_contracts trade = p_num_contracts position /\
    return_usd trade =
      p_num_contracts position * (exit_price trade - entry_price position)
      - p_num_contracts position * exit_price trade * commission_pct self /\
    forall t, t ∈ before ++ after -> t_symbol t <> symbol.
Proof.
  intros Hnd Hget Hout Hdf Hidx Hrow. unfold realistic_step, _check_universe_exits.
  destruct (scan_universe_exits date universe data (positions self)) as [cl|] eqn:Hscan;
    simpl; [|discriminate].
  destruct (close_each self data cl) as [s1|] eqn:Hclose; simpl; [|discriminate].
  destruct (_check_exits s1 date data ma_period use_ma_exit) as [s2|] eqn:Hexits; simpl;
    [|discriminate].
  destruct (_check_entries_filtered s2 date signals data universe) as [s3|] eqn:Hentries;
    simpl; [|discriminate].
  intros [= <-]. simpl.
  (* the universe phase *)
  pose proof (scan_universe_symbols _ _ _ _ _ Hscan) as Hsub.
  destruct (scan_universe_closings _ _ _ _ _ Hscan) as [Hall Hfind].
  destruct (Hfind _ _ _ _ (dict_get_elem _ _ _ Hget) Hout Hdf Hidx) as [details Hin].
  destruct (close_each_trace _ _ _ _ Hclose) as (ts1 & Hts1 & Hcl & _ & Hkeys1 & Hgone).
  assert (Hsym1 : symbol ∉ (positions s1).*1) by exact (Hgone Hnd _ Hin).
  assert (Hnd1 : NoDup (map t_symbol ts1)).
  { rewrite (closes_symbols _ _ _ Hcl). eapply sublist_NoDup; [exact Hnd|exact Hsub]. }
  apply list_elem_of_lookup in Hin as [i Hi].
  destruct (Forall2_lookup_l _ _ _ _ _ Hcl Hi) as (trade & Hti & Hcloses).
  rewrite Forall_forall in Hall.
  destruct (Hall _ (list_elem_of_lookup_2 _ _ _ Hi))
    as (_ & Hreason & Hdate & df' & row' & Hdf' & _ & Hrow' & Hcl').
  simpl in *. rewrite Hdf in Hdf'. injection Hdf' as <-.
  rewrite Hrow in Hrow'. injection Hrow' as <-.
  destruct Hcloses as (Hs & Hr & Hd & Hp & Hret & p & Hp_in & _ & Hpe & Hpn).
  simpl in *.
  assert (p = position).
  { apply (dict_get_NoDup _ _ _ Hnd) in Hp_in. congruence. }
  subst p.
  (* the signal exits and the entries *)
  destruct (_check_exits_trace _ _ _ _ _ _ Hexits) as (Hkeys2 & ts2 & Hts2 & Hall2).
  destruct (_check_entries_filtered_trace _ _ _ _ _ _ Hentries) as [Hts3 Hkeys3].
  assert (Hsym2 : symbol ∉ (positions s2).*1).
  { intros Hk. apply Hsym1. eapply elem_of_sublist; eassumption. }
  split.
  - intros Hk. destruct (Hkeys3 _ Hk) as [H|H]; contradiction.
  - pose proof (take_drop_middle _ _ _ Hti) as Hsplit.
    exists (take i ts1), trade, (drop (S i) ts1 ++ ts2).
    split.
    { rewrite Hts3, Hts2, Hts1, <- Hsplit at 1. rewrite <- !app_assoc. reflexivity. }
    split; [exact Hs|]. split; [congruence|]. split; [congruence|].
    split; [rewrite Hp, Hcl'; reflexivity|].
    split; [exact Hpe|]. split; [exact Hpn|].
    split; [rewrite Hret, Hpe, Hpn; reflexivity|].
    intros t Ht Heq. rewrite <- Hsplit, map_app in Hnd1. simpl in Hnd1.
    apply NoDup_app in Hnd1 as (_ & Hdisj & Hnd1).
    apply NoDup_cons in Hnd1 as [Hnot _].
    rewrite app_assoc in Ht. apply elem_of_app in Ht as [Ht|Ht].
    + apply elem_of_app in Ht as [Ht|Ht].
      * apply (Hdisj (t_symbol t)).
        -- apply list_elem_of_fmap. eauto.
        -- rewrite Heq, <- Hs. apply list_elem_of_here.
      * apply Hnot. rewrite Hs, <- Heq. apply list_elem_of_fmap. eauto.
    + rewrite Forall_forall in Hall2. destruct (Hall2 _ Ht) as [Hheld _].
      apply Hsym1. rewrite <- Heq. exact Hheld.
Qed.

(** ** The worked scenario *)

Lemma example_frames_ok : frame_ok example_aaa /\ frame_ok example_bbb.
Proof.
  split; (split; cbn;
          [repeat first [exact I | apply SSorted_nil | apply SSorted_cons
                        | apply Forall_nil | apply List.Forall_cons | reflexivity]
          |repeat first [exact I | apply Forall_nil | apply List.Forall_cons
                        | split; [reflexivity|vm_compute; discriminate]]]).
Qed.

Lemma example_data_ok : data_ok example_data.
Proof.
  intros symbol df H. unfold example_data in H.
  apply lookup_insert_Some in H as [[_ <-]|[_ H]]; [apply example_frames_ok|].
  apply lookup_insert_Some in H as [[_ <-]|[_ H]]; [apply example_frames_ok|].
  rewrite lookup_empty in H. discriminate.
Qed.

Lemma C1_capital_conservation_witness :
  run example_entry_signal example_backtester ["AAA"; "BBB"]%string example_data 2 true
    = Some example_final /\
  length (trades example_final) = 2%nat /\
  positions example_final = [] /\
  capital example_final + open_notional (positions example_final)
    == 10000 + realized (trades example_final).
Proof.
  assert (Hrun : run example_entry_signal example_backtester ["AAA"; "BBB"]%string
                     example_data 2 true = Some example_final)
    by (vm_compute; reflexivity).
  split; [exact Hrun|]. split; [reflexivity|].
  exact (proj1 C1_capital_conservation _ _ _ _ _ _ _ _ _ _ _ _ _ _ Hrun).
Defined.

Lemma C4_universe_exit_witness :
  ("AAA"%string ∉ (positions example_removed).*1) /\
  exists before trade after,
    trades example_removed = trades example_halved ++ before ++ trade :: after /\
    t_symbol trade = "AAA"%string /\
    exit_reason trade = removed_from_universe /\
    exit_price trade = 9 * (1 - slippage_pct example_halved).
Proof.
  destruct (C4_universe_exit 2 true example_signals example_data ["BBB"%string]
              example_halved example_removed (example_day 3) "AAA"
              example_aaa_position example_aaa 3
              (example_row (example_day 3) 12 12 9 9 50))
    as (Hgone & before & trade & after & Hts & Hsym & Hreason & _ & Hprice & _).
  - compute_done.
  - vm_compute. reflexivity.
  - compute_done.
  - vm_compute. reflexivity.
  - vm_compute. reflexivity.
  - reflexivity.
  - vm_compute. reflexivity.
  - split; [exact Hgone|]. exists before, trade, after. auto.
Defined.

(** C4 (the claim as stated fails).  With AAA dropped from the universe on
    the fourth bar, whose close is 9, the forced exit is recorded at
    9 * (1 - 0.001) = 8.991, not at 9: the slippage is applied. *)
Lemma C4_slippage_counterexample :
  exists trade,
    realistic_step 2 true example_signals example_data ["BBB"%string]
                   example_halved (example_day 3) = Some example_removed /\
    close <$> rows example_aaa !! 3%nat = Some 9 /\
    trades example_removed = [trade] /\
    t_symbol trade = "AAA"%string /\
    exit_reason trade = removed_from_universe /\
    exit_price trade == 9 * (1 - (1 # 1000)) /\
    ~ exit_price trade == 9.
Proof.
  eexists. split; [vm_compute; reflexivity|]. split; [reflexivity|].
  split; [reflexivity|]. split; [reflexivity|]. split; [reflexivity|].
  split; [vm_compute; reflexivity|]. vm_compute. discriminate.
Qed.

Lemma C7_entry_ranking_witness :
  exists ranked rest,
    ranked ++ rest ≡ₚ
      entry_opportunities_filtered example_single_slot (example_day 1)
        example_three_signals ["S90"; "S95"; "S40"]%string /\
    length ranked = 1%nat /\
    (forall x y, x ∈ ranked -> y ∈ rest -> stronger x y) /\
    (positions example_one_entry).*1 = map o_symbol ranked.
Proof.
  destruct (proj1 C7_entry_ranking example_single_slot (example_day 1)
              example_three_signals example_three_data
              ["S90"; "S95"; "S40"]%string example_one_entry)
    as (ranked & rest & Hperm & Hlen & _ & Htop & _ & Hkeys).
  - compute_done.
  - reflexivity.
  - reflexivity.
  - vm_compute. reflexivity.
  - exists ranked, rest. split; [exact Hperm|]. split; [exact Hlen|].
    split; [exact Htop|exact Hkeys].
Defined.

Lemma C8_trade_excursion_and_peak_witness :
  run example_entry_signal example_backtester ["AAA"; "BBB"]%string example_data 2 true
    = Some example_final /\
  length (trades example_final) = 2%nat /\
  Forall (fun t => (exists m, max_adverse_excursion t = Some m /\ m <= 0) /\
                   t_entry_price t <= t_peak_price t)
         (trades example_final).
Proof.
  split; [vm_compute; reflexivity|]. split; [reflexivity|].
  apply Forall_forall.
  apply (C8_trade_excursion_and_peak example_entry_signal 10000 (2 # 100) (20 # 100) 5
           (1 # 1000) (1 # 1000) (3 # 100) (8 # 100) ["AAA"; "BBB"]%string
           example_data 2 true example_final).
  - exact example_data_ok.
  - vm_compute. discriminate.
  - vm_compute. reflexivity.
Defined.

(** * The rest of the strategy code: properties *)

(** ** Position sizer *)

Lemma sizing_refused (s : PositionSizer) (entry_price : Q) (n : nat) :
  (max_positions s <= Z.of_nat n)%Z ->
  calculate_position_size s entry_price n
    = Some (mkSizing 0 0 0 0 false "Max positions reached").
Proof.
  intros H. unfold calculate_position_size.
  apply Z.ltb_ge in H. rewrite H. reflexivity.
Qed.

Lemma sizing_slot (s : PositionSizer) (entry_price : Q) (n : nat) :
  (Z.of_nat n < max_positions s)%Z ->
  calculate_position_size s entry_price n =
    (position_size_usd ← fdiv (account_size s * risk_per_trade_pct s) (stop_loss_pct s);
     position_size_pct ← fdiv position_size_usd (account_size s);
     let capped := Qltb (max_position_size_pct s) position_size_pct in
     let usd := if capped then account_size s * max_position_size_pct s
                else position_size_usd in
     num_contracts ← fdiv usd entry_price;
     Some (mkSizing usd
             (if capped then max_position_size_pct s else position_size_pct)
             num_contracts
             (if capped then usd * stop_loss_pct s
              else account_size s * risk_per_trade_pct s)
             true "Position sizing calculated")).
Proof.
  intros H. unfold calculate_position_size.
  apply Z.ltb_lt in H. rewrite H. simpl.
  destruct (fdiv _ (stop_loss_pct s)) as [usd|]; [|reflexivity]. simpl.
  destruct (fdiv usd _) as [pct|]; [|reflexivity]. simpl.
  destruct (Qltb _ pct); reflexivity.
Qed.

(** X1.  [PositionSizer.calculate_position_size] has a finite result
    unless a slot is free and one of its three divisors (the stop
    distance, the account size, the entry price) is zero.  With a full
    book it answers a refusal whose sizes are all zero, whatever the other
    numbers are. *)
Theorem X1_sizing_defined (s : PositionSizer) (entry_price : Q) (n : nat) :
  (calculate_position_size s entry_price n = None <->
   (Z.of_nat n < max_positions s)%Z /\
   (stop_loss_pct s == 0 \/ account_size s == 0 \/ entry_price == 0)) /\
  ((max_positions s <= Z.of_nat n)%Z <->
   exists r, calculate_position_size s entry_price n = Some r /\ can_open r = false) /\
  (forall r, calculate_position_size s entry_price n = Some r ->
             can_open r = false ->
             position_size_usd r = 0 /\ position_size_pct r = 0 /\
             num_contracts r = 0 /\ risk_usd r = 0).
Proof.
  destruct (Z.lt_ge_cases (Z.of_nat n) (max_positions s)) as [Hslot | Hfull].
  - rewrite (sizing_slot _ _ _ Hslot). unfold fdiv.
    destruct (Qeq_bool (stop_loss_pct s) 0) eqn:Hs; simpl.
    { apply Qeq_bool_iff in Hs. split; [|split].
      - split; [intros _; split; [exact Hslot|left; exact Hs]|reflexivity].
      - split; [lia|intros (r & Hr & _); discriminate].
      - discriminate. }
    destruct (Qeq_bool (account_size s) 0) eqn:Ha; simpl.
    { apply Qeq_bool_iff in Ha. split; [|split].
      - split; [intros _; split; [exact Hslot|right; left; exact Ha]|reflexivity].
      - split; [lia|intros (r & Hr & _); discriminate].
      - discriminate. }
    destruct (Qeq_bool entry_price 0) eqn:Hp; simpl.
    { apply Qeq_bool_iff in Hp. split; [|split].
      - split; [intros _; split; [exact Hslot|right; right; exact Hp]|reflexivity].
      - split; [lia|intros (r & Hr & _); discriminate].
      - discriminate. }
    apply Qeq_bool_false in Hs, Ha, Hp. split; [|split].
    + split; [discriminate|]. intros (_ & [H | [H | H]]); contradiction.
    + split; [lia|]. intros (r & Hr & Hc). inversion Hr; subst. discriminate.
    + intros r Hr Hc. inversion Hr; subst. discriminate.
  - rewrite (sizing_refused _ _ _ Hfull). split; [|split].
    + split; [discriminate|]. intros [H _]. lia.
    + split; [|intros _; exact Hfull]. intros _. eexists. split; reflexivity.
    + intros r Hr _. inversion Hr. repeat split.
Qed.

Lemma sizing_bounds (s : PositionSizer) (entry_price : Q) (n : nat) (r : Sizing) :
  0 < account_size s -> 0 < stop_loss_pct s ->
  calculate_position_size s entry_price n = Some r ->
  can_open r = true ->
  position_size_usd r <= account_size s * max_position_size_pct s /\
  position_size_usd r <= account_size s * risk_per_trade_pct s / stop_loss_pct s /\
  risk_usd r <= account_size s * risk_per_trade_pct s /\
  risk_usd r == position_size_usd r * stop_loss_pct s /\
  position_size_usd r == position_size_pct r * account_size s /\
  position_size_pct r <= max_position_size_pct s /\
  position_size_usd r == num_contracts r * entry_price.
Proof.
  intros Ha Hs Hr Hopen.
  destruct (Z.lt_ge_cases (Z.of_nat n) (max_positions s)) as [Hslot | Hfull].
  2: { rewrite (sizing_refused _ _ _ Hfull) in Hr. inversion Hr; subst. discriminate. }
  rewrite (sizing_slot _ _ _ Hslot) in Hr.
  rewrite (fdiv_nonzero _ (stop_loss_pct s)) in Hr by lra. simpl in Hr.
  rewrite (fdiv_nonzero _ (account_size s)) in Hr by lra. simpl in Hr.
  set (usd := account_size s * risk_per_trade_pct s / stop_loss_pct s) in *.
  set (pct := usd / account_size s) in *.
  destruct (fdiv _ entry_price) as [contracts|] eqn:Hc; [|discriminate].
  apply fdiv_Some in Hc. destruct Hc as [Hp ->].
  simpl in Hr. inversion Hr; subst r; clear Hr. simpl.
  assert (Husd : usd == pct * account_size s) by (unfold pct; field; lra).
  assert (Hrisk : account_size s * risk_per_trade_pct s == usd * stop_loss_pct s)
    by (unfold usd; field; lra).
  destruct (Qltb (max_position_size_pct s) pct) eqn:Hcap.
  - apply Qltb_lt in Hcap.
    assert (Hlt : account_size s * max_position_size_pct s < usd).
    { rewrite Husd. rewrite (Qmult_comm pct). apply Qmult_lt_l; assumption. }
    split; [apply Qle_refl|]. split; [apply Qlt_le_weak; exact Hlt|].
    split; [rewrite Hrisk; apply Qmult_le_compat_r; lra|].
    split; [reflexivity|]. split; [ring|]. split; [apply Qle_refl|].
    field. exact Hp.
  - apply Qltb_ge in Hcap.
    split; [rewrite Husd; rewrite (Qmult_comm pct); apply Qmult_le_l; assumption|].
    split; [apply Qle_refl|]. split; [apply Qle_refl|].
    split; [exact Hrisk|]. split; [exact Husd|]. split; [exact Hcap|].
    field. exact Hp.
Qed.

(** X2.  A sizing that opens, for a positive account and stop distance,
    stays within both limits of the sizer: the position is at most the
    capped fraction of the account and at most the risk-based size, and
    the amount at risk is the position times the stop distance, never
    above the risk budget [account * risk%].  The reported percentage and
    quantity are consistent with the dollar size. *)
Theorem X2_sizing_within_budget (s : PositionSizer) (entry_price : Q) (n : nat) (r : Sizing) :
  0 < account_size s -> 0 < stop_loss_pct s ->
  calculate_position_size s entry_price n = Some r ->
  can_open r = true ->
  position_size_usd r <= account_size s * max_position_size_pct s /\
  position_size_usd r <= account_size s * risk_per_trade_pct s / stop_loss_pct s /\
  risk_usd r <= account_size s * risk_per_trade_pct s /\
  risk_usd r == position_size_usd r * stop_loss_pct s /\
  position_size_usd r == position_size_pct r * account_size s /\
  position_size_pct r <= max_position_size_pct s /\
  position_size_usd r == num_contracts r * entry_price.
Proof. apply sizing_bounds. Qed.

Lemma X2_sizing_within_budget_witness :
  exists r,
    calculate_position_size default_sizer (25 # 100) 0 = Some r /\
    position_size_usd r <= account_size default_sizer * max_position_size_pct default_sizer /\
    risk_usd r <= account_size default_sizer * risk_per_trade_pct default_sizer /\
    risk_usd r == position_size_usd r * stop_loss_pct default_sizer.
Proof.
  eexists. split; [reflexivity|].
  destruct (X2_sizing_within_budget default_sizer (25 # 100) 0 _
              ltac:(reflexivity) ltac:(reflexivity) eq_refl eq_refl)
    as (H1 & _ & H3 & H4 & _).
  split; [exact H1|]. split; [exact H3|exact H4].
Defined.

(** X3.  For a positive account and stop distance, filling every slot
    with a position of any sizing the sizer hands out stays within
    [get_max_portfolio_exposure], and the total amount at risk within
    [get_max_portfolio_risk]; the two bounds differ by the stop distance. *)
Theorem X3_portfolio_bounds (s : PositionSizer) (entry_price : Q) (n : nat)
    (r : Sizing) (exposure : Q) :
  0 < account_size s -> 0 < stop_loss_pct s ->
  calculate_position_size s entry_price n = Some r ->
  can_open r = true ->
  get_max_portfolio_exposure s = Some exposure ->
  inject_Z (max_positions s) * position_size_usd r <= exposure /\
  inject_Z (max_positions s) * risk_usd r <= get_max_portfolio_risk s /\
  get_max_portfolio_risk s == exposure * stop_loss_pct s.
Proof.
  intros Ha Hs Hr Hopen He.
  destruct (sizing_bounds s entry_price n r Ha Hs Hr Hopen)
    as (_ & Husd & Hrisk & _).
  assert (Hmax : 0 <= inject_Z (max_positions s)).
  { destruct (calculate_position_size_inv _ _ _ _ Hr) as [[Hc _] | (_ & Hlt & _)];
      [congruence|].
    change 0 with (inject_Z 0). rewrite <- Zle_Qle. lia. }
  unfold get_max_portfolio_exposure in He.
  rewrite fdiv_nonzero in He by lra. simpl in He. inversion He; subst exposure; clear He.
  unfold get_max_portfolio_risk.
  split; [rewrite !(Qmult_comm (inject_Z (max_positions s))); apply Qmult_le_compat_r; assumption|].
  split; [rewrite !(Qmult_comm (inject_Z (max_positions s))); apply Qmult_le_compat_r; assumption|].
  field. lra.
Qed.

Lemma X3_portfolio_bounds_witness :
  exists r exposure,
    calculate_position_size default_sizer (25 # 100) 0 = Some r /\
    get_max_portfolio_exposure default_sizer = Some exposure /\
    inject_Z (max_positions default_sizer) * position_size_usd r <= exposure /\
    inject_Z (max_positions default_sizer) * risk_usd r
      <= get_max_portfolio_risk default_sizer.
Proof.
  eexists. eexists. split; [reflexivity|]. split; [reflexivity|].
  destruct (X3_portfolio_bounds default_sizer (25 # 100) 0 _ _
              ltac:(reflexivity) ltac:(reflexivity) eq_refl eq_refl eq_refl)
    as (H1 & H2 & _).
  split; [exact H1|exact H2].
Defined.

(** X4.  The module-level [calculate_position_size] always opens (it asks
    for the first of five slots) and sizes the position at the smaller of
    the risk-based amount [account * risk% / stop%] and 20% of the
    account, the dataclass's default cap. *)
Theorem X4_simple_sizing (account entry_price risk stop : Q) :
  0 < account -> 0 < stop -> ~ entry_price == 0 ->
  exists r,
    position_sizer.calculate_position_size account entry_price risk stop = Some r /\
    can_open r = true /\
    position_size_usd r == Qmin (account * risk / stop) (account * (20 # 100)) /\
    num_contracts r == position_size_usd r / entry_price.
Proof.
  intros Ha Hs Hp. unfold position_sizer.calculate_position_size.
  set (s := mkPositionSizer account risk stop 5 (20 # 100)).
  rewrite (sizing_slot s entry_price 0) by reflexivity. simpl.
  rewrite (fdiv_nonzero _ stop) by lra. simpl.
  rewrite (fdiv_nonzero _ account) by lra. simpl.
  set (usd := account * risk / stop).
  assert (Husd : usd == usd / account * account) by (field; lra).
  destruct (Qltb (20 # 100) (usd / account)) eqn:Hcap.
  - apply Qltb_lt in Hcap.
    rewrite (fdiv_nonzero _ entry_price) by exact Hp. simpl.
    eexists. split; [reflexivity|]. simpl. split; [reflexivity|].
    split; [|reflexivity].
    symmetry. apply Q.min_r. rewrite Husd. rewrite (Qmult_comm account).
    apply Qmult_le_compat_r; lra.
  - apply Qltb_ge in Hcap.
    rewrite (fdiv_nonzero _ entry_price) by exact Hp. simpl.
    eexists. split; [reflexivity|]. simpl. split; [reflexivity|].
    split; [|reflexivity].
    symmetry. apply Q.min_l. rewrite Husd at 1. rewrite (Qmult_comm account).
    apply Qmult_le_compat_r; lra.
Qed.

Lemma X4_simple_sizing_witness :
  exists r,
    position_sizer.calculate_position_size 10000 (25 # 100) (2 # 100) (20 # 100) = Some r /\
    can_open r = true /\
    position_size_usd r == 1000 /\
    num_contracts r == 4000.
Proof.
  destruct (X4_simple_sizing 10000 (25 # 100) (2 # 100) (20 # 100)
              ltac:(reflexivity) ltac:(reflexivity) ltac:(discriminate))
    as (r & Hr & Hopen & Husd & Hn).
  exists r. split; [exact Hr|]. split; [exact Hopen|].
  assert (H1000 : position_size_usd r == 1000) by (rewrite Husd; reflexivity).
  split; [exact H1000|]. rewrite Hn, H1000. reflexivity.
Defined.

(** ** Moving averages *)

Lemma find_column_calculate_sma (df : DataFrame) (p q : nat) :
  find_column q (sma_columns (calculate_sma df p)) =
    if (p =? q)%nat then Some (rolling_mean p (map close (rows df)))
    else find_column q (sma_columns df).
Proof.
  unfold calculate_sma. simpl.
  destruct (Nat.eqb_spec p q) as [->|Hne]; [reflexivity|].
  induction (sma_columns df) as [|[p' c] cols IH]; [reflexivity|].
  rewrite filter_cons. simpl.
  destruct (Nat.eqb_spec p' p) as [->|Hne']; simpl.
  - destruct (Nat.eqb_spec p q); [contradiction|]. exact IH.
  - destruct (Nat.eqb_spec p' q); [reflexivity|]. exact IH.
Qed.

Lemma rows_calculate_multiple_smas (df : DataFrame) (periods : list nat) :
  rows (calculate_multiple_smas df periods) = rows df.
Proof.
  unfold calculate_multiple_smas. revert df.
  induction periods as [|p ps IH]; intros df; [reflexivity|].
  simpl. rewrite IH. reflexivity.
Qed.

(** X5.  [calculate_multiple_smas] leaves the price rows alone, gives every
    requested period its [sma_<period>] column computed from the closes
    (whatever column of that name the frame carried before), and keeps the
    columns of the periods it was not asked for.  Computing an SMA twice is
    the same as computing it once. *)
Theorem X5_multiple_smas (df : DataFrame) (periods : list nat) (p : nat) :
  rows (calculate_multiple_smas df periods) = rows df /\
  find_column p (sma_columns (calculate_multiple_smas df periods)) =
    (if bool_decide (p ∈ periods)
     then Some (rolling_mean p (map close (rows df)))
     else find_column p (sma_columns df)) /\
  calculate_sma (calculate_sma df p) p = calculate_sma df p.
Proof.
  split; [apply rows_calculate_multiple_smas|]. split.
  - unfold calculate_multiple_smas. revert df.
    induction periods as [|q ps IH]; intros df; [reflexivity|].
    simpl. rewrite IH.
    destruct (bool_decide_reflect (p ∈ ps)) as [Hin|Hnin].
    + rewrite bool_decide_eq_true_2 by (right; exact Hin). reflexivity.
    + rewrite find_column_calculate_sma.
      destruct (Nat.eqb_spec q p) as [->|Hne].
      * rewrite bool_decide_eq_true_2 by left. reflexivity.
      * rewrite bool_decide_eq_false_2; [reflexivity|].
        intros H. apply elem_of_cons in H. destruct H as [->|H]; [congruence|contradiction].
  - unfold calculate_sma. simpl. f_equal. f_equal.
    rewrite filter_cons. simpl. rewrite Nat.eqb_refl. simpl.
    induction (sma_columns df) as [|[p' c] cols IH]; [reflexivity|].
    rewrite !filter_cons. simpl.
    destruct (Nat.eqb_spec p' p) as [->|Hne']; simpl.
    + exact IH.
    + rewrite filter_cons. simpl.
      destruct (Nat.eqb_spec p' p); [contradiction|]. simpl.
      f_equal. exact IH.
Qed.

Lemma Qsum_bounds (lo hi : Q) (l : list Q) :
  (forall x, x ∈ l -> lo <= x <= hi) ->
  lo * inject_Z (Z.of_nat (length l)) <= Qsum l <= hi * inject_Z (Z.of_nat (length l)).
Proof.
  induction l as [|x l IH]; intros H.
  - unfold Qsum. simpl. change (inject_Z (Z.of_nat 0)) with 0. lra.
  - assert (Hx : lo <= x <= hi) by (apply H; left).
    assert (Hl : forall y, y ∈ l -> lo <= y <= hi) by (intros y Hy; apply H; right; exact Hy).
    specialize (IH Hl).
    change (Qsum (x :: l)) with (x + Qsum l).
    change (length (x :: l)) with (S (length l)).
    rewrite Nat2Z.inj_succ. unfold Z.succ. rewrite inject_Z_plus.
    change (inject_Z 1) with 1. lra.
Qed.

Lemma lookup_rolling_mean_at (period : nat) (xs : list Q) (i : nat) :
  (i < length xs)%nat ->
  rolling_mean period xs !! i = Some (rolling_mean_at period xs i).
Proof.
  intros Hi. unfold rolling_mean.
  rewrite list_lookup_fmap, lookup_seq_lt by exact Hi. reflexivity.
Qed.

Lemma length_window (period : nat) (xs : list Q) (i : nat) :
  (i < length xs)%nat -> (period <= S i)%nat -> length (window period xs i) = period.
Proof.
  intros Hi Hp. unfold window. rewrite length_take, length_drop. lia.
Qed.

Lemma rolling_mean_at_full (period : nat) (xs : list Q) (i : nat) :
  (i < length xs)%nat -> (1 <= period <= S i)%nat ->
  rolling_mean_at period xs i
    = Some (Qsum (window period xs i) / inject_Z (Z.of_nat period)).
Proof.
  intros Hi Hp. unfold rolling_mean_at.
  destruct period as [|p]; [lia|].
  destruct (Nat.leb_spec (S p) (S i)) as [_|H]; [|lia].
  fold (window (S p) xs i).
  rewrite (length_window (S p) xs i Hi) by lia.
  rewrite Nat.eqb_refl. reflexivity.
Qed.

Lemma rolling_mean_at_warmup (period : nat) (xs : list Q) (i : nat) :
  (S i < period)%nat \/ period = 0%nat -> rolling_mean_at period xs i = None.
Proof.
  intros H. unfold rolling_mean_at.
  destruct period as [|p]; [reflexivity|].
  destruct (Nat.leb_spec (S p) (S i)) as [H'|_]; [lia|reflexivity].
Qed.

(** X6.  The rolling mean behind [calculate_sma] (and the average-volume
    column) has one value per row.  It is NaN on the warm-up rows, where
    fewer than [period] observations are available, and for a zero period.
    From row [period - 1] on it is the arithmetic mean of the last
    [period] observations, and so lies between any two bounds of that
    window. *)
Theorem X6_rolling_mean (period : nat) (xs : list Q) (i : nat) :
  length (rolling_mean period xs) = length xs /\
  ((i < length xs)%nat -> (S i < period)%nat \/ period = 0%nat ->
   rolling_mean period xs !! i = Some None) /\
  ((i < length xs)%nat -> (1 <= period <= S i)%nat ->
   exists m,
     rolling_mean period xs !! i = Some (Some m) /\
     length (window period xs i) = period /\
     m * inject_Z (Z.of_nat period) == Qsum (window period xs i) /\
     forall lo hi, (forall x, x ∈ window period xs i -> lo <= x <= hi) -> lo <= m <= hi).
Proof.
  split; [unfold rolling_mean; rewrite length_map, length_seq; reflexivity|].
  split.
  - intros Hi Hw. rewrite lookup_rolling_mean_at by exact Hi.
    rewrite rolling_mean_at_warmup by exact Hw. reflexivity.
  - intros Hi Hp. rewrite lookup_rolling_mean_at by exact Hi.
    rewrite rolling_mean_at_full by assumption.
    assert (Hpos : 0 < inject_Z (Z.of_nat period)).
    { change 0 with (inject_Z 0). rewrite <- Zlt_Qlt. lia. }
    eexists. split; [reflexivity|].
    split; [apply length_window; [exact Hi|lia]|].
    split; [field; lra|].
    intros lo hi Hb. apply Qsum_bounds in Hb.
    rewrite (length_window period xs i Hi) in Hb by lia.
    destruct Hb as [Hlo Hhi]. split.
    + apply Qle_shift_div_l; assumption.
    + apply Qle_shift_div_r; assumption.
Qed.

Lemma column_calculate_sma (df : DataFrame) (p : nat) :
  column (calculate_sma df p) p = rolling_mean p (map close (rows df)).
Proof.
  unfold column. rewrite find_column_calculate_sma, Nat.eqb_refl. reflexivity.
Qed.

Lemma lookup_above_ma (df : DataFrame) (p i : nat) (r : Row) :
  rows df !! i = Some r ->
  (check_price_above_ma df p).2 !! i
    = Some (gt_nan (Some (close r)) (rolling_mean_at p (map close (rows df)) i)).
Proof.
  intros Hr. unfold check_price_above_ma. cbn [snd].
  rewrite column_calculate_sma. change (rows (calculate_sma df p)) with (rows df).
  rewrite lookup_zip_with, list_lookup_fmap, Hr. cbn.
  rewrite lookup_rolling_mean_at; [reflexivity|].
  rewrite length_map. apply lookup_lt_Some in Hr. exact Hr.
Qed.

(** X7.  [get_ma_regime] flags every row as exactly one of uptrend and
    downtrend.  A row is an uptrend row exactly when its SMA is available
    and its close is strictly above it; every other row, including each
    warm-up row and a close equal to the SMA, is a downtrend row. *)
Theorem X7_ma_regime (df : DataFrame) (p i : nat) (r : Row) :
  rows df !! i = Some r ->
  let regime := get_ma_regime df p in
  rows (mr_frame regime) = rows df /\
  length (regime_uptrend regime) = length (rows df) /\
  exists up,
    regime_uptrend regime !! i = Some up /\
    above_ma regime !! i = Some up /\
    regime_downtrend regime !! i = Some (negb up) /\
    (up = true <->
     exists m, rolling_mean_at p (map close (rows df)) i = Some m /\ m < close r) /\
    ((S i < p)%nat -> up = false).
Proof.
  intros Hr regime.
  assert (Hup : regime_uptrend regime = (check_price_above_ma df p).2) by reflexivity.
  assert (Habove : above_ma regime = (check_price_above_ma df p).2) by reflexivity.
  assert (Hdown : regime_downtrend regime = map negb (check_price_above_ma df p).2)
    by reflexivity.
  split; [reflexivity|].
  split.
  { rewrite Hup. unfold check_price_above_ma. cbn [snd].
    rewrite column_calculate_sma. change (rows (calculate_sma df p)) with (rows df).
    rewrite length_zip_with, !length_map.
    unfold rolling_mean. rewrite length_map, length_seq, length_map. lia. }
  exists (gt_nan (Some (close r)) (rolling_mean_at p (map close (rows df)) i)).
  rewrite Hup, Habove, Hdown, list_lookup_fmap, (lookup_above_ma df p i r Hr).
  split; [reflexivity|]. split; [reflexivity|]. split; [reflexivity|].
  split.
  - unfold gt_nan. destruct (rolling_mean_at _ _ _) as [m|].
    + rewrite Qltb_lt. split.
      * intros H. exists m. split; [reflexivity|exact H].
      * intros (m' & Hm & H). inversion Hm. exact H.
    + split; [discriminate|]. intros (m' & Hm & _). discriminate.
  - intros Hw. rewrite rolling_mean_at_warmup by (left; exact Hw). reflexivity.
Qed.

Lemma X7_ma_regime_witness :
  let regime := get_ma_regime example_aaa 2 in
  regime_uptrend regime = [false; false; true; false; false] /\
  regime_downtrend regime = [true; true; false; true; true] /\
  exists up,
    regime_uptrend regime !! 2%nat = Some up /\
    regime_downtrend regime !! 2%nat = Some (negb up).
Proof.
  split; [reflexivity|]. split; [reflexivity|].
  destruct (X7_ma_regime example_aaa 2 2 (example_row (example_day 2) 10 12 10 12 50)
              eq_refl) as (_ & _ & up & Hup & _ & Hdown & _).
  exists up. split; [exact Hup|exact Hdown].
Defined.

Lemma count_true_cons (b : bool) (l : list bool) :
  count_true (b :: l) = (Z.b2z b + count_true l)%Z.
Proof.
  unfold count_true. rewrite filter_cons.
  destruct b; simpl.
  - destruct (decide (true = true)); [|congruence]. simpl length. lia.
  - destruct (decide (false = true)); [congruence|]. lia.
Qed.

Lemma last_cons_default {A} (x : A) (l : list A) :
  last (x :: l) = Some (default x (last l)).
Proof.
  revert x. induction l as [|y l IH]; intros x; [reflexivity|].
  change (last (x :: y :: l)) with (last (y :: l)). rewrite IH.
  simpl. destruct l; reflexivity.
Qed.

Lemma cross_counts (l : list bool) (prev : option bool) :
  (count_true (zip_with bullish_now l (take (length l) (prev :: (Some <$> l))))
   - count_true (zip_with bearish_now l (take (length l) (prev :: (Some <$> l))))
   = Z.b2z (default (default false prev) (last l))
     - Z.b2z (default (default false (head l)) prev))%Z.
Proof.
  revert prev. induction l as [|b l IH]; intros prev.
  - destruct prev; simpl; lia.
  - change (take (length (b :: l)) (prev :: (Some <$> b :: l)))
      with (prev :: take (length l) (Some b :: (Some <$> l))).
    change (zip_with bullish_now (b :: l) (prev :: take (length l) (Some b :: (Some <$> l))))
      with (bullish_now b prev
              :: zip_with bullish_now l (take (length l) (Some b :: (Some <$> l)))).
    change (zip_with bearish_now (b :: l) (prev :: take (length l) (Some b :: (Some <$> l))))
      with (bearish_now b prev
              :: zip_with bearish_now l (take (length l) (Some b :: (Some <$> l)))).
    rewrite !count_true_cons.
    specialize (IH (Some b)). rewrite last_cons_default.
    cbn [default head] in *.
    unfold id in *.
    match goal with
    | |- (?x + ?cb - (?y + ?cr) = _)%Z =>
        replace (x + cb - (y + cr))%Z with (x - y + (cb - cr))%Z by lia
    end.
    rewrite IH. clear IH.
    destruct (last l) as [z|]; destruct prev as [[|]|], b; cbn;
      unfold bullish_now, bearish_now; repeat case_bool_decide; try congruence; cbn; lia.
Qed.

Lemma lookup_shift1 {A} (l : list A) (i : nat) (x : A) :
  l !! i = Some x ->
  shift1 l !! i = Some (match i with O => None | S j => l !! j end).
Proof.
  intros Hx. unfold shift1.
  rewrite lookup_take_lt by (apply lookup_lt_Some in Hx; exact Hx).
  destruct i as [|j]; [reflexivity|].
  rewrite lookup_cons. rewrite list_lookup_fmap.
  assert (Hj : (j < length l)%nat) by (apply lookup_lt_Some in Hx; lia).
  apply lookup_lt_is_Some_2 in Hj. destruct Hj as [y Hy]. rewrite Hy. reflexivity.
Qed.

Lemma column_crossover (df : DataFrame) (fast slow : nat) :
  column (calculate_sma (calculate_sma df fast) slow) fast
    = rolling_mean fast (map close (rows df)) /\
  column (calculate_sma (calculate_sma df fast) slow) slow
    = rolling_mean slow (map close (rows df)).
Proof.
  split.
  - unfold column. rewrite find_column_calculate_sma.
    destruct (Nat.eqb_spec slow fast) as [->|_]; [reflexivity|].
    rewrite find_column_calculate_sma, Nat.eqb_refl. reflexivity.
  - exact (column_calculate_sma (calculate_sma df fast) slow).
Qed.

Lemma lookup_cross (f : bool -> option bool -> bool) (fas : list bool) (i : nat) :
  zip_with f fas (shift1 fas) !! i =
    (fun now => f now (match i with O => None | S j => fas !! j end)) <$> fas !! i.
Proof.
  rewrite lookup_zip_with.
  destruct (fas !! i) as [now|] eqn:Hnow; [|reflexivity].
  rewrite (lookup_shift1 fas i now Hnow). reflexivity.
Qed.

(** X8.  [calculate_ma_crossover] marks a bullish cross exactly on a row
    where the fast SMA is above the slow one while on the row before it
    was not, and a bearish cross in the mirrored case; so a row never
    carries both marks and the first row carries none.  The fast SMA can
    only count as above once both averages are past their warm-up.  The
    crosses alternate: bullish minus bearish crosses is the last value of
    [fast_above_slow] minus its first, as 0/1 numbers. *)
Theorem X8_ma_crossover (df : DataFrame) (fast slow : nat) :
  let cross := calculate_ma_crossover df fast slow in
  length (fast_above_slow cross) = length (rows df) /\
  length (ma_cross_bullish cross) = length (rows df) /\
  length (ma_cross_bearish cross) = length (rows df) /\
  (forall i, ma_cross_bullish cross !! i = Some true <->
             fast_above_slow cross !! i = Some true /\
             exists j, i = S j /\ fast_above_slow cross !! j = Some false) /\
  (forall i, ma_cross_bearish cross !! i = Some true <->
             fast_above_slow cross !! i = Some false /\
             exists j, i = S j /\ fast_above_slow cross !! j = Some true) /\
  (forall i, fast_above_slow cross !! i = Some true ->
             (fast <= S i)%nat /\ (slow <= S i)%nat) /\
  (count_true (ma_cross_bullish cross) - count_true (ma_cross_bearish cross)
   = Z.b2z (default false (last (fast_above_slow cross)))
     - Z.b2z (default false (head (fast_above_slow cross))))%Z.
Proof.
  intros cross.
  set (fas := fast_above_slow cross).
  assert (Hbull : ma_cross_bullish cross = zip_with bullish_now fas (shift1 fas))
    by reflexivity.
  assert (Hbear : ma_cross_bearish cross = zip_with bearish_now fas (shift1 fas))
    by reflexivity.
  assert (Hfas : fas = zip_with gt_nan (rolling_mean fast (map close (rows df)))
                                (rolling_mean slow (map close (rows df)))).
  { unfold fas, cross, calculate_ma_crossover. cbn [fast_above_slow].
    destruct (column_crossover df fast slow) as [-> ->]. reflexivity. }
  assert (Hlen : length fas = length (rows df)).
  { rewrite Hfas, length_zip_with. unfold rolling_mean.
    rewrite !length_map, !length_seq. lia. }
  clearbody fas. clearbody cross.
  assert (Hshift : length (shift1 fas) = length fas).
  { unfold shift1. rewrite length_take. simpl. rewrite length_fmap. lia. }
  split; [exact Hlen|].
  split; [rewrite Hbull, length_zip_with, Hshift; lia|].
  split; [rewrite Hbear, length_zip_with, Hshift; lia|].
  split; [|split; [|split]].
  - intros i. rewrite Hbull, lookup_cross. split.
    + destruct (fas !! i) as [now|] eqn:Hnow; [|discriminate]. cbn.
      unfold bullish_now. intros H. injection H as H'.
      apply andb_true_iff in H'. destruct H' as [H1 H2].
      apply bool_decide_eq_true in H1, H2. subst now.
      split; [reflexivity|]. destruct i as [|j]; [discriminate H2|].
      exists j. split; [reflexivity|exact H2].
    + intros (Hnow & j & -> & Hj). rewrite Hnow. cbn. rewrite Hj. reflexivity.
  - intros i. rewrite Hbear, lookup_cross. split.
    + destruct (fas !! i) as [now|] eqn:Hnow; [|discriminate]. cbn.
      unfold bearish_now. intros H. injection H as H'.
      apply andb_true_iff in H'. destruct H' as [H1 H2].
      apply bool_decide_eq_true in H1, H2. subst now.
      split; [reflexivity|]. destruct i as [|j]; [discriminate H2|].
      exists j. split; [reflexivity|exact H2].
    + intros (Hnow & j & -> & Hj). rewrite Hnow. cbn. rewrite Hj. reflexivity.
  - intros i Hi. rewrite Hfas in Hi.
    apply lookup_zip_with_Some in Hi. destruct Hi as (x & y & Hgt & Hx & Hy).
    assert (Hil : (i < length (map close (rows df)))%nat).
    { apply lookup_lt_Some in Hx. unfold rolling_mean in Hx.
      rewrite length_map, length_seq in Hx. exact Hx. }
    rewrite lookup_rolling_mean_at in Hx, Hy by exact Hil.
    inversion Hx; subst x. inversion Hy; subst y. clear Hx Hy.
    split.
    + destruct (Nat.le_gt_cases fast (S i)) as [H|H]; [exact H|].
      rewrite rolling_mean_at_warmup in Hgt by (left; lia). discriminate.
    + destruct (Nat.le_gt_cases slow (S i)) as [H|H]; [exact H|].
      rewrite (rolling_mean_at_warmup slow) in Hgt by (left; lia).
      destruct (rolling_mean_at fast _ _); discriminate.
  - rewrite Hbull, Hbear. unfold shift1. rewrite (cross_counts fas None).
    cbn [default]. reflexivity.
Qed.

Lemma ewm_from_bounds (alpha lo hi : Q) (xs : list Q) :
  0 <= alpha <= 1 ->
  forall previous,
    lo <= previous <= hi ->
    Forall (fun x => lo <= x <= hi) xs ->
    Forall (fun y => lo <= y <= hi) (ewm_from alpha previous xs).
Proof.
  intros Ha. induction xs as [|x xs IH]; intros previous Hp Hxs; [constructor|].
  apply Forall_cons in Hxs. destruct Hxs as [Hx Hxs].
  assert (Hy : lo <= (1 - alpha) * previous + alpha * x <= hi).
  { assert (H1 : 0 <= (1 - alpha) * (previous - lo)) by (apply Qmult_le_0_compat; lra).
    assert (H2 : 0 <= alpha * (x - lo)) by (apply Qmult_le_0_compat; lra).
    assert (H3 : 0 <= (1 - alpha) * (hi - previous)) by (apply Qmult_le_0_compat; lra).
    assert (H4 : 0 <= alpha * (hi - x)) by (apply Qmult_le_0_compat; lra).
    lra. }
  simpl. constructor; [exact Hy|]. apply IH; assumption.
Qed.

Lemma length_ewm_from (alpha previous : Q) (xs : list Q) :
  length (ewm_from alpha previous xs) = length xs.
Proof.
  revert previous. induction xs as [|x xs IH]; intros previous; [reflexivity|].
  simpl. rewrite IH. reflexivity.
Qed.

Lemma ewm_from_one (alpha previous : Q) (xs : list Q) :
  alpha == 1 -> Forall2 Qeq (ewm_from alpha previous xs) xs.
Proof.
  intros Ha. revert previous. induction xs as [|x xs IH]; intros previous; [constructor|].
  simpl. constructor; [|apply IH]. rewrite Ha. ring.
Qed.

(** X9.  [calculate_ema] refuses a zero period (pandas requires a span of
    at least one) and otherwise returns the frame unchanged with one EMA
    value per row.  The first value is the first close, every value stays
    within any bounds that hold for the closes, and with period 1 the EMA
    is the close series itself. *)
Theorem X9_ema (df : DataFrame) (period : nat) :
  (calculate_ema df period = None <-> period = 0%nat) /\
  forall frame ema,
    calculate_ema df period = Some (frame, ema) ->
    frame = df /\
    length ema = length (rows df) /\
    head ema = close <$> head (rows df) /\
    (forall lo hi,
        Forall (fun r => lo <= close r <= hi) (rows df) ->
        Forall (fun y => lo <= y <= hi) ema) /\
    (period = 1%nat -> Forall2 Qeq ema (map close (rows df))).
Proof.
  unfold calculate_ema. destruct (Nat.eqb_spec period 0) as [->|Hp].
  { split; [split; reflexivity|]. discriminate. }
  split; [split; [discriminate|contradiction]|].
  intros frame ema H. inversion H; subst frame ema; clear H.
  set (alpha := 2 / (inject_Z (Z.of_nat period) + 1)).
  assert (Hden : 2 <= inject_Z (Z.of_nat period) + 1).
  { assert (H1 : inject_Z 1 <= inject_Z (Z.of_nat period)) by (rewrite <- Zle_Qle; lia).
    change (inject_Z 1) with 1 in H1. lra. }
  assert (Ha : 0 <= alpha <= 1).
  { unfold alpha. split.
    - apply Qle_shift_div_l; lra.
    - apply Qle_shift_div_r; lra. }
  split; [reflexivity|].
  destruct (rows df) as [|r rs]; simpl.
  { split; [reflexivity|]. split; [reflexivity|]. split; [intros; constructor|].
    intros _. constructor. }
  split; [rewrite length_ewm_from, length_map; reflexivity|].
  split; [reflexivity|]. split.
  - intros lo hi Hb. apply Forall_cons in Hb. destruct Hb as [Hr Hrs].
    constructor; [exact Hr|].
    apply ewm_from_bounds; [exact Ha|exact Hr|].
    apply Forall_fmap. exact Hrs.
  - intros ->. constructor; [reflexivity|].
    apply ewm_from_one. unfold alpha. reflexivity.
Qed.
(** ** Simulated positions *)

Lemma check_exit_signal_ensure (df : DataFrame) a b price stop p use :
  check_exit_signal (ensure_sma df p) a b price stop p use
    = check_exit_signal df a b price stop p use.
Proof.
  unfold ensure_sma.
  destruct (find_column p (sma_columns df)) as [c|] eqn:Hc; [reflexivity|].
  assert (E : find_column p (sma_columns (calculate_sma df p))
              = Some (rolling_mean p (map close (rows df))))
    by (rewrite find_column_calculate_sma, Nat.eqb_refl; reflexivity).
  unfold check_exit_signal. rewrite Hc. cbv beta iota zeta. rewrite !E. reflexivity.
Qed.

Lemma seq_split (a n : nat) (pre : list nat) (k : nat) (post : list nat) :
  seq a n = pre ++ k :: post ->
  k = (a + length pre)%nat /\ (k < a + n)%nat /\
  forall i, (a <= i < k)%nat -> i ∈ pre.
Proof.
  revert a n. induction pre as [|x pre IH]; intros a n H.
  - destruct n as [|n]; [discriminate|]. simpl in H. injection H as Hk _.
    subst k. simpl. split; [lia|]. split; [lia|]. intros i Hi. lia.
  - destruct n as [|n]; [discriminate|]. simpl in H. injection H as Hx Hrest.
    subst x. destruct (IH _ _ Hrest) as (Hk & Hlt & Hin).
    simpl. split; [lia|]. split; [lia|].
    intros i Hi. destruct (decide (i = a)) as [->|Hne]; [left|].
    right. apply Hin. lia.
Qed.

Section ExitScan.
Variables (df : DataFrame) (entry_index : nat) (entry_price : Q) (entry_row : Row).
Variables (trailing_stop_pct : Q) (ma_period : nat) (use_ma_exit : bool).
Variable max_holding_days : option Z.

Let quiet (i : nat) : Prop :=
  no_exit_at df entry_index entry_price trailing_stop_pct ma_period use_ma_exit i /\
  limit_reached max_holding_days (Z.of_nat i - Z.of_nat entry_index) = false.

Lemma exit_scan_spec (indices : list nat) :
  forall peak_price peak_index outcome,
    entry_price <= peak_price ->
    exit_scan df entry_index entry_price entry_row trailing_stop_pct ma_period
              use_ma_exit max_holding_days peak_price peak_index indices = Some outcome ->
    match outcome with
    | inr (peak, _) => Forall quiet indices /\ entry_price <= peak
    | inl x =>
        exists pre post,
          indices = pre ++ sx_exit_index x :: post /\
          Forall quiet pre /\
          entry_price <= sx_peak_price x /\
          sx_entry_index x = entry_index /\
          sx_holding_days x = (Z.of_nat (sx_exit_index x) - Z.of_nat entry_index)%Z /\
          ((exists details,
               check_exit_signal df entry_index (sx_exit_index x) entry_price
                 trailing_stop_pct ma_period use_ma_exit = Some (true, details) /\
               sx_exit_reason x = by_signal (se_exit_reason details) /\
               sx_exit_price x = se_close details /\
               sx_return_pct x = se_return_pct details) \/
           (no_exit_at df entry_index entry_price trailing_stop_pct ma_period use_ma_exit
                       (sx_exit_index x) /\
            limit_reached max_holding_days
              (Z.of_nat (sx_exit_index x) - Z.of_nat entry_index) = true /\
            sx_exit_reason x = max_holding_days_reached))
    end.
Proof.
  induction indices as [|i rest IH]; intros peak_price peak_index outcome Hpeak H.
  - simpl in H. injection H as <-. split; [constructor|exact Hpeak].
  - simpl in H.
    destruct (rows df !! i) as [row|] eqn:Hrow; [|discriminate]. simpl in H.
    set (peak' := if Qltb peak_price (high row) then (high row, i)
                  else (peak_price, peak_index)) in H.
    assert (Hpeak' : entry_price <= peak'.1).
    { unfold peak'. destruct (Qltb peak_price (high row)) eqn:Hlt; simpl; [|exact Hpeak].
      apply Qltb_lt in Hlt. lra. }
    destruct peak' as [pp pi]. simpl in Hpeak'.
    destruct (check_exit_signal df entry_index i entry_price trailing_stop_pct
                ma_period use_ma_exit) as [[triggered details]|] eqn:Hcheck;
      [|discriminate].
    simpl in H. destruct triggered.
    + injection H as <-. exists [], rest. simpl.
      split; [reflexivity|]. split; [constructor|]. split; [exact Hpeak'|].
      split; [reflexivity|].
      split.
      { destruct (check_exit_signal_inv _ _ _ _ _ _ _ _ _ Hcheck)
          as (row' & _ & _ & _ & _ & _ & Hheld & _). exact Hheld. }
      left. exists details. repeat split. exact Hcheck.
    + destruct (limit_reached max_holding_days
                  (Z.of_nat i - Z.of_nat entry_index)) eqn:Hlimit.
      * destruct (fdiv (close row - entry_price) entry_price) as [ret|]; [|discriminate].
        simpl in H. injection H as <-. exists [], rest. simpl.
        split; [reflexivity|]. split; [constructor|]. split; [exact Hpeak'|].
        split; [reflexivity|]. split; [reflexivity|].
        right. split; [exists details; exact Hcheck|]. split; [exact Hlimit|reflexivity].
      * specialize (IH pp pi outcome Hpeak' H).
        assert (Hq : quiet i) by (split; [exists details; exact Hcheck|exact Hlimit]).
        destruct outcome as [x|[peak pidx]].
        -- destruct IH as (pre & post & Hidx & Hpre & Hrest).
           exists (i :: pre), post. split; [rewrite Hidx; reflexivity|].
           split; [constructor; assumption|]. exact Hrest.
        -- destruct IH as [Hall Hp]. split; [constructor; assumption|exact Hp].
Qed.
End ExitScan.
Lemma triggered_reason df a b price stop p use details :
  check_exit_signal df a b price stop p use = Some (true, details) ->
  se_exit_reason details = trailing_stop \/ se_exit_reason details = ma_exit.
Proof.
  intros H. destruct (check_exit_signal_inv _ _ _ _ _ _ _ _ _ H)
    as (row & _ & Hreason & Htrig & _).
  cbv zeta in Hreason, Htrig. rewrite Hreason.
  destruct (match series_max _ with Some _ => _ | None => _ end); [left; reflexivity|].
  simpl in Htrig. symmetry in Htrig. apply andb_true_iff in Htrig.
  destruct Htrig as [-> Hma]. rewrite Hma. right. reflexivity.
Qed.

Lemma simulate_position_exit_spec df e price stop p use maxh x :
  simulate_position_exit df e price stop p use maxh = Some x ->
  let k := sx_exit_index x in
  let quiet i :=
    no_exit_at df e price stop p use i /\
    limit_reached maxh (Z.of_nat i - Z.of_nat e) = false in
  (e <= k < length (rows df))%nat /\
  sx_entry_index x = e /\
  sx_holding_days x = (Z.of_nat k - Z.of_nat e)%Z /\
  price <= sx_peak_price x /\
  (forall i, (e < i < k)%nat -> quiet i) /\
  match sx_exit_reason x with
  | by_signal r =>
      (e < k)%nat /\
      exists details,
        check_exit_signal df e k price stop p use = Some (true, details) /\
        se_exit_reason details = r /\
        sx_exit_price x = se_close details /\
        sx_return_pct x = se_return_pct details
  | max_holding_days_reached =>
      (e < k)%nat /\ no_exit_at df e price stop p use k /\
      limit_reached maxh (Z.of_nat k - Z.of_nat e) = true
  | still_open =>
      k = (length (rows df) - 1)%nat /\ ((e < k)%nat -> quiet k)
  end.
Proof.
  intros H k quiet. unfold simulate_position_exit in H. cbv zeta in H.
  assert (Hrows : rows (ensure_sma df p) = rows df).
  { unfold ensure_sma. destruct (find_column _ _); reflexivity. }
  rewrite Hrows in H.
  destruct (rows df !! e) as [entry_row|] eqn:Hentry; [|discriminate]. simpl in H.
  assert (He : (e < length (rows df))%nat) by (apply lookup_lt_Some in Hentry; exact Hentry).
  destruct (exit_scan _ _ _ _ _ _ _ _ _ _ _) as [outcome|] eqn:Hscan; [|discriminate].
  simpl in H.
  apply exit_scan_spec in Hscan; [|apply Qle_refl].
  assert (Hquiet : forall i,
             (no_exit_at (ensure_sma df p) e price stop p use i /\
              limit_reached maxh (Z.of_nat i - Z.of_nat e) = false) -> quiet i).
  { intros i [[d Hd] Hl]. rewrite check_exit_signal_ensure in Hd.
    split; [exists d; exact Hd|exact Hl]. }
  destruct outcome as [result|[peak pidx]].
  - injection H as ->.
    destruct Hscan as (pre & post & Hidx & Hpre & Hpeak & Hei & Hheld & Hcase).
    fold k in Hidx, Hheld, Hcase.
    destruct (seq_split _ _ _ _ _ Hidx) as (Hk & Hlt & Hin).
    split; [lia|]. split; [exact Hei|]. split; [exact Hheld|]. split; [exact Hpeak|].
    split.
    { intros i Hi. apply Hquiet.
      rewrite Forall_forall in Hpre. apply Hpre. apply Hin. lia. }
    destruct Hcase as [(details & Hcheck & Hreason & Hprice & Hret)
                      | (Hno & Hlimit & Hreason)]; rewrite Hreason.
    + split; [lia|]. exists details. rewrite check_exit_signal_ensure in Hcheck.
      repeat split; assumption.
    + split; [lia|]. split; [|exact Hlimit].
      destruct Hno as [d Hd]. rewrite check_exit_signal_ensure in Hd. exists d. exact Hd.
  - destruct Hscan as [Hall Hpeak].
    destruct (rows df !! (length (rows df) - 1)%nat) as [final_row|] eqn:Hfinal;
      [|discriminate].
    simpl in H.
    destruct (fdiv (close final_row - price) price) as [ret|]; [|discriminate].
    simpl in H. injection H as <-. unfold k. simpl.
    split; [lia|]. split; [reflexivity|]. split; [reflexivity|]. split; [exact Hpeak|].
    assert (Hrange : forall i, (e < i < length (rows df))%nat -> quiet i).
    { intros i Hi. apply Hquiet. rewrite Forall_forall in Hall. apply Hall.
      apply elem_of_seq. lia. }
    split; [intros i Hi; apply Hrange; lia|].
    split; [reflexivity|]. intros Hi. apply Hrange. lia.
Qed.

(** X10.  A result of [simulate_position_exit] exits at the first row
    after the entry at which [check_exit_signal] triggers or the holding
    limit is reached: no row strictly between the entry and the reported
    exit triggers an exit.  The exit row is never before the entry row,
    the holding period is their distance, and the tracked peak is at least
    the entry price.  A signal exit carries the trailing-stop or MA reason
    and the close and return of the triggering check; [still_open] is
    reported only at the last row of the frame. *)
Theorem X10_simulated_exit df e price stop p use maxh x :
  simulate_position_exit df e price stop p use maxh = Some x ->
  let k := sx_exit_index x in
  (e <= k < length (rows df))%nat /\
  sx_entry_index x = e /\
  sx_holding_days x = (Z.of_nat k - Z.of_nat e)%Z /\
  price <= sx_peak_price x /\
  (forall i, (e < i < k)%nat -> no_exit_at df e price stop p use i) /\
  match sx_exit_reason x with
  | by_signal r =>
      (e < k)%nat /\ (r = trailing_stop \/ r = ma_exit) /\
      exists details,
        check_exit_signal df e k price stop p use = Some (true, details) /\
        se_exit_reason details = r /\
        sx_exit_price x = se_close details /\
        sx_return_pct x = se_return_pct details
  | max_holding_days_reached =>
      (e < k)%nat /\ no_exit_at df e price stop p use k
  | still_open =>
      k = (length (rows df) - 1)%nat /\
      ((e < k)%nat -> no_exit_at df e price stop p use k)
  end.
Proof.
  intros H k.
  destruct (simulate_position_exit_spec _ _ _ _ _ _ _ _ H)
    as (Hk & He & Hheld & Hpeak & Hquiet & Hcase).
  fold k in Hk, Hheld, Hquiet, Hcase.
  split; [exact Hk|]. split; [exact He|]. split; [exact Hheld|]. split; [exact Hpeak|].
  split; [intros i Hi; apply (Hquiet i Hi)|].
  destruct (sx_exit_reason x) as [r| |].
  - destruct Hcase as (Hlt & details & Hcheck & Hr & Hprice & Hret).
    split; [exact Hlt|]. split.
    + rewrite <- Hr. eapply triggered_reason. exact Hcheck.
    + exists details. repeat split; assumption.
  - destruct Hcase as (Hlt & Hno & _). split; assumption.
  - destruct Hcase as (Hlast & Hq). split; [exact Hlast|].
    intros Hlt. apply (Hq Hlt).
Qed.

Lemma X10_simulated_exit_witness :
  simulate_position_exit example_aaa 1 (1001 # 100) (20 # 100) 2 true None
    = Some example_simulated /\
  sx_exit_index example_simulated = 3%nat /\
  sx_exit_reason example_simulated = by_signal trailing_stop /\
  sx_holding_days example_simulated = 2%Z /\
  no_exit_at example_aaa 1 (1001 # 100) (20 # 100) 2 true 2.
Proof.
  split; [vm_compute; reflexivity|]. split; [reflexivity|]. split; [reflexivity|].
  destruct (X10_simulated_exit example_aaa 1 (1001 # 100) (20 # 100) 2 true None
              example_simulated ltac:(vm_compute; reflexivity))
    as (_ & _ & Hheld & _ & Hquiet & _).
  split; [exact Hheld|]. apply Hquiet. simpl. lia.
Defined.

(** X11.  With a positive [max_holding_days] a simulated position is never
    held longer than the limit, and one closed for that reason was held
    exactly that long.  Without a limit, or with a limit of 0 (which
    Python treats as no limit), the reason [max_holding_days] never
    occurs. *)
Theorem X11_max_holding_days df e price stop p use maxh x :
  simulate_position_exit df e price stop p use maxh = Some x ->
  (forall n, maxh = Some n -> (0 < n)%Z ->
             (sx_holding_days x <= n)%Z /\
             (sx_exit_reason x = max_holding_days_reached -> sx_holding_days x = n)) /\
  (maxh = None \/ maxh = Some 0%Z -> sx_exit_reason x <> max_holding_days_reached).
Proof.
  intros H.
  destruct (simulate_position_exit_spec _ _ _ _ _ _ _ _ H)
    as (Hk & _ & Hheld & _ & Hquiet & Hcase).
  cbv zeta in *. set (k := sx_exit_index x) in *.
  split.
  - intros n -> Hn.
    assert (Hbefore : forall i, (e < i < k)%nat -> (Z.of_nat i - Z.of_nat e < n)%Z).
    { intros i Hi. destruct (Hquiet i Hi) as [_ Hl]. unfold limit_reached in Hl.
      apply andb_false_iff in Hl. destruct Hl as [Hl|Hl].
      - apply negb_false_iff, Z.eqb_eq in Hl. lia.
      - apply Z.leb_gt in Hl. exact Hl. }
    assert (Hle : (e < k)%nat -> (Z.of_nat k - Z.of_nat e <= n)%Z).
    { intros Hlt.
      destruct (Z.le_gt_cases (Z.of_nat k - Z.of_nat e) n) as [Hok|Hgt]; [exact Hok|].
      specialize (Hbefore (e + Z.to_nat n)%nat ltac:(lia)). lia. }
    rewrite Hheld. split.
    + destruct (Nat.eq_dec e k) as [Heq|Hne]; [lia|]. apply Hle. lia.
    + intros Hr. rewrite Hr in Hcase. destruct Hcase as (Hlt & _ & Hl).
      unfold limit_reached in Hl. apply andb_true_iff in Hl. destruct Hl as [_ Hl].
      apply Z.leb_le in Hl. specialize (Hle Hlt). lia.
  - intros Hm Hr. rewrite Hr in Hcase. destruct Hcase as (_ & _ & Hl).
    destruct Hm as [-> | ->]; discriminate Hl.
Qed.

Lemma X11_max_holding_days_witness :
  simulate_position_exit example_aaa 1 (1001 # 100) (20 # 100) 2 true (Some 1%Z)
    = Some example_simulated_limited /\
  sx_exit_reason example_simulated_limited = max_holding_days_reached /\
  sx_exit_index example_simulated_limited = 2%nat /\
  (sx_holding_days example_simulated_limited <= 1)%Z.
Proof.
  split; [vm_compute; reflexivity|]. split; [reflexivity|]. split; [reflexivity|].
  destruct (X11_max_holding_days example_aaa 1 (1001 # 100) (20 # 100) 2 true (Some 1%Z)
              example_simulated_limited ltac:(vm_compute; reflexivity)) as [Hlimit _].
  destruct (Hlimit 1%Z eq_refl ltac:(lia)) as [Hle _]. exact Hle.
Defined.

(** ** Performance metrics *)

Lemma win_loss_partition (trades : list Trade) :
  (length (filter (fun t => Qltb 0 (return_pct t) = true) trades)
   + length (filter (fun t => Qle_bool (return_pct t) 0 = true) trades)
   = length trades)%nat.
Proof.
  induction trades as [|t ts IH]; [reflexivity|].
  rewrite !filter_cons.
  destruct (decide (Qltb 0 (return_pct t) = true)) as [H1|H1];
    destruct (decide (Qle_bool (return_pct t) 0 = true)) as [H2|H2]; simpl.
  - unfold Qltb in H1. rewrite H2 in H1. discriminate.
  - lia.
  - lia.
  - unfold Qltb in H1. destruct (Qle_bool (return_pct t) 0); simpl in H1; congruence.
Qed.

(** X12.  For a non-empty ledger [calculate_performance_metrics] splits the
    trades into winners (return above zero) and losers (return at most
    zero) without remainder: the two counts add up to [total_trades], and
    [win_rate] is the winners' share, a number between 0 and 1. *)
Theorem X12_win_loss_partition
    (np_median np_std : list Q -> Q) (series_std : list Q -> option Q) (sqrt_365 : Q)
    (t : Trade) (ts : list Trade) (equity_curve daily_returns : list Q)
    (initial_capital : Q) :
  let trades := t :: ts in
  let metrics :=
    calculate_performance_metrics np_median np_std series_std sqrt_365
                                  trades equity_curve daily_returns initial_capital in
  exists wins losses rate,
    dict_get "total_trades" metrics = Some (VInt (Z.of_nat (length trades))) /\
    dict_get "winning_trades" metrics = Some (VInt wins) /\
    dict_get "losing_trades" metrics = Some (VInt losses) /\
    dict_get "win_rate" metrics = Some (VFloat (Fin rate)) /\
    (0 <= wins)%Z /\ (0 <= losses)%Z /\
    (wins + losses = Z.of_nat (length trades))%Z /\
    rate * inject_Z (Z.of_nat (length trades)) == inject_Z wins /\
    0 <= rate <= 1.
Proof.
  intros trades metrics.
  set (winning := filter (fun t => Qltb 0 (return_pct t) = true) trades).
  set (losing := filter (fun t => Qle_bool (return_pct t) 0 = true) trades).
  exists (Z.of_nat (length winning)), (Z.of_nat (length losing)),
         (inject_Z (Z.of_nat (length winning)) / inject_Z (Z.of_nat (length trades))).
  assert (Hpart := win_loss_partition trades). fold winning losing in Hpart.
  assert (Hn : 0 < inject_Z (Z.of_nat (length trades))).
  { change 0 with (inject_Z 0). rewrite <- Zlt_Qlt. simpl length. lia. }
  assert (Hw : 0 <= inject_Z (Z.of_nat (length winning))).
  { change 0 with (inject_Z 0). rewrite <- Zle_Qle. lia. }
  assert (Hwn : inject_Z (Z.of_nat (length winning)) <= inject_Z (Z.of_nat (length trades))).
  { rewrite <- Zle_Qle. lia. }
  split; [reflexivity|]. split; [reflexivity|]. split; [reflexivity|].
  split; [reflexivity|].
  split; [lia|]. split; [lia|]. split; [lia|].
  split; [field; lra|].
  split.
  - apply Qle_shift_div_l; lra.
  - apply Qle_shift_div_r; lra.
Qed.
Lemma cummax_from_spec (m : Q) (xs : list Q) :
  0 < m -> Forall (fun x => 0 < x) xs ->
  Forall2 (fun x c => 0 < c /\ x <= c) xs (cummax_from m xs).
Proof.
  revert m. induction xs as [|x xs IH]; intros m Hm Hxs; [constructor|].
  apply Forall_cons in Hxs. destruct Hxs as [Hx Hxs]. simpl.
  assert (Hmax : m <= Qmax m x /\ x <= Qmax m x)
    by (split; [apply Q.le_max_l|apply Q.le_max_r]).
  constructor; [split; lra|]. apply IH; [lra|exact Hxs].
Qed.

Lemma cummax_spec (xs : list Q) :
  Forall (fun x => 0 < x) xs ->
  Forall2 (fun x c => 0 < c /\ x <= c) xs (cummax xs).
Proof.
  destruct xs as [|x xs]; intros H; [constructor|].
  apply Forall_cons in H. destruct H as [Hx Hxs]. simpl.
  constructor; [split; lra|]. apply cummax_from_spec; assumption.
Qed.

Lemma drawdown_range (xs cs : list Q) :
  Forall2 (fun x c => 0 < c /\ x <= c) xs cs ->
  Forall (fun x => 0 < x) xs ->
  Forall (fun v => exists q, v = Fin q /\ - (1) < q <= 0)
         (zip_with (fun e m => np_divide (e - m) m) xs cs).
Proof.
  induction 1 as [|x c xs cs [Hc Hxc] _ IH]; intros Hpos; [constructor|].
  apply Forall_cons in Hpos. destruct Hpos as [Hx Hxs]. simpl.
  constructor; [|apply IH; exact Hxs].
  unfold np_divide. destruct (Qeq_bool c 0) eqn:E.
  { apply Qeq_bool_iff in E. lra. }
  eexists. split; [reflexivity|]. split.
  - apply Qlt_shift_div_l; lra.
  - apply Qle_shift_div_r; lra.
Qed.

Lemma series_min_skipna_range (lo hi : Q) (vs : list npfloat) :
  Forall (fun v => exists q, v = Fin q /\ lo < q <= hi) vs ->
  (vs = [] /\ series_min_skipna vs = NaN) \/
  exists q, series_min_skipna vs = Fin q /\ lo < q <= hi.
Proof.
  induction 1 as [|v vs (a & -> & Ha) _ IH]; [left; split; reflexivity|].
  right. change (series_min_skipna (Fin a :: vs)) with (np_min2 (Fin a) (series_min_skipna vs)).
  destruct IH as [[_ ->] | (b & -> & Hb)]; simpl.
  - exists a. split; [reflexivity|exact Ha].
  - exists (Qmin a b). split; [reflexivity|].
    destruct (Qmin_cases a b) as [-> | ->]; assumption.
Qed.

(** X13.  For a non-empty ledger and an equity curve whose values are all
    positive, [max_drawdown] is a finite number in (-1, 0]: the curve never
    stands above its own running maximum, and never loses all of it.
    [max_drawdown_pct] is the same number times 100, and [final_equity] is
    the last value of the curve. *)
Theorem X13_max_drawdown_range
    (np_median np_std : list Q -> Q) (series_std : list Q -> option Q) (sqrt_365 : Q)
    (t : Trade) (ts : list Trade) (e : Q) (es : list Q) (daily_returns : list Q)
    (initial_capital : Q) :
  Forall (fun v => 0 < v) (e :: es) ->
  let metrics :=
    calculate_performance_metrics np_median np_std series_std sqrt_365
                                  (t :: ts) (e :: es) daily_returns initial_capital in
  exists final dd,
    last (e :: es) = Some final /\
    dict_get "final_equity" metrics = Some (VFloat (Fin final)) /\
    dict_get "max_drawdown" metrics = Some (VFloat (Fin dd)) /\
    dict_get "max_drawdown_pct" metrics = Some (VFloat (Fin (dd * 100))) /\
    - (1) < dd <= 0.
Proof.
  intros Hpos metrics.
  destruct (last (e :: es)) as [final|] eqn:Hlast.
  2: { apply last_None in Hlast. discriminate. }
  set (drawdown := zip_with (fun e m => np_divide (e - m) m) (e :: es) (cummax (e :: es))).
  assert (Hrange := drawdown_range _ _ (cummax_spec _ Hpos) Hpos). fold drawdown in Hrange.
  destruct (series_min_skipna_range _ _ _ Hrange) as [[Hnil _] | (dd & Hdd & Hb)].
  { discriminate Hnil. }
  exists final, dd. split; [reflexivity|].
  unfold metrics, calculate_performance_metrics. rewrite Hlast.
  fold drawdown. rewrite Hdd.
  split; [reflexivity|]. split; [reflexivity|]. split; [reflexivity|exact Hb].
Qed.

Lemma X13_max_drawdown_range_witness :
  Forall (fun v => 0 < v) [10000; 9000; 9900] /\
  exists final dd,
    last [10000; 9000; 9900] = Some final /\
    dict_get "max_drawdown"
      (calculate_performance_metrics (fun _ => 0) (fun _ => 0) (fun _ => None) 19
         (trades example_final) [10000; 9000; 9900] [] 10000)
      = Some (VFloat (Fin dd)) /\
    - (1) < dd <= 0.
Proof.
  assert (Hpos : Forall (fun v => 0 < v) [10000; 9000; 9900])
    by (repeat constructor).
  split; [exact Hpos|].
  destruct (trades example_final) as [|t ts] eqn:E; [discriminate E|].
  destruct (X13_max_drawdown_range (fun _ => 0) (fun _ => 0) (fun _ => None) 19
              t ts 10000 [9000; 9900] [] 10000 Hpos)
    as (final & dd & Hlast & _ & Hdd & _ & Hrange).
  exists final, dd. split; [exact Hlast|]. split; [exact Hdd|exact Hrange].
Defined.

Lemma reason_get_count (r r' : ExitReason) (acc : list (ExitReason * Z)) :
  reason_get r (count_reason r' acc) =
    if decide (r' = r) then Some (default 0 (reason_get r acc) + 1)%Z
    else reason_get r acc.
Proof.
  induction acc as [|[q n] acc IH]; simpl.
  - destruct (decide (r' = r)); reflexivity.
  - destruct (decide (q = r')) as [->|Hne]; simpl.
    + destruct (decide (r' = r)); reflexivity.
    + destruct (decide (q = r)) as [->|Hne'].
      * destruct (decide (r' = r)); [congruence|reflexivity].
      * exact IH.
Qed.

Lemma count_reason_keys (r : ExitReason) (acc : list (ExitReason * Z)) :
  (count_reason r acc).*1 = acc.*1 /\ r ∈ acc.*1 \/
  (count_reason r acc).*1 = acc.*1 ++ [r] /\ r ∉ acc.*1.
Proof.
  induction acc as [|[q n] acc IH]; [simpl|cbn [count_reason]].
  - right. split; [reflexivity|apply not_elem_of_nil].
  - destruct (decide (q = r)) as [->|Hne].
    + left. split; [reflexivity|left].
    + change ((q, n) :: count_reason r acc).*1 with (q :: (count_reason r acc).*1).
      change ((q, n) :: acc).*1 with (q :: acc.*1).
      destruct IH as [[Hk Hin] | [Hk Hnin]]; rewrite Hk.
      * left. split; [reflexivity|right; exact Hin].
      * right. split; [reflexivity|].
        intros H. apply elem_of_cons in H. destruct H as [->|H]; [congruence|contradiction].
Qed.

Lemma count_reason_sum (r : ExitReason) (acc : list (ExitReason * Z)) :
  Zsum (count_reason r acc).*2 = (Zsum acc.*2 + 1)%Z.
Proof.
  induction acc as [|[q n] acc IH]; simpl; [reflexivity|].
  destruct (decide (q = r)); csimpl; [lia|]. unfold Zsum in *. simpl. rewrite IH. lia.
Qed.

Lemma exit_reasons_fold (trades : list Trade) :
  forall acc,
    NoDup acc.*1 ->
    let counts := fold_left (fun acc t => count_reason (exit_reason t) acc) trades acc in
    NoDup counts.*1 /\
    Zsum counts.*2 = (Zsum acc.*2 + Z.of_nat (length trades))%Z /\
    forall r,
      reason_get r counts =
        match trades_with_reason r trades with
        | [] => reason_get r acc
        | l => Some (default 0 (reason_get r acc) + Z.of_nat (length l))%Z
        end.
Proof.
  induction trades as [|t ts IH]; intros acc Hnd.
  - simpl. split; [exact Hnd|]. split; [lia|]. reflexivity.
  - cbn [fold_left]. cbv zeta.
    assert (Hnd' : NoDup (count_reason (exit_reason t) acc).*1).
    { destruct (count_reason_keys (exit_reason t) acc) as [[-> _] | [-> Hnin]];
        [exact Hnd|].
      apply NoDup_app. split; [exact Hnd|]. split.
      - intros x Hx Hx'. apply list_elem_of_singleton in Hx'. subst x. contradiction.
      - apply NoDup_singleton. }
    destruct (IH _ Hnd') as (H1 & H2 & H3).
    split; [exact H1|]. split.
    + rewrite H2, count_reason_sum. simpl length. lia.
    + intros r. rewrite H3, reason_get_count.
      unfold trades_with_reason. rewrite filter_cons.
      destruct (decide (exit_reason t = r)) as [Hr|Hr].
      * destruct (filter _ ts) as [|x l]; simpl; [reflexivity|]. f_equal. lia.
      * reflexivity.
Qed.

(** X14.  The [exit_reasons] breakdown of a non-empty ledger lists each
    reason at most once, with exactly the number of trades that carry it; a
    reason no trade carries is absent, and the counts add up to the number
    of trades. *)
Theorem X14_exit_reason_breakdown
    (np_median np_std : list Q -> Q) (series_std : list Q -> option Q) (sqrt_365 : Q)
    (t : Trade) (ts : list Trade) (equity_curve daily_returns : list Q)
    (initial_capital : Q) :
  let trades := t :: ts in
  let metrics :=
    calculate_performance_metrics np_median np_std series_std sqrt_365
                                  trades equity_curve daily_returns initial_capital in
  let counts := exit_reasons_of trades in
  dict_get "exit_reasons" metrics = Some (VReasons counts) /\
  NoDup counts.*1 /\
  Zsum counts.*2 = Z.of_nat (length trades) /\
  forall r,
    reason_get r counts =
      match trades_with_reason r trades with
      | [] => None
      | l => Some (Z.of_nat (length l))
      end.
Proof.
  intros trades metrics counts.
  destruct (exit_reasons_fold trades [] (NoDup_nil_2)) as (H1 & H2 & H3).
  split.
  - unfold metrics, calculate_performance_metrics, trades.
    destruct (last equity_curve); destruct daily_returns; reflexivity.
  - split; [exact H1|]. split; [exact H2|].
    intros r. unfold counts, exit_reasons_of. rewrite H3.
    destruct (trades_with_reason r trades); reflexivity.
Qed.

Lemma count_symbol_get (s : string) (t : Trade) (acc : list (string * (Z * Z * Q))) :
  dict_get s (count_symbol t acc) =
    if decide (t_symbol t = s)
    then Some (bump_stats t (default (0%Z, 0%Z, 0) (dict_get s acc)))
    else dict_get s acc.
Proof.
  induction acc as [|[q [[n w] total]] acc IH]; cbn [count_symbol dict_get].
  - destruct (decide (t_symbol t = s)); reflexivity.
  - destruct (decide (q = t_symbol t)) as [->|Hne]; cbn [dict_get].
    + destruct (decide (t_symbol t = s)); reflexivity.
    + destruct (decide (q = s)) as [->|Hne'].
      * destruct (decide (t_symbol t = s)); [congruence|reflexivity].
      * exact IH.
Qed.

Lemma count_symbol_keys (t : Trade) (acc : list (string * (Z * Z * Q))) :
  (count_symbol t acc).*1 = acc.*1 /\ t_symbol t ∈ acc.*1 \/
  (count_symbol t acc).*1 = acc.*1 ++ [t_symbol t] /\ t_symbol t ∉ acc.*1.
Proof.
  induction acc as [|[q st] acc IH]; [simpl|cbn [count_symbol]].
  - right. split; [reflexivity|apply not_elem_of_nil].
  - destruct (decide (q = t_symbol t)) as [->|Hne].
    + left. split; [reflexivity|left].
    + change ((q, st) :: count_symbol t acc).*1 with (q :: (count_symbol t acc).*1).
      change ((q, st) :: acc).*1 with (q :: acc.*1).
      destruct IH as [[Hk Hin] | [Hk Hnin]]; rewrite Hk.
      * left. split; [reflexivity|right; exact Hin].
      * right. split; [reflexivity|].
        intros H. apply elem_of_cons in H. destruct H as [<-|H]; [congruence|contradiction].
Qed.

Lemma symbol_stats_fold (trades : list Trade) :
  forall acc,
    NoDup acc.*1 ->
    let stats := fold_left (fun acc t => count_symbol t acc) trades acc in
    NoDup stats.*1 /\
    forall s,
      match trades_of_symbol s trades with
      | [] => dict_get s stats = dict_get s acc
      | l =>
          let base := default (0%Z, 0%Z, 0) (dict_get s acc) in
          exists total,
            dict_get s stats
              = Some ((base.1.1 + Z.of_nat (length l))%Z,
                      (base.1.2 + Z.of_nat (length (winners l)))%Z, total) /\
            total == base.2 + Qsum (map return_pct l)
      end.
Proof.
  induction trades as [|t ts IH]; intros acc Hnd.
  - simpl. split; [exact Hnd|]. reflexivity.
  - cbn [fold_left]. cbv zeta.
    assert (Hnd' : NoDup (count_symbol t acc).*1).
    { destruct (count_symbol_keys t acc) as [[-> _] | [-> Hnin]]; [exact Hnd|].
      apply NoDup_app. split; [exact Hnd|]. split.
      - intros x Hx Hx'. apply list_elem_of_singleton in Hx'. subst x. contradiction.
      - apply NoDup_singleton. }
    destruct (IH _ Hnd') as (H1 & H2).
    split; [exact H1|].
    intros s. specialize (H2 s). rewrite count_symbol_get in H2.
    unfold trades_of_symbol in *. rewrite filter_cons.
    destruct (decide (t_symbol t = s)) as [Hs|Hs].
    + destruct (default (0%Z, 0%Z, 0) (dict_get s acc)) as [[n w] total] eqn:Hbase.
      cbn [default bump_stats] in H2.
      assert (Hwin : (Z.of_nat (length (winners (t :: filter (fun t0 => t_symbol t0 = s) ts)))
                      = (if Qltb 0 (return_pct t) then 1 else 0)
                        + Z.of_nat (length (winners (filter (fun t0 => t_symbol t0 = s) ts))))%Z).
      { unfold winners. rewrite filter_cons.
        destruct (decide (Qltb 0 (return_pct t) = true)) as [H|H].
        - rewrite H. simpl length. lia.
        - destruct (Qltb 0 (return_pct t)); [congruence|]. lia. }
      destruct (filter (fun t0 => t_symbol t0 = s) ts) as [|x l] eqn:Hrest.
      * rewrite H2. cbv zeta. exists (total + return_pct t). split.
        -- cbn [fst snd]. do 2 f_equal. f_equal; try (simpl length; lia).
           rewrite Hwin. change (length (winners [])) with 0%nat.
           destruct (Qltb 0 (return_pct t)); lia.
        -- cbn [snd map]. unfold Qsum. simpl. ring.
      * cbv zeta in H2. destruct H2 as (tot & Hget & Htot).
        unfold id in Hget, Htot. cbn [fst snd] in Hget, Htot. cbv zeta. cbn [fst snd].
        exists tot. split.
        -- rewrite Hget. do 2 f_equal. f_equal; try (simpl length; lia).
           rewrite Hwin. destruct (Qltb 0 (return_pct t)); lia.
        -- rewrite Htot. change (map return_pct (t :: x :: l))
             with (return_pct t :: map return_pct (x :: l)).
           change (Qsum (return_pct t :: map return_pct (x :: l)))
             with (return_pct t + Qsum (map return_pct (x :: l))).
           ring.
    + exact H2.
Qed.

(** X15.  The [symbol_stats] breakdown of a non-empty ledger lists each
    traded symbol once, with the number of its trades, the number of its
    winning trades (never more than its trades) and the sum of its
    returns; a symbol without trades is absent. *)
Theorem X15_symbol_breakdown
    (np_median np_std : list Q -> Q) (series_std : list Q -> option Q) (sqrt_365 : Q)
    (t : Trade) (ts : list Trade) (equity_curve daily_returns : list Q)
    (initial_capital : Q) :
  let trades := t :: ts in
  let metrics :=
    calculate_performance_metrics np_median np_std series_std sqrt_365
                                  trades equity_curve daily_returns initial_capital in
  let stats := symbol_stats_of trades in
  dict_get "symbol_stats" metrics = Some (VSymbols stats) /\
  NoDup stats.*1 /\
  forall s,
    match trades_of_symbol s trades with
    | [] => dict_get s stats = None
    | l =>
        exists total,
          dict_get s stats
            = Some (Z.of_nat (length l), Z.of_nat (length (winners l)), total) /\
          total == Qsum (map return_pct l) /\
          (length (winners l) <= length l)%nat
    end.
Proof.
  intros trades metrics stats.
  destruct (symbol_stats_fold trades [] (NoDup_nil_2)) as (H1 & H2).
  split.
  - unfold metrics, calculate_performance_metrics, trades.
    destruct (last equity_curve); destruct daily_returns; reflexivity.
  - split; [exact H1|].
    intros s. specialize (H2 s).
    destruct (trades_of_symbol s trades) as [|x l]; [exact H2|].
    cbv zeta in H2. destruct H2 as (total & Hget & Htot).
    exists total. split; [exact Hget|]. split.
    + rewrite Htot. simpl. ring.
    + unfold winners. apply length_filter.
Qed.
(** ** Engine invariants *)

Lemma same_risk_refl (a : Backtester) : same_risk a a.
Proof. repeat split. Qed.

Lemma same_risk_trans (a b c : Backtester) : same_risk a b -> same_risk b c -> same_risk a c.
Proof. unfold same_risk. intuition congruence. Qed.

Lemma steady_refl (a : Backtester) : steady a a.
Proof.
  split; [reflexivity|]. split; [apply same_risk_refl|].
  split; [reflexivity|]. split; [reflexivity|]. auto.
Qed.

Lemma steady_trans (a b c : Backtester) : steady a b -> steady b c -> steady a c.
Proof.
  intros (H1 & H2 & H3 & H4 & H5) (G1 & G2 & G3 & G4 & G5).
  split; [congruence|]. split; [eapply same_risk_trans; eassumption|].
  split; [congruence|]. split; [congruence|]. auto.
Qed.

Lemma length_dict_del {V} (k : string) (d : list (string * V)) :
  (length (dict_del k d) <= length d)%nat.
Proof.
  induction d as [|[k' v] d IH]; simpl; [lia|].
  destruct (decide (k' = k)); simpl; lia.
Qed.

Lemma length_dict_set {V} (k : string) (v : V) (d : list (string * V)) :
  (length (dict_set k v d) <= S (length d))%nat.
Proof.
  induction d as [|[k' v'] d IH]; simpl; [lia|].
  destruct (decide (k' = k)); simpl; lia.
Qed.

Lemma _close_position_steady (self : Backtester) symbol exit_idx details df self' :
  _close_position self symbol exit_idx details df = Some self' -> steady self self'.
Proof.
  intros H. apply _close_position_inv in H.
  destruct H as (position & ret & _ & _ & ->).
  split; [reflexivity|]. split; [repeat split|]. split; [reflexivity|].
  split; [reflexivity|].
  intros [Hs Hn]. split; [exact Hs|]. cbn.
  pose proof (length_dict_del symbol (positions self)). lia.
Qed.

Lemma _open_position_steady (self : Backtester) symbol date price df self' :
  _open_position self symbol date price df = Some self' -> steady self self'.
Proof.
  intros H. apply _open_position_inv in H.
  destruct H as [[-> _] | (sizing & idx & Hsize & Hopen & _ & ->)]; [apply steady_refl|].
  split; [reflexivity|]. split; [repeat split|]. split; [reflexivity|].
  split; [reflexivity|].
  intros [Hs Hn]. split; [exact Hs|]. cbn.
  destruct (calculate_position_size_inv _ _ _ _ Hsize) as [[Hc _] | (_ & Hlt & _)];
    [congruence|].
  match goal with |- context [dict_set ?k ?v ?d] =>
    pose proof (length_dict_set k v d) end.
  lia.
Qed.

Lemma close_each_steady (self : Backtester) data cl self' :
  close_each self data cl = Some self' -> steady self self'.
Proof.
  revert self. induction cl as [|[[symbol idx] details] cl IH]; intros self H.
  - injection H as <-. apply steady_refl.
  - simpl in H. destruct (data !! symbol) as [df|]; [|discriminate]. simpl in H.
    destruct (_close_position self symbol idx details df) as [mid|] eqn:Hmid;
      [|discriminate].
    simpl in H. eapply steady_trans; [eapply _close_position_steady; exact Hmid|].
    apply IH. exact H.
Qed.

Lemma open_each_steady (self : Backtester) data opps self' :
  open_each self data opps = Some self' -> steady self self'.
Proof.
  revert self. induction opps as [|o opps IH]; intros self H.
  - injection H as <-. apply steady_refl.
  - simpl in H. destruct (data !! o_symbol o) as [df|]; [|discriminate]. simpl in H.
    destruct (_open_position self (o_symbol o) (o_date o) (o_price o) df) as [mid|] eqn:Hmid;
      [|discriminate].
    simpl in H. eapply steady_trans; [eapply _open_position_steady; exact Hmid|].
    apply IH. exact H.
Qed.

Lemma _check_exits_steady (self : Backtester) date data ma_period use_ma_exit self' :
  _check_exits self date data ma_period use_ma_exit = Some self' -> steady self self'.
Proof.
  unfold _check_exits. intros H.
  destruct (scan_exits _ _ _ _ _ _) as [[ps cl]|] eqn:Hscan; [|discriminate].
  simpl in H. apply scan_exits_positions in Hscan.
  eapply steady_trans; [|eapply close_each_steady; exact H].
  split; [reflexivity|]. split; [repeat split|]. split; [reflexivity|].
  split; [reflexivity|].
  intros [Hs Hn]. split; [exact Hs|]. cbn.
  apply Forall2_length in Hscan. lia.
Qed.

Lemma _check_universe_exits_steady (self : Backtester) date universe data self' :
  _check_universe_exits self date universe data = Some self' -> steady self self'.
Proof.
  unfold _check_universe_exits. intros H.
  destruct (scan_universe_exits _ _ _ _) as [cl|]; [|discriminate].
  simpl in H. eapply close_each_steady. exact H.
Qed.

Lemma _check_entries_filtered_steady (self : Backtester) date signals data universe self' :
  _check_entries_filtered self date signals data universe = Some self' -> steady self self'.
Proof.
  unfold _check_entries_filtered. intros H.
  destruct (bt_max_positions self <=? _)%Z.
  - injection H as <-. apply steady_refl.
  - eapply open_each_steady. exact H.
Qed.
Lemma daily_gate (self : Backtester) (bound date : datetime) gate stop :
  unhalted bound self -> (bound < date)%Z ->
  0 < daily_loss_limit_pct self ->
  _check_daily_loss_limit self date = Some (gate, stop) ->
  stop = false /\ gate = set_daily self (Some date) (capital self) false.
Proof.
  intros [Hstop Hdate] Hlt Hlimit H.
  assert (Hne : current_date self <> Some date).
  { intros Hd. specialize (Hdate _ Hd). lia. }
  destruct (Qeq_dec (capital self) 0) as [Hzero|Hnz].
  - exfalso. unfold _check_daily_loss_limit in H.
    rewrite bool_decide_eq_true_2 in H by exact Hne. cbn in H.
    unfold fdiv in H. apply Qeq_bool_iff in Hzero. rewrite Hzero in H. discriminate.
  - rewrite daily_rollover in H by assumption. injection H as <- <-. split; reflexivity.
Qed.

Lemma weekly_fields (self : Backtester) date self' :
  _check_weekly_loss_limit self date = Some self' ->
  equity_history self' = equity_history self /\
  daily_trading_stopped self' = daily_trading_stopped self /\
  current_date self' = current_date self /\
  daily_loss_limit_pct self' = daily_loss_limit_pct self.
Proof.
  unfold _check_weekly_loss_limit.
  set (s0 := if bool_decide _ then _ else self).
  assert (Hb : equity_history s0 = equity_history self /\
               daily_trading_stopped s0 = daily_trading_stopped self /\
               current_date s0 = current_date self /\
               daily_loss_limit_pct s0 = daily_loss_limit_pct self)
    by (unfold s0; destruct (bool_decide _); repeat split).
  clearbody s0.
  destruct (fdiv _ _); simpl; [|discriminate].
  destruct (Qle_bool _ _ && Qeq_bool _ 1); intros H; injection H as <-; exact Hb.
Qed.

Lemma daily_fields (self : Backtester) date self' stop :
  _check_daily_loss_limit self date = Some (self', stop) ->
  equity_history self' = equity_history self /\
  daily_loss_limit_pct self' = daily_loss_limit_pct self.
Proof.
  unfold _check_daily_loss_limit.
  set (s0 := if bool_decide _ then _ else self).
  assert (Hb : equity_history s0 = equity_history self /\
               daily_loss_limit_pct s0 = daily_loss_limit_pct self)
    by (unfold s0; destruct (bool_decide _); repeat split).
  clearbody s0.
  destruct (daily_trading_stopped s0); [intros H; injection H as <- <-; exact Hb|].
  destruct (fdiv _ _); simpl; [|discriminate].
  destruct (Qle_bool _ _); intros H; injection H as <- <-; exact Hb.
Qed.

Lemma same_book_slots (a b : Backtester) : same_book a b -> slots_ok a -> slots_ok b.
Proof.
  intros (_ & _ & Hp & _ & Hs & Hm & _) [H1 H2]. unfold slots_ok.
  rewrite <- Hp, <- Hs, <- Hm. split; assumption.
Qed.

Lemma _check_entries_keeps (self : Backtester) date signals data self' :
  _check_entries self date signals data = Some self' ->
  equity_history self' = equity_history self /\
  bt_max_positions self' = bt_max_positions self /\
  daily_loss_limit_pct self' = daily_loss_limit_pct self /\
  (slots_ok self -> slots_ok self').
Proof.
  unfold _check_entries.
  destruct (_check_daily_loss_limit self date) as [[gate stop]|] eqn:Hd; simpl;
    [|discriminate].
  pose proof (daily_same_book _ _ _ _ Hd) as Hbook.
  destruct (daily_fields _ _ _ _ Hd) as [Hh Hl].
  assert (Hm : bt_max_positions gate = bt_max_positions self)
    by (destruct Hbook as (_&_&_&_&_&Hm&_); symmetry; exact Hm).
  destruct stop.
  { intros [= <-]. split; [exact Hh|]. split; [exact Hm|]. split; [exact Hl|].
    apply same_book_slots. exact Hbook. }
  destruct (_check_weekly_loss_limit gate date) as [gate'|] eqn:Hw; simpl; [|discriminate].
  pose proof (weekly_same_book _ _ _ Hw) as Hbook'.
  destruct (weekly_fields _ _ _ Hw) as (Hh' & _ & _ & Hl').
  assert (Hm' : bt_max_positions gate' = bt_max_positions gate)
    by (destruct Hbook' as (_&_&_&_&_&Hm'&_); symmetry; exact Hm').
  assert (Hslots : slots_ok self -> slots_ok gate')
    by (intros Hs; eapply same_book_slots; [exact Hbook'|];
        eapply same_book_slots; [exact Hbook|exact Hs]).
  destruct (_ <=? _)%Z.
  { intros [= <-]. split; [congruence|]. split; [congruence|]. split; [congruence|].
    exact Hslots. }
  intros H. apply open_each_steady in H.
  destruct H as (G1 & _ & G3 & G4 & G5).
  split; [congruence|]. split; [congruence|]. split; [congruence|]. auto.
Qed.

Lemma _check_entries_unhalted (self : Backtester) bound date signals data self' :
  unhalted bound self -> (bound < date)%Z ->
  0 < daily_loss_limit_pct self ->
  _check_entries self date signals data = Some self' ->
  unhalted date self'.
Proof.
  intros Hun Hlt Hlimit. unfold _check_entries.
  destruct (_check_daily_loss_limit self date) as [[gate stop]|] eqn:Hd; simpl;
    [|discriminate].
  destruct (daily_gate _ _ _ _ _ Hun Hlt Hlimit Hd) as [-> ->].
  destruct (_check_weekly_loss_limit _ date) as [gate'|] eqn:Hw; simpl; [|discriminate].
  destruct (weekly_fields _ _ _ Hw) as (_ & Hs & Hc & _). cbn in Hs, Hc.
  assert (Hgate : unhalted date gate').
  { split; [exact Hs|]. intros d Hd'. rewrite Hc in Hd'. injection Hd' as <-. lia. }
  destruct (_ <=? _)%Z; [intros [= <-]; exact Hgate|].
  intros H. apply open_each_steady in H.
  destruct H as (_ & (_ & _ & Hcd & _ & _ & Hst) & _).
  destruct Hgate as [G1 G2]. split; [congruence|].
  intros d Hd'. apply G2. congruence.
Qed.

Lemma steady_unhalted (a b : Backtester) bound :
  steady a b -> unhalted bound a -> unhalted bound b.
Proof.
  intros (_ & (_ & _ & Hcd & _ & _ & Hst) & _) [G1 G2].
  split; [congruence|]. intros d Hd. apply G2. congruence.
Qed.
Lemma close_remaining_steady (symbols : list string) :
  forall (self : Backtester) data self',
    close_remaining self data symbols = Some self' -> steady self self'.
Proof.
  induction symbols as [|symbol rest IH]; intros self data self' H.
  - injection H as <-. apply steady_refl.
  - simpl in H.
    destruct (dict_get symbol (positions self)) as [position|]; [|discriminate].
    simpl in H. destruct (data !! symbol) as [df|]; [|discriminate]. simpl in H.
    destruct (last (rows df)) as [last_row|]; [|discriminate]. simpl in H.
    destruct (_close_position self symbol _ _ df) as [mid|] eqn:Hmid; [|discriminate].
    simpl in H. eapply steady_trans; [eapply _close_position_steady; exact Hmid|].
    eapply IH. exact H.
Qed.

Lemma _update_equity_row (self : Backtester) date data :
  exists row,
    equity_history (_update_equity self date data) = equity_history self ++ [row] /\
    eq_date row = date /\
    eq_equity row = eq_cash row + eq_positions_value row /\
    eq_num_positions row = length (positions self).
Proof. eexists. repeat split. Qed.

Lemma _update_equity_steady_but_history (self : Backtester) date data :
  same_risk self (_update_equity self date data) /\
  bt_max_positions (_update_equity self date data) = bt_max_positions self /\
  daily_loss_limit_pct (_update_equity self date data) = daily_loss_limit_pct self /\
  (slots_ok self -> slots_ok (_update_equity self date data)).
Proof. repeat split; auto; destruct H; assumption. Qed.

Lemma step_row ma_period use_ma_exit signals data (self : Backtester) date self' :
  step ma_period use_ma_exit signals data self date = Some self' ->
  bt_max_positions self' = bt_max_positions self /\
  daily_loss_limit_pct self' = daily_loss_limit_pct self /\
  (slots_ok self -> slots_ok self') /\
  exists row,
    equity_history self' = equity_history self ++ [row] /\
    eq_date row = date /\
    eq_equity row = eq_cash row + eq_positions_value row /\
    (slots_ok self -> (Z.of_nat (eq_num_positions row) <= bt_max_positions self)%Z).
Proof.
  unfold step. intros H.
  destruct (_check_exits self date data ma_period use_ma_exit) as [s1|] eqn:H1;
    [|discriminate].
  simpl in H.
  destruct (_check_entries s1 date signals data) as [s2|] eqn:H2; [|discriminate].
  simpl in H. injection H as <-.
  apply _check_exits_steady in H1. destruct H1 as (A1 & _ & A3 & A4 & A5).
  apply _check_entries_keeps in H2. destruct H2 as (B1 & B2 & B3 & B4).
  split; [cbn; congruence|]. split; [cbn; congruence|].
  split; [intros Hs; apply _update_equity_steady_but_history; auto|].
  destruct (_update_equity_row s2 date data) as (row & Hrow & Hd & Hsum & Hn).
  exists row. split; [rewrite Hrow; congruence|]. split; [exact Hd|].
  split; [exact Hsum|].
  intros Hs. rewrite Hn. destruct (B4 (A5 Hs)) as [_ Hle]. lia.
Qed.

Lemma step_unhalted ma_period use_ma_exit signals data (self : Backtester) bound date self' :
  unhalted bound self -> (bound < date)%Z ->
  0 < daily_loss_limit_pct self ->
  step ma_period use_ma_exit signals data self date = Some self' ->
  unhalted date self'.
Proof.
  intros Hun Hlt Hlimit. unfold step. intros H.
  destruct (_check_exits self date data ma_period use_ma_exit) as [s1|] eqn:H1;
    [|discriminate].
  simpl in H.
  destruct (_check_entries s1 date signals data) as [s2|] eqn:H2; [|discriminate].
  simpl in H. injection H as <-.
  apply _check_exits_steady in H1.
  assert (Hun1 : unhalted bound s1) by (eapply steady_unhalted; eassumption).
  assert (Hl1 : 0 < daily_loss_limit_pct s1).
  { destruct H1 as (_ & _ & _ & -> & _). exact Hlimit. }
  exact (_check_entries_unhalted _ _ _ _ _ _ Hun1 Hlt Hl1 H2).
Qed.

Lemma simulate_rows ma_period use_ma_exit signals data days :
  forall (self self' : Backtester),
    slots_ok self ->
    simulate ma_period use_ma_exit signals data self days = Some self' ->
    slots_ok self' /\
    bt_max_positions self' = bt_max_positions self /\
    exists new_rows,
      equity_history self' = equity_history self ++ new_rows /\
      map eq_date new_rows = days /\
      Forall (equity_row_ok (bt_max_positions self)) new_rows.
Proof.
  induction days as [|date days IH]; intros self self' Hs H; simpl in H.
  - injection H as <-. split; [exact Hs|]. split; [reflexivity|].
    exists []. rewrite app_nil_r. repeat split. constructor.
  - destruct (step ma_period use_ma_exit signals data self date) as [s1|] eqn:H1;
      [|discriminate].
    simpl in H. apply step_row in H1.
    destruct H1 as (Hm & _ & Hs1 & row & Hrow & Hd & Hsum & Hn).
    destruct (IH _ _ (Hs1 Hs) H) as (Hs' & Hm' & rest & Hrest & Hdates & Hall).
    split; [exact Hs'|]. split; [congruence|].
    exists (row :: rest). split; [rewrite Hrest, Hrow, <- app_assoc; reflexivity|].
    split; [simpl; congruence|].
    constructor; [split; [exact Hsum|exact (Hn Hs)]|].
    rewrite <- Hm. exact Hall.
Qed.

Lemma simulate_unhalted ma_period use_ma_exit signals data days :
  StronglySorted Z.lt days ->
  forall bound (self self' : Backtester),
    Forall (Z.lt bound) days ->
    unhalted bound self ->
    0 < daily_loss_limit_pct self ->
    simulate ma_period use_ma_exit signals data self days = Some self' ->
    daily_trading_stopped self' = false.
Proof.
  induction 1 as [|date days Hs IH Hall]; intros bound self self' Hb Hun Hlimit H;
    simpl in H.
  - injection H as <-. destruct Hun as [Hstop _]. exact Hstop.
  - destruct (step ma_period use_ma_exit signals data self date) as [s1|] eqn:H1;
      [|discriminate].
    simpl in H. apply Forall_cons in Hb. destruct Hb as [Hb1 Hb].
    assert (Hl1 : 0 < daily_loss_limit_pct s1).
    { destruct (step_row _ _ _ _ _ _ _ H1) as (_ & -> & _). exact Hlimit. }
    eapply (IH date); [exact Hall| |exact Hl1|exact H].
    eapply step_unhalted; eassumption.
Qed.

Lemma realistic_step_row ma_period use_ma_exit signals data universe
    (self : Backtester) date self' :
  realistic_step ma_period use_ma_exit signals data universe self date = Some self' ->
  same_risk self self' /\
  bt_max_positions self' = bt_max_positions self /\
  (slots_ok self -> slots_ok self') /\
  exists row,
    equity_history self' = equity_history self ++ [row] /\
    eq_date row = date /\
    eq_equity row = eq_cash row + eq_positions_value row /\
    (slots_ok self -> (Z.of_nat (eq_num_positions row) <= bt_max_positions self)%Z).
Proof.
  unfold realistic_step. intros H.
  destruct (_check_universe_exits self date universe data) as [s0|] eqn:H0;
    [|discriminate].
  simpl in H.
  destruct (_check_exits s0 date data ma_period use_ma_exit) as [s1|] eqn:H1;
    [|discriminate].
  simpl in H.
  destruct (_check_entries_filtered s1 date signals data universe) as [s2|] eqn:H2;
    [|discriminate].
  simpl in H. injection H as <-.
  apply _check_universe_exits_steady in H0. apply _check_exits_steady in H1.
  apply _check_entries_filtered_steady in H2.
  pose proof (steady_trans _ _ _ (steady_trans _ _ _ H0 H1) H2) as (A1 & A2 & A3 & A4 & A5).
  split.
  { eapply same_risk_trans; [exact A2|]. apply _update_equity_steady_but_history. }
  split; [cbn; exact A3|].
  split; [intros Hs; apply _update_equity_steady_but_history; auto|].
  destruct (_update_equity_row s2 date data) as (row & Hrow & Hd & Hsum & Hn).
  exists row. split; [rewrite Hrow; congruence|]. split; [exact Hd|].
  split; [exact Hsum|].
  intros Hs. rewrite Hn. destruct (A5 Hs) as [_ Hle]. lia.
Qed.

Lemma simulate_realistic_rows ma_period use_ma_exit signals data updates dates days :
  forall c (self : Backtester) c' self',
    slots_ok self ->
    simulate_realistic ma_period use_ma_exit signals data updates dates c self days
      = Some (c', self') ->
    slots_ok self' /\
    same_risk self self' /\
    bt_max_positions self' = bt_max_positions self /\
    exists new_rows,
      equity_history self' = equity_history self ++ new_rows /\
      map eq_date new_rows = days /\
      Forall (equity_row_ok (bt_max_positions self)) new_rows.
Proof.
  induction days as [|date days IH]; intros c self c' self' Hs H; simpl in H.
  - injection H as <- <-. split; [exact Hs|]. split; [apply same_risk_refl|].
    split; [reflexivity|].
    exists []. rewrite app_nil_r. repeat split. constructor.
  - destruct (update_universe updates dates c date) as [c1|]; [|discriminate].
    simpl in H.
    destruct (realistic_step ma_period use_ma_exit signals data (current_universe c1)
                self date) as [s1|] eqn:H1; [|discriminate].
    simpl in H. apply realistic_step_row in H1.
    destruct H1 as (Hr & Hm & Hs1 & row & Hrow & Hd & Hsum & Hn).
    destruct (IH _ _ _ _ (Hs1 Hs) H) as (Hs' & Hr' & Hm' & rest & Hrest & Hdates & Hall).
    split; [exact Hs'|]. split; [eapply same_risk_trans; eassumption|].
    split; [congruence|].
    exists (row :: rest). split; [rewrite Hrest, Hrow, <- app_assoc; reflexivity|].
    split; [simpl; congruence|].
    constructor; [split; [exact Hsum|exact (Hn Hs)]|].
    rewrite <- Hm. exact Hall.
Qed.

Lemma Backtester_init_slots ic risk stop maxp comm slip dl wl :
  (0 <= maxp)%Z -> slots_ok (Backtester_init ic risk stop maxp comm slip dl wl).
Proof. intros H. split; [reflexivity|]. simpl. exact H. Qed.

(** X16.  Both loops record exactly one equity row per trading day, in
    strictly increasing date order: for [Backtester.run] the days are the
    distinct timestamps of the signal frames, for [run_realistic] those on
    or after the start date.  Every row's equity is its cash plus its
    positions' value, and no row counts more open positions than
    [max_positions] (for a non-negative [max_positions]).  Closing the
    remaining positions at the end adds no row. *)
Theorem X16_equity_rows check_entry_signal ic risk stop maxp comm slip dl wl :
  (0 <= maxp)%Z ->
  (forall symbols data ma_period use_ma_exit final,
      run check_entry_signal (Backtester_init ic risk stop maxp comm slip dl wl)
          symbols data ma_period use_ma_exit = Some final ->
      map eq_date (equity_history final)
        = sorted_dates (all_dates (build_signals check_entry_signal symbols data [])) /\
      StronglySorted Z.lt (map eq_date (equity_history final)) /\
      Forall (equity_row_ok maxp) (equity_history final)) /\
  (forall universe_updates signals data start_date ma_period use_ma_exit cursor final,
      run_realistic (Backtester_init ic risk stop maxp comm slip dl wl)
          universe_updates signals data start_date ma_period use_ma_exit
        = Some (cursor, final) ->
      map eq_date (equity_history final) = realistic_trading_days signals start_date /\
      StronglySorted Z.lt (map eq_date (equity_history final)) /\
      Forall (equity_row_ok maxp) (equity_history final)).
Proof.
  intros Hmax.
  pose proof (Backtester_init_slots ic risk stop maxp comm slip dl wl Hmax) as Hinit.
  split.
  - intros symbols data ma_period use_ma_exit final H. unfold run in H.
    destruct (simulate _ _ _ _ _ _) as [s|] eqn:Hsim; [|discriminate]. simpl in H.
    destruct (simulate_rows _ _ _ _ _ _ _ Hinit Hsim)
      as (_ & _ & new_rows & Hrows & Hdates & Hall).
    apply close_remaining_steady in H. destruct H as (Hh & _).
    rewrite Hh, Hrows. simpl. rewrite Hdates.
    split; [reflexivity|]. split; [apply sorted_dates_sorted|exact Hall].
  - intros updates signals data start_date ma_period use_ma_exit cursor final H.
    unfold run_realistic in H.
    destruct (simulate_realistic _ _ _ _ _ _ _ _ _) as [[c s]|] eqn:Hsim; [|discriminate].
    simpl in H.
    destruct (_close_all_positions s data) as [s'|] eqn:Hclose; [|discriminate].
    simpl in H. injection H as <- <-.
    destruct (simulate_realistic_rows _ _ _ _ _ _ _ _ _ _ _ Hinit Hsim)
      as (_ & _ & _ & new_rows & Hrows & Hdates & Hall).
    apply close_remaining_steady in Hclose. destruct Hclose as (Hh & _).
    rewrite Hh, Hrows. simpl. rewrite Hdates.
    split; [reflexivity|]. split; [apply sorted_dates_sorted|exact Hall].
Qed.

Lemma X16_equity_rows_witness :
  run example_entry_signal example_backtester ["AAA"; "BBB"]%string example_data 2 true
    = Some example_final /\
  map eq_date (equity_history example_final)
    = [example_day 0; example_day 1; example_day 2; example_day 3; example_day 4] /\
  Forall (equity_row_ok 5) (equity_history example_final).
Proof.
  split; [vm_compute; reflexivity|].
  destruct (proj1 (X16_equity_rows example_entry_signal 10000 (2 # 100) (20 # 100) 5
                     (1 # 1000) (1 # 1000) (3 # 100) (8 # 100) ltac:(lia))
              ["AAA"; "BBB"]%string example_data 2%nat true example_final
              ltac:(vm_compute; reflexivity)) as (Hdates & _ & Hall).
  split; [rewrite Hdates; vm_compute; reflexivity|exact Hall].
Defined.

(** X17.  With a positive daily loss limit the daily halt never fires in
    [Backtester.run]: the loop visits strictly increasing timestamps and
    checks the limit once per timestamp, where the reference capital has
    just been reset, so [daily_trading_stopped] is false after every
    step. *)
Theorem X17_daily_halt_never_fires check_entry_signal ic risk stop maxp comm slip dl wl :
  0 < dl ->
  (forall signals data ma_period use_ma_exit days s,
      StronglySorted Z.lt days ->
      simulate ma_period use_ma_exit signals data
               (Backtester_init ic risk stop maxp comm slip dl wl) days = Some s ->
      daily_trading_stopped s = false) /\
  (forall symbols data ma_period use_ma_exit final,
      run check_entry_signal (Backtester_init ic risk stop maxp comm slip dl wl)
          symbols data ma_period use_ma_exit = Some final ->
      daily_trading_stopped final = false).
Proof.
  intros Hdl.
  assert (Hsim : forall signals data ma_period use_ma_exit days s,
             StronglySorted Z.lt days ->
             simulate ma_period use_ma_exit signals data
                      (Backtester_init ic risk stop maxp comm slip dl wl) days = Some s ->
             daily_trading_stopped s = false).
  { intros signals data ma_period use_ma_exit days s Hsorted H.
    destruct days as [|d days].
    - injection H as <-. reflexivity.
    - eapply (simulate_unhalted _ _ _ _ _ Hsorted (d - 1)%Z
                (Backtester_init ic risk stop maxp comm slip dl wl) s);
        [| |exact Hdl|exact H].
      + apply StronglySorted_inv in Hsorted. destruct Hsorted as [_ Hall].
        constructor; [lia|]. eapply Forall_impl; [exact Hall|]. intros x Hx. simpl in Hx. lia.
      + split; [reflexivity|]. discriminate. }
  split; [exact Hsim|].
  intros symbols data ma_period use_ma_exit final H. unfold run in H.
  destruct (simulate _ _ _ _ _ _) as [s|] eqn:Hs; [|discriminate]. simpl in H.
  apply Hsim in Hs; [|apply sorted_dates_sorted].
  apply close_remaining_steady in H.
  destruct H as (_ & (_ & _ & _ & _ & _ & Hst) & _). congruence.
Qed.

Lemma X17_daily_halt_never_fires_witness :
  run example_entry_signal example_backtester ["AAA"; "BBB"]%string example_data 2 true
    = Some example_final /\
  daily_trading_stopped example_final = false.
Proof.
  split; [vm_compute; reflexivity|].
  apply (proj2 (X17_daily_halt_never_fires example_entry_signal 10000 (2 # 100) (20 # 100) 5
                  (1 # 1000) (1 # 1000) (3 # 100) (8 # 100) ltac:(reflexivity))
           ["AAA"; "BBB"]%string example_data 2%nat true example_final).
  vm_compute. reflexivity.
Defined.

(** X18.  [run_realistic] never applies either loss limit: its entry
    check calls neither [_check_daily_loss_limit] nor
    [_check_weekly_loss_limit], so at the end of a run the size multiplier
    is still 1, no halt is set, and the daily and weekly references are
    still the initial capital. *)
Theorem X18_realistic_ignores_loss_limits ic risk stop maxp comm slip dl wl
    universe_updates signals data start_date ma_period use_ma_exit cursor final :
  run_realistic (Backtester_init ic risk stop maxp comm slip dl wl)
      universe_updates signals data start_date ma_period use_ma_exit
    = Some (cursor, final) ->
  size_multiplier final = 1 /\
  daily_trading_stopped final = false /\
  current_date final = None /\ current_week final = None /\
  daily_start_capital final = ic /\ weekly_start_capital final = ic.
Proof.
  intros H. unfold run_realistic in H.
  destruct (simulate_realistic _ _ _ _ _ _ _ _ _) as [[c s]|] eqn:Hsim; [|discriminate].
  simpl in H.
  destruct (_close_all_positions s data) as [s'|] eqn:Hclose; [|discriminate].
  simpl in H. injection H as <- <-.
  assert (Hrisk : same_risk (Backtester_init ic risk stop maxp comm slip dl wl) s').
  { apply close_remaining_steady in Hclose. destruct Hclose as (_ & Hr & _).
    eapply same_risk_trans; [|exact Hr].
    clear Hr. revert Hsim. generalize (mkCursor [] 0 []).
    generalize (Backtester_init ic risk stop maxp comm slip dl wl).
    generalize (sorted_dates
      (concat (map (fun e => filter (fun t => (start_date <=? t)%Z = true)
                                    (map s_timestamp e.2)) signals))).
    intros days. revert c s.
    induction days as [|date days IH]; intros c s self c0 Hsim; simpl in Hsim.
    - injection Hsim as <- <-. apply same_risk_refl.
    - destruct (update_universe _ _ c0 date) as [c1|]; [|discriminate]. simpl in Hsim.
      destruct (realistic_step _ _ _ _ _ self date) as [s1|] eqn:H1; [|discriminate].
      simpl in Hsim. apply realistic_step_row in H1. destruct H1 as (Hr & _).
      eapply same_risk_trans; [exact Hr|]. eapply IH. exact Hsim. }
  destruct Hrisk as (H1 & H2 & H3 & H4 & H5 & H6). cbn in *.
  repeat split; congruence.
Qed.

Lemma X18_realistic_ignores_loss_limits_witness :
  run_realistic example_backtester [(example_day 0, ["AAA"; "BBB"]%string)]
      example_signals example_data (example_day 0) 2 true = Some example_realistic /\
  size_multiplier example_realistic.2 = 1 /\
  daily_trading_stopped example_realistic.2 = false /\
  size_multiplier example_halved = 1 # 2.
Proof.
  split; [vm_compute; reflexivity|].
  destruct (X18_realistic_ignores_loss_limits 10000 (2 # 100) (20 # 100) 5
              (1 # 1000) (1 # 1000) (3 # 100) (8 # 100)
              [(example_day 0, ["AAA"; "BBB"]%string)]
              example_signals example_data (example_day 0) 2%nat true
              example_realistic.1 example_realistic.2 ltac:(vm_compute; reflexivity))
    as (H1 & H2 & _).
  split; [exact H1|]. split; [exact H2|reflexivity].
Defined.
Lemma scan_exits_dates stop_pct date data ma_period use_ma_exit ps ps' cl :
  scan_exits stop_pct date data ma_period use_ma_exit ps = Some (ps', cl) ->
  Forall (fun c : Closing => ed_timestamp c.2 = date) cl.
Proof.
  revert ps' cl. induction ps as [|[symbol position] ps IH]; intros ps' cl; csimpl.
  - intros [= <- <-]. constructor.
  - destruct (data !! symbol) as [df|] eqn:Hdf.
    + destruct (index_of date (rows df)) as [idx|] eqn:Hidx.
      * destruct (rows df !! idx) as [row|] eqn:Hrow; simpl; [|discriminate].
        destruct (check_exit_signal _ _ _ _ _ _ _) as [[trig details]|] eqn:Hsig; simpl;
          [|discriminate].
        destruct (scan_exits _ _ _ _ _ ps) as [[ps1 cl1]|]; simpl; [|discriminate].
        intros H. inversion H; subst.
        destruct trig; [constructor|]; try (eapply IH; reflexivity).
        simpl.
        apply check_exit_signal_inv in Hsig as (row' & Hrow' & _ & _ & _ & Hts & _).
        rewrite Hts.
        apply index_of_Some in Hidx. destruct Hidx as (r & Hr & Hd). congruence.
      * destruct (scan_exits _ _ _ _ _ ps) as [[ps1 cl1]|]; simpl; [|discriminate].
        intros H. inversion H; subst. eapply IH; reflexivity.
    + destruct (scan_exits _ _ _ _ _ ps) as [[ps1 cl1]|]; simpl; [|discriminate].
      intros H. inversion H; subst. eapply IH; reflexivity.
Qed.

Lemma _check_exits_held (self : Backtester) bound date data ma_period use_ma_exit self' :
  entered_by bound self -> (bound < date)%Z ->
  _check_exits self date data ma_period use_ma_exit = Some self' ->
  entered_by bound self' /\
  exists ts, trades self' = trades self ++ ts /\ Forall held_over ts.
Proof.
  intros Hent Hlt. unfold _check_exits.
  destruct (scan_exits _ _ _ _ _ _) as [[ps cl]|] eqn:Hscan; simpl; [|discriminate].
  intros Hclose.
  pose proof (scan_exits_symbols _ _ _ _ _ _ _ _ Hscan) as Hsym.
  pose proof (scan_exits_dates _ _ _ _ _ _ _ _ Hscan) as Hdates.
  apply scan_exits_positions in Hscan.
  assert (Hps : Forall (fun e : string * Position => (entry_date e.2 <= bound)%Z) ps).
  { unfold entered_by in Hent. clear -Hent Hscan.
    induction Hscan as [|e e' l l' Hp _ IH]; [constructor|].
    apply Forall_cons in Hent. destruct Hent as [He Hl].
    constructor; [|apply IH; exact Hl].
    destruct Hp as (_ & _ & Hd & _). rewrite Hd. exact He. }
  apply close_each_trace in Hclose as (ts & Hts & Hall & Hsub & _).
  simpl in Hts, Hsub. split.
  - unfold entered_by. rewrite Forall_forall in Hps |- *.
    intros e He. apply Hps. apply Hsub. exact He.
  - exists ts. split; [exact Hts|].
    clear -Hall Hsym Hdates Hps Hlt.
    induction Hall as [|c t cl ts Hc _ IH]; [constructor|].
    apply Forall_cons in Hsym as [[_ Hreason] Hsym].
    apply Forall_cons in Hdates as [Hdate Hdates].
    constructor; [|apply IH; assumption].
    destruct Hc as (_ & Hr & Hx & _ & _ & p & Hin & Hentry & _).
    right. split; [rewrite Hr; exact Hreason|].
    rewrite Hx, Hdate, Hentry. simpl in Hin.
    rewrite Forall_forall in Hps. specialize (Hps _ Hin). simpl in Hps. lia.
Qed.

Lemma _open_position_entered (self : Backtester) symbol date price df self' :
  entered_by date self ->
  _open_position self symbol date price df = Some self' ->
  entered_by date self' /\ trades self' = trades self.
Proof.
  intros Hent H. apply _open_position_inv in H.
  destruct H as [[-> _] | (sizing & idx & _ & _ & _ & ->)]; [split; [exact Hent|reflexivity]|].
  split; [|reflexivity].
  unfold entered_by in *. cbn. rewrite Forall_forall in Hent |- *.
  intros e He. apply dict_set_elem in He. destruct He as [->|He]; [simpl; lia|].
  apply Hent. exact He.
Qed.

Lemma open_each_entered (self : Backtester) data date opps self' :
  entered_by date self ->
  Forall (fun o => o_date o = date) opps ->
  open_each self data opps = Some self' ->
  entered_by date self' /\ trades self' = trades self.
Proof.
  revert self. induction opps as [|o opps IH]; intros self Hent Hall H.
  - injection H as <-. split; [exact Hent|reflexivity].
  - apply Forall_cons in Hall. destruct Hall as [Ho Hall]. simpl in H.
    destruct (data !! o_symbol o) as [df|]; [|discriminate]. simpl in H.
    destruct (_open_position self (o_symbol o) (o_date o) (o_price o) df) as [mid|] eqn:Hmid;
      [|discriminate].
    simpl in H. rewrite Ho in Hmid.
    destruct (_open_position_entered _ _ _ _ _ _ Hent Hmid) as [Hent' Ht].
    destruct (IH _ Hent' Hall H) as [Hent'' Ht'].
    split; [exact Hent''|congruence].
Qed.

Lemma ranked_entries_elem (self : Backtester) (opps : list Opportunity) (o : Opportunity) :
  o ∈ ranked_entries self opps -> o ∈ opps.
Proof.
  unfold ranked_entries. intros H.
  rewrite <- (sort_by_strength_perm opps).
  eapply elem_of_sublist; [exact H|apply sublist_take].
Qed.

Lemma entered_by_later (bound bound' : datetime) (self : Backtester) :
  (bound <= bound')%Z -> entered_by bound self -> entered_by bound' self.
Proof.
  intros Hle H. unfold entered_by in *. eapply Forall_impl; [exact H|].
  intros e He. simpl in He. lia.
Qed.

Lemma same_book_entered (a b : Backtester) bound :
  same_book a b -> entered_by bound a -> entered_by bound b /\ trades b = trades a.
Proof.
  intros (_ & _ & Hp & Ht & _) H. unfold entered_by in *. rewrite <- Hp.
  split; [exact H|symmetry; exact Ht].
Qed.

Lemma candidates_dated eligible date signals :
  Forall (fun o => o_date o = date) (omap (opportunity_of eligible date) signals).
Proof.
  apply Forall_forall. intros o Ho. apply list_elem_of_omap in Ho.
  destruct Ho as (entry & _ & Ho). apply opportunity_of_symbol in Ho.
  destruct Ho as (_ & _ & Hd & _). exact Hd.
Qed.

Lemma ranked_dated (self : Backtester) eligible date signals :
  Forall (fun o => o_date o = date)
         (ranked_entries self (omap (opportunity_of eligible date) signals)).
Proof.
  apply Forall_forall. intros o Ho. apply ranked_entries_elem in Ho.
  pose proof (candidates_dated eligible date signals) as H.
  rewrite Forall_forall in H. apply H. exact Ho.
Qed.

Lemma _check_entries_entered (self : Backtester) date signals data self' :
  entered_by date self ->
  _check_entries self date signals data = Some self' ->
  entered_by date self' /\ trades self' = trades self.
Proof.
  intros Hent. unfold _check_entries.
  destruct (_check_daily_loss_limit self date) as [[gate stop]|] eqn:Hd; simpl;
    [|discriminate].
  apply daily_same_book in Hd.
  destruct (same_book_entered _ _ _ Hd Hent) as [Hgate Htg].
  destruct stop; [intros [= <-]; split; assumption|].
  destruct (_check_weekly_loss_limit gate date) as [gate'|] eqn:Hw; simpl; [|discriminate].
  apply weekly_same_book in Hw.
  destruct (same_book_entered _ _ _ Hw Hgate) as [Hgate' Htg'].
  destruct (_ <=? _)%Z; [intros [= <-]; split; [assumption|congruence]|].
  intros H. apply open_each_entered with (date := date) in H;
    [|exact Hgate'|apply ranked_dated].
  destruct H as [H1 H2]. split; [exact H1|congruence].
Qed.

Lemma step_held ma_period use_ma_exit signals data (self : Backtester) bound date self' :
  entered_by bound self -> (bound < date)%Z ->
  Forall held_over (trades self) ->
  step ma_period use_ma_exit signals data self date = Some self' ->
  entered_by date self' /\ Forall held_over (trades self').
Proof.
  intros Hent Hlt Hheld. unfold step. intros H.
  destruct (_check_exits self date data ma_period use_ma_exit) as [s1|] eqn:H1;
    [|discriminate].
  simpl in H.
  destruct (_check_entries s1 date signals data) as [s2|] eqn:H2; [|discriminate].
  simpl in H. injection H as <-.
  destruct (_check_exits_held _ _ _ _ _ _ _ Hent Hlt H1) as (Hent1 & ts & Hts & Hall).
  apply (entered_by_later bound date) in Hent1; [|lia].
  destruct (_check_entries_entered _ _ _ _ _ Hent1 H2) as [Hent2 Ht2].
  split; [exact Hent2|]. cbn. rewrite Ht2, Hts. apply Forall_app. split; assumption.
Qed.

Lemma simulate_held ma_period use_ma_exit signals data days :
  StronglySorted Z.lt days ->
  forall bound (self self' : Backtester),
    Forall (Z.lt bound) days ->
    entered_by bound self ->
    Forall held_over (trades self) ->
    simulate ma_period use_ma_exit signals data self days = Some self' ->
    Forall held_over (trades self').
Proof.
  induction 1 as [|date days Hs IH Hall]; intros bound self self' Hb Hent Hheld H;
    simpl in H.
  - injection H as <-. exact Hheld.
  - destruct (step ma_period use_ma_exit signals data self date) as [s1|] eqn:H1;
      [|discriminate].
    simpl in H. apply Forall_cons in Hb. destruct Hb as [Hb1 Hb].
    destruct (step_held _ _ _ _ _ _ _ _ Hent Hb1 Hheld H1) as [Hent1 Hheld1].
    exact (IH date s1 self' Hall Hent1 Hheld1 H).
Qed.

Lemma close_remaining_held (symbols : list string) :
  forall (self : Backtester) data self',
    Forall held_over (trades self) ->
    close_remaining self data symbols = Some self' ->
    Forall held_over (trades self').
Proof.
  induction symbols as [|symbol rest IH]; intros self data self' Hheld H.
  - injection H as <-. exact Hheld.
  - simpl in H.
    destruct (dict_get symbol (positions self)) as [position|]; [|discriminate].
    simpl in H. destruct (data !! symbol) as [df|]; [|discriminate]. simpl in H.
    destruct (last (rows df)) as [last_row|]; [|discriminate]. simpl in H.
    destruct (_close_position self symbol _ _ df) as [mid|] eqn:Hmid; [|discriminate].
    simpl in H. eapply IH; [|exact H].
    apply _close_position_inv in Hmid. destruct Hmid as (p & ret & _ & _ & ->).
    cbn. apply Forall_app. split; [exact Hheld|].
    constructor; [|constructor]. left. reflexivity.
Qed.

(** X19.  In the ledger of a completed [Backtester.run] every trade was
    closed by the trailing stop, by the MA exit or at the end of the run,
    and a trade closed by either signal exits on a strictly later bar than
    the one it entered on: exits are checked before entries on every bar,
    so a position is never opened and closed by a signal on the same
    bar. *)
Theorem X19_signal_exits_after_entry check_entry_signal ic risk stop maxp comm slip dl wl
    symbols data ma_period use_ma_exit final :
  run check_entry_signal (Backtester_init ic risk stop maxp comm slip dl wl)
      symbols data ma_period use_ma_exit = Some final ->
  Forall (fun t =>
            (exit_reason t = trailing_stop \/ exit_reason t = ma_exit \/
             exit_reason t = end_of_backtest) /\
            (exit_reason t <> end_of_backtest -> (t_entry_date t < exit_date t)%Z))
         (trades final).
Proof.
  intros H. unfold run in H.
  destruct (simulate _ _ _ _ _ _) as [s|] eqn:Hs; [|discriminate]. simpl in H.
  assert (Hheld : Forall held_over (trades s)).
  { set (days := sorted_dates _) in Hs.
    assert (Hsorted : StronglySorted Z.lt days) by apply sorted_dates_sorted.
    destruct days as [|d days].
    - injection Hs as <-. constructor.
    - eapply (simulate_held _ _ _ _ _ Hsorted (d - 1)%Z); [| | |exact Hs].
      + apply StronglySorted_inv in Hsorted. destruct Hsorted as [_ Hall].
        constructor; [lia|]. eapply Forall_impl; [exact Hall|]. intros x Hx. simpl in Hx. lia.
      + constructor.
      + constructor. }
  apply close_remaining_held in H; [|exact Hheld].
  eapply Forall_impl; [exact H|]. intros t [Hend | [Hr Hlt]].
  - split; [auto|]. intros Hne. contradiction.
  - split; [destruct Hr; auto|]. intros _. exact Hlt.
Qed.

Lemma X19_signal_exits_after_entry_witness :
  run example_entry_signal example_backtester ["AAA"; "BBB"]%string example_data 2 true
    = Some example_final /\
  map exit_reason (trades example_final) = [trailing_stop; end_of_backtest] /\
  Forall (fun t =>
            (exit_reason t = trailing_stop \/ exit_reason t = ma_exit \/
             exit_reason t = end_of_backtest) /\
            (exit_reason t <> end_of_backtest -> (t_entry_date t < exit_date t)%Z))
         (trades example_final).
Proof.
  split; [vm_compute; reflexivity|]. split; [reflexivity|].
  apply (X19_signal_exits_after_entry example_entry_signal 10000 (2 # 100) (20 # 100) 5
           (1 # 1000) (1 # 1000) (3 # 100) (8 # 100) ["AAA"; "BBB"]%string
           example_data 2%nat true example_final).
  vm_compute. reflexivity.
Defined.

(** ** Result assembly *)

Lemma pct_change_tail (x : Q) (rest : list Q) :
  Forall (fun v => ~ v == 0) (x :: rest) ->
  exists rs,
    zip_with pct_step (x :: rest) rest = map Fin rs /\
    length rs = length rest /\
    x * compound rs == default x (last rest).
Proof.
  revert x. induction rest as [|y rest IH]; intros x Hnz.
  - exists []. split; [reflexivity|]. split; [reflexivity|]. simpl. ring.
  - apply Forall_cons in Hnz. destruct Hnz as [Hx Hrest].
    destruct (IH y Hrest) as (rs & Hzip & Hlen & Hprod).
    exists (y / x - 1 :: rs). split; [|split].
    + change (zip_with pct_step (x :: y :: rest) (y :: rest))
        with (pct_step x y :: zip_with pct_step (y :: rest) rest).
      rewrite Hzip. unfold pct_step, np_divide.
      destruct (Qeq_bool x 0) eqn:E; [apply Qeq_bool_iff in E; contradiction|].
      reflexivity.
    + simpl. rewrite Hlen. reflexivity.
    + rewrite last_cons_default. cbn [default].
      change (compound (y / x - 1 :: rs)) with ((1 + (y / x - 1)) * compound rs).
      apply (Qeq_trans _ (y * compound rs)); [|exact Hprod].
      generalize (compound rs). intros c. field. exact Hx.
Qed.

Lemma last_map_default {A B} (f : A -> B) (x : A) (l : list A) :
  default (f x) (last (map f l)) = f (default x (last l)).
Proof.
  revert x. induction l as [|y l IH]; intros x; [reflexivity|].
  cbn [map]. rewrite !last_cons_default. cbn [default]. apply IH.
Qed.

Lemma dropna_fin (rs : list Q) : dropna (map Fin rs) = map Fin rs.
Proof.
  induction rs as [|r rs IH]; [reflexivity|].
  unfold dropna in *. cbn [map]. rewrite filter_cons. cbn [is_nan].
  destruct (decide (false = false)); [|congruence]. f_equal. exact IH.
Qed.

(** X20.  [_generate_results] hands back the ledger and the equity history
    as they are.  For an equity curve that is never zero, the [returns]
    column has one entry per row, [daily_returns] holds only finite
    numbers, one per row after the first (only the leading NaN is
    dropped), and compounding them from the first equity gives the last
    equity. *)
Theorem X20_daily_returns_compound (self : Backtester) :
  Forall (fun r => ~ eq_equity r == 0) (equity_history self) ->
  let result := _generate_results self in
  r_trades result = trades self /\
  r_equity_curve result = equity_history self /\
  length (r_returns result) = length (equity_history self) /\
  exists rs,
    r_daily_returns result = map Fin rs /\
    length rs = (length (equity_history self) - 1)%nat /\
    forall first final,
      head (equity_history self) = Some first ->
      last (equity_history self) = Some final ->
      eq_equity first * compound rs == eq_equity final.
Proof.
  intros Hnz result. split; [reflexivity|]. split; [reflexivity|].
  unfold result, _generate_results. cbn [r_returns r_daily_returns].
  destruct (equity_history self) as [|row rows] eqn:Hh.
  - split; [reflexivity|]. exists []. split; [reflexivity|]. split; [reflexivity|].
    discriminate.
  - assert (Hq : Forall (fun v => ~ v == 0) (eq_equity row :: map eq_equity rows)).
    { change (eq_equity row :: map eq_equity rows) with (map eq_equity (row :: rows)).
      apply Forall_fmap. exact Hnz. }
    destruct (pct_change_tail _ _ Hq) as (rs & Hzip & Hlen & Hprod).
    cbn [map pct_change]. rewrite Hzip.
    split; [simpl; rewrite length_map, Hlen, length_map; reflexivity|].
    exists rs. split.
    + unfold dropna. rewrite filter_cons. cbn [is_nan].
      destruct (decide (true = false)); [discriminate|]. apply dropna_fin.
    + split; [rewrite Hlen, length_map; simpl; lia|].
      intros first final Hfirst Hlast. injection Hfirst as <-.
      rewrite Hprod. rewrite last_cons_default in Hlast. injection Hlast as <-.
      rewrite last_map_default. reflexivity.
Qed.

Lemma X20_daily_returns_compound_witness :
  Forall (fun r => ~ eq_equity r == 0) (equity_history example_final) /\
  exists rs,
    r_daily_returns (_generate_results example_final) = map Fin rs /\
    length rs = 4%nat.
Proof.
  assert (Hnz : Forall (fun r => ~ eq_equity r == 0) (equity_history example_final)).
  { repeat constructor; intros H; vm_compute in H; discriminate H. }
  split; [exact Hnz|].
  destruct (X20_daily_returns_compound example_final Hnz) as (_ & _ & _ & rs & Hrs & Hlen & _).
  exists rs. split; [exact Hrs|exact Hlen].
Defined.

(** ** Static universe *)

Lemma scan_universe_exits_inside date universe data (ps : list (string * Position)) :
  (forall k, k ∈ ps.*1 -> k ∈ universe) ->
  scan_universe_exits date universe data ps = Some [].
Proof.
  induction ps as [|[symbol position] ps IH]; intros H; [reflexivity|].
  cbn [scan_universe_exits].
  rewrite bool_decide_eq_true_2 by (apply H; left).
  apply IH. intros k Hk. apply H. right. exact Hk.
Qed.

Lemma elem_of_sorted_dates (x : datetime) (l : list datetime) :
  x ∈ sorted_dates l -> x ∈ l.
Proof.
  unfold sorted_dates. induction l as [|d l IH]; simpl; intros H; [exact H|].
  pose proof (sorted_dates_sorted l) as Hs. unfold sorted_dates in Hs.
  apply (insert_date_sorted d) in Hs. destruct Hs as [_ Hin].
  destruct (Hin _ H) as [->|H']; [left|right; apply IH; exact H'].
Qed.

Lemma elem_of_concat_map {A B} (f : A -> list B) (l : list A) (x : B) :
  x ∈ concat (map f l) -> exists e, e ∈ l /\ x ∈ f e.
Proof.
  induction l as [|a l IH]; simpl; intros H.
  - apply elem_of_nil in H. contradiction.
  - apply elem_of_app in H. destruct H as [H|H].
    + exists a. split; [left|exact H].
    + destruct (IH H) as (e & He & Hx). exists e. split; [right; exact He|exact Hx].
Qed.

Lemma realistic_trading_days_after signals start_date :
  Forall (Z.le start_date) (realistic_trading_days signals start_date).
Proof.
  apply Forall_forall. intros d Hd. unfold realistic_trading_days in Hd.
  apply elem_of_sorted_dates in Hd.
  apply elem_of_concat_map in Hd. destruct Hd as (e & _ & Hd).
  apply list_elem_of_filter in Hd. destruct Hd as [Hd _].
  apply Z.leb_le in Hd. exact Hd.
Qed.

Lemma close_remaining_trace (symbols : list string) :
  forall (self : Backtester) data self',
    close_remaining self data symbols = Some self' ->
    exists ts,
      trades self' = trades self ++ ts /\
      Forall (fun t => exit_reason t = end_of_backtest /\ t_symbol t ∈ symbols) ts.
Proof.
  induction symbols as [|symbol rest IH]; intros self data self' H.
  - injection H as <-. exists []. rewrite app_nil_r. split; [reflexivity|constructor].
  - simpl in H.
    destruct (dict_get symbol (positions self)) as [position|]; [|discriminate].
    simpl in H. destruct (data !! symbol) as [df|]; [|discriminate]. simpl in H.
    destruct (last (rows df)) as [last_row|]; [|discriminate]. simpl in H.
    destruct (_close_position self symbol _ _ df) as [mid|] eqn:Hmid; [|discriminate].
    simpl in H. destruct (IH _ _ _ H) as (ts & Hts & Hall).
    apply _close_position_inv in Hmid. destruct Hmid as (p & ret & _ & _ & ->).
    cbn in Hts. eexists (_ :: ts). split; [rewrite Hts, <- app_assoc; reflexivity|].
    constructor; [split; [reflexivity|left]|].
    eapply Forall_impl; [exact Hall|]. intros t [H1 H2]. split; [exact H1|right; exact H2].
Qed.

Section StaticUniverse.
Variables (universe : list string) (start_date : datetime).
Variables (ma_period : nat) (use_ma_exit : bool).
Variables (signals : list (string * list SignalRow)) (data : gmap string DataFrame).

Let inside (self : Backtester) : Prop :=
  (forall k, k ∈ (positions self).*1 -> k ∈ universe) /\
  Forall (fun t => exit_reason t <> removed_from_universe /\ t_symbol t ∈ universe)
         (trades self).

Lemma realistic_step_inside (self : Backtester) date self' :
  inside self ->
  realistic_step ma_period use_ma_exit signals data universe self date = Some self' ->
  inside self'.
Proof.
  intros [Hkeys Htrades]. unfold realistic_step, _check_universe_exits.
  rewrite scan_universe_exits_inside by exact Hkeys. cbn.
  intros H.
  destruct (_check_exits self date data ma_period use_ma_exit) as [s1|] eqn:H1;
    [|discriminate].
  simpl in H.
  destruct (_check_entries_filtered s1 date signals data universe) as [s2|] eqn:H2;
    [|discriminate].
  simpl in H. injection H as <-.
  apply _check_exits_trace in H1. destruct H1 as (Hsub & ts & Hts & Hall).
  apply _check_entries_filtered_trace in H2. destruct H2 as (Ht2 & Hk2).
  split; cbn.
  - intros k Hk. destruct (Hk2 k Hk) as [Hold|Hu]; [|exact Hu].
    apply Hkeys. eapply elem_of_sublist; eassumption.
  - rewrite Ht2, Hts. apply Forall_app. split; [exact Htrades|].
    eapply Forall_impl; [exact Hall|]. intros t [Hsym Hr]. split.
    + destruct Hr as [-> | ->]; discriminate.
    + apply Hkeys. exact Hsym.
Qed.

Lemma simulate_static days :
  Forall (Z.le start_date) days ->
  forall c (self : Backtester) c' self',
    (next_update_idx c = 0%nat \/
     next_update_idx c = 1%nat /\ current_universe c = universe) ->
    inside self ->
    simulate_realistic ma_period use_ma_exit signals data [(start_date, universe)]
                       [start_date] c self days = Some (c', self') ->
    inside self' /\
    (days <> [] -> current_universe c' = universe) /\
    (next_update_idx c = 1%nat -> universe_history c' = universe_history c) /\
    (length (universe_history c') <= S (length (universe_history c)))%nat.
Proof.
  induction 1 as [|date days Hdate _ IH]; intros c self c' self' Hc Hin H; simpl in H.
  - injection H as <- <-. split; [exact Hin|]. split; [congruence|]. split; [reflexivity|lia].
  - assert (Hup : exists c1,
               update_universe [(start_date, universe)] [start_date] c date = Some c1 /\
               next_update_idx c1 = 1%nat /\ current_universe c1 = universe /\
               (length (universe_history c1) <= S (length (universe_history c)))%nat /\
               (next_update_idx c = 1%nat -> universe_history c1 = universe_history c)).
    { unfold update_universe. destruct Hc as [Hidx | [Hidx Hu]]; rewrite Hidx; simpl.
      - destruct (Z.leb_spec start_date date) as [_|Hlt]; [|lia].
        rewrite Z.eqb_refl. simpl. eexists. split; [reflexivity|].
        split; [reflexivity|]. split; [reflexivity|]. split; [|lia].
        simpl. destruct (same_members _ _); simpl; [lia|]. rewrite length_app. simpl. lia.
      - exists c. split; [reflexivity|]. split; [exact Hidx|]. split; [exact Hu|].
        split; [lia|reflexivity]. }
    destruct Hup as (c1 & Hc1 & Hidx1 & Hu1 & Hlen1 & Hsame). rewrite Hc1 in H. simpl in H.
    rewrite Hu1 in H.
    destruct (realistic_step _ _ _ _ _ self date) as [s1|] eqn:H1; [|discriminate].
    simpl in H.
    pose proof (realistic_step_inside _ _ _ Hin H1) as Hin1.
    destruct (IH c1 s1 c' self' (or_intror (conj Hidx1 Hu1)) Hin1 H) as (G1 & G2 & G3 & _).
    specialize (G3 Hidx1).
    split; [exact G1|]. split.
    + intros _. destruct days as [|d days]; [|apply G2; discriminate].
      simpl in H. injection H as <- <-. exact Hu1.
    + split; [intros Hi; rewrite G3; apply Hsame; exact Hi|]. rewrite G3. exact Hlen1.
Qed.
End StaticUniverse.

(** X21.  With a non-empty static universe, [run_realistic] uses one
    snapshot, dated at the start, for the whole run: the universe in force
    after the first trading day is the static list, at most one universe
    change is logged, no trade is ever closed as [removed_from_universe],
    and every traded symbol belongs to the static list. *)
Theorem X21_static_universe ic risk stop maxp comm slip dl wl
    (universe : list string) (scanned : list (datetime * list string))
    signals data start_date ma_period use_ma_exit updates cursor final :
  universe_updates_for (Some universe) scanned start_date = Some updates ->
  run_realistic (Backtester_init ic risk stop maxp comm slip dl wl)
      updates signals data start_date ma_period use_ma_exit = Some (cursor, final) ->
  updates = [(start_date, universe)] /\
  Forall (fun t => exit_reason t <> removed_from_universe /\ t_symbol t ∈ universe)
         (trades final) /\
  (realistic_trading_days signals start_date <> [] -> current_universe cursor = universe) /\
  (length (universe_history cursor) <= 1)%nat.
Proof.
  intros Hup H.
  assert (Hupdates : updates = [(start_date, universe)]).
  { destruct universe; simpl in Hup; [discriminate|]. injection Hup as <-. reflexivity. }
  subst updates. split; [reflexivity|].
  unfold run_realistic in H.
  change (sorted_dates [(start_date, universe)].*1) with [start_date] in H.
  fold (realistic_trading_days signals start_date) in H.
  destruct (simulate_realistic _ _ _ _ _ _ _ _ _) as [[c s]|] eqn:Hsim; [|discriminate].
  simpl in H.
  destruct (_close_all_positions s data) as [s'|] eqn:Hclose; [|discriminate].
  simpl in H. injection H as <- <-.
  apply simulate_static in Hsim.
  - destruct Hsim as ((Hkeys & Htrades) & Hu & _ & Hlen).
    split; [|split; [exact Hu|exact Hlen]].
    apply close_remaining_trace in Hclose. destruct Hclose as (ts & -> & Hall).
    apply Forall_app. split; [exact Htrades|].
    eapply Forall_impl; [exact Hall|]. intros t [Hr Hs]. split.
    + rewrite Hr. discriminate.
    + apply Hkeys. exact Hs.
  - apply realistic_trading_days_after.
  - left. reflexivity.
  - split; [intros k Hk; apply elem_of_nil in Hk; contradiction|constructor].
Qed.

Lemma X21_static_universe_witness :
  universe_updates_for (Some ["AAA"; "BBB"]%string) [] (example_day 0)
    = Some [(example_day 0, ["AAA"; "BBB"]%string)] /\
  run_realistic example_backtester [(example_day 0, ["AAA"; "BBB"]%string)]
      example_signals example_data (example_day 0) 2 true = Some example_realistic /\
  length (trades example_realistic.2) = 2%nat /\
  Forall (fun t => exit_reason t <> removed_from_universe /\
                   t_symbol t ∈ ["AAA"; "BBB"]%string)
         (trades example_realistic.2) /\
  current_universe example_realistic.1 = ["AAA"; "BBB"]%string.
Proof.
  split; [reflexivity|]. split; [vm_compute; reflexivity|]. split; [reflexivity|].
  destruct (X21_static_universe 10000 (2 # 100) (20 # 100) 5
              (1 # 1000) (1 # 1000) (3 # 100) (8 # 100)
              ["AAA"; "BBB"]%string [] example_signals example_data (example_day 0)
              2%nat true [(example_day 0, ["AAA"; "BBB"]%string)]
              example_realistic.1 example_realistic.2
              eq_refl ltac:(vm_compute; reflexivity)) as (_ & Hall & Hu & _).
  split; [exact Hall|]. apply Hu. vm_compute. discriminate.
Defined.

(** ** Volume indicators *)

Lemma Qsum_nonneg_elem (l : list Q) (x : Q) :
  Forall (fun v => 0 <= v) l -> x ∈ l -> 0 <= x <= Qsum l.
Proof.
  induction 1 as [|y l Hy Hl IH]; intros Hx.
  - apply elem_of_nil in Hx. contradiction.
  - change (Qsum (y :: l)) with (y + Qsum l).
    assert (Hs : 0 <= Qsum l).
    { clear -Hl. induction Hl as [|z l Hz _ IH]; [unfold Qsum; simpl; lra|].
      change (Qsum (z :: l)) with (z + Qsum l). lra. }
    apply elem_of_cons in Hx. destruct Hx as [->|Hx]; [lra|].
    specialize (IH Hx). lra.
Qed.

Lemma window_last (period : nat) (xs : list Q) (i : nat) (x : Q) :
  xs !! i = Some x -> (1 <= period <= S i)%nat ->
  window period xs i !! (period - 1)%nat = Some x.
Proof.
  intros Hx Hp. unfold window.
  rewrite lookup_take_lt by lia. rewrite lookup_drop.
  replace (S i - period + (period - 1))%nat with i by lia. exact Hx.
Qed.

Lemma elem_of_window (period : nat) (xs : list Q) (i : nat) (x : Q) :
  x ∈ window period xs i -> x ∈ xs.
Proof.
  unfold window. intros H.
  eapply elem_of_sublist; [exact H|].
  etransitivity; [apply sublist_take|apply sublist_drop].
Qed.

(** X22.  For non-negative volumes, a relative volume ratio that is a
    number lies between 0 and the window length: the current bar is part
    of its own average, so with the default 20-bar window the RVR can never
    exceed 20.  It is a number only once the window is full and the
    average volume is positive, and then it is the volume divided by that
    average. *)
Theorem X22_relative_volume_bounded (df : DataFrame) (period i : nat) (row : Row) (x : Q) :
  Forall (fun r => 0 <= volume r) (rows df) ->
  rows df !! i = Some row ->
  (calculate_relative_volume_ratio df period).2 !! i = Some (Some x) ->
  (1 <= period <= S i)%nat /\
  0 <= x <= inject_Z (Z.of_nat period) /\
  exists average,
    (calculate_relative_volume_ratio df period).1 !! i = Some (Some average) /\
    0 < average /\ x * average == volume row.
Proof.
  intros Hpos Hrow Hx. unfold calculate_relative_volume_ratio in *. cbn [fst snd] in *.
  unfold calculate_avg_volume in *.
  set (volumes := map volume (rows df)) in *.
  assert (Hv : volumes !! i = Some (volume row)).
  { unfold volumes. change (map volume (rows df)) with (volume <$> rows df).
    rewrite list_lookup_fmap, Hrow. reflexivity. }
  assert (Hi : (i < length volumes)%nat) by (apply lookup_lt_Some in Hv; exact Hv).
  rewrite lookup_zip_with, Hv in Hx. cbn in Hx.
  rewrite lookup_rolling_mean_at in Hx |- * by exact Hi. cbn in Hx.
  destruct (Nat.le_gt_cases period (S i)) as [Hle|Hgt].
  2: { rewrite rolling_mean_at_warmup in Hx by (left; lia). discriminate. }
  destruct (Nat.eq_dec period 0%nat) as [->|Hnz].
  { rewrite rolling_mean_at_warmup in Hx by (right; reflexivity). discriminate. }
  assert (Hp : (1 <= period <= S i)%nat) by lia.
  rewrite rolling_mean_at_full in Hx |- * by assumption.
  set (seen := window period volumes i) in *.
  assert (Hn : 0 < inject_Z (Z.of_nat period)).
  { change 0 with (inject_Z 0). rewrite <- Zlt_Qlt. lia. }
  assert (Hseen : Forall (fun v => 0 <= v) seen).
  { apply Forall_forall. intros v Hin. apply elem_of_window in Hin.
    unfold volumes in Hin. change (map volume (rows df)) with (volume <$> rows df) in Hin.
    apply list_elem_of_fmap in Hin. destruct Hin as (r & -> & Hr).
    rewrite Forall_forall in Hpos. apply Hpos. exact Hr. }
  assert (Hin : volume row ∈ seen).
  { eapply list_elem_of_lookup_2. apply window_last; eassumption. }
  destruct (Qsum_nonneg_elem _ _ Hseen Hin) as [Hv0 Hvs].
  unfold ratio_nan in Hx.
  destruct (Qeq_bool (Qsum seen / inject_Z (Z.of_nat period)) 0) eqn:E; [discriminate|].
  apply Qeq_bool_false in E. injection Hx as <-.
  assert (Havg : 0 < Qsum seen / inject_Z (Z.of_nat period)).
  { assert (H0 : 0 <= Qsum seen / inject_Z (Z.of_nat period))
      by (apply Qle_shift_div_l; lra).
    destruct (Qlt_le_dec 0 (Qsum seen / inject_Z (Z.of_nat period))) as [H|H]; [exact H|].
    exfalso. apply E. lra. }
  split; [exact Hp|]. split.
  - split.
    + apply Qle_shift_div_l; lra.
    + apply Qle_shift_div_r; [exact Havg|].
      setoid_replace (inject_Z (Z.of_nat period) * (Qsum seen / inject_Z (Z.of_nat period)))
        with (Qsum seen) using relation Qeq by (field; lra).
      exact Hvs.
  - eexists. split; [reflexivity|]. split; [exact Havg|]. field.
    split; [lra|]. intros H0. apply E. rewrite H0. unfold Qdiv. ring.
Qed.

Lemma X22_relative_volume_bounded_witness :
  Forall (fun r => 0 <= volume r) (rows example_aaa) /\
  exists x,
    (calculate_relative_volume_ratio example_aaa 2).2 !! 1%nat = Some (Some x) /\
    0 <= x <= 2.
Proof.
  assert (Hpos : Forall (fun r => 0 <= volume r) (rows example_aaa))
    by (repeat constructor; discriminate).
  split; [exact Hpos|].
  assert (H : { x | (calculate_relative_volume_ratio example_aaa 2).2 !! 1%nat
                    = Some (Some x) }) by (eexists; vm_compute; reflexivity).
  destruct H as [x Hx]. exists x. split; [exact Hx|].
  apply (X22_relative_volume_bounded example_aaa 2 1
           (example_row (example_day 1) 10 10 9 10 500) x Hpos eq_refl Hx).
Defined.

Lemma count_below_last (series : list Q) (current : Q) :
  last series = Some current ->
  (length (filter (fun x => Qltb x current = true) series) <= length series - 1)%nat.
Proof.
  intros Hlast.
  destruct (last_Some series current) as [H _]. destruct (H Hlast) as [front ->].
  rewrite filter_app, !length_app. simpl.
  rewrite filter_cons.
  destruct (decide (Qltb current current = true)) as [Hlt|_].
  - apply Qltb_lt in Hlt. exfalso. apply (Qlt_irrefl _ Hlt).
  - pose proof (length_filter (fun x => Qltb x current = true) front). simpl. lia.
Qed.

(** X23.  [calculate_volume_percentile] gives one value per row.  It is NaN
    until the lookback window is full, and always for a lookback below
    two.  Otherwise it is the number of window values strictly below the
    current volume, divided by [lookback - 1]: a number between 0 and 1
    that is 0 exactly when no value of the window is below the current
    one. *)
Theorem X23_volume_percentile (df : DataFrame) (lookback i : nat) :
  length (calculate_volume_percentile df lookback) = length (rows df) /\
  ((S i < lookback)%nat \/ (lookback < 2)%nat ->
   forall p, calculate_volume_percentile df lookback !! i <> Some (Some p)) /\
  (forall row, rows df !! i = Some row -> (2 <= lookback <= S i)%nat ->
     let seen := window lookback (map volume (rows df)) i in
     let below := filter (fun x => Qltb x (volume row) = true) seen in
     exists p,
       calculate_volume_percentile df lookback !! i = Some (Some p) /\
       p * inject_Z (Z.of_nat (lookback - 1)) == inject_Z (Z.of_nat (length below)) /\
       0 <= p <= 1 /\
       (p == 0 <-> forall x, x ∈ seen -> volume row <= x)).
Proof.
  unfold calculate_volume_percentile.
  set (volumes := map volume (rows df)).
  split; [rewrite length_map, length_seq; unfold volumes; apply length_map|].
  split.
  - intros Hw p Hp.
    change (map (rolling_apply_at percentile_rank lookback volumes) (seq 0 (length volumes)))
      with (rolling_apply_at percentile_rank lookback volumes <$> seq 0 (length volumes))
      in Hp.
    rewrite list_lookup_fmap in Hp.
    destruct (seq 0 (length volumes) !! i) as [j|] eqn:Hj; [|discriminate].
    apply lookup_seq in Hj. destruct Hj as [-> Hi]. simpl in Hp.
    injection Hp as Hp. unfold rolling_apply_at in Hp.
    destruct lookback as [|n]; [discriminate|].
    destruct (Nat.leb_spec (S n) (S i)) as [Hle|Hgt]; [|discriminate].
    destruct (Nat.eqb_spec (length (window (S n) volumes i)) (S n)) as [Hlen|_];
      [|discriminate].
    destruct Hw as [Hw|Hw]; [lia|].
    unfold percentile_rank in Hp. rewrite Hlen in Hp.
    destruct (Nat.ltb_spec (S n) 2) as [_|H2]; [discriminate|lia].
  - intros row Hrow Hp.
    set (seen := window lookback volumes i).
    set (below := filter (fun x => Qltb x (volume row) = true) seen).
    assert (Hv : volumes !! i = Some (volume row)).
    { unfold volumes. change (map volume (rows df)) with (volume <$> rows df).
      rewrite list_lookup_fmap, Hrow. reflexivity. }
    assert (Hi : (i < length volumes)%nat) by (apply lookup_lt_Some in Hv; exact Hv).
    change (map (rolling_apply_at percentile_rank lookback volumes) (seq 0 (length volumes)))
      with (rolling_apply_at percentile_rank lookback volumes <$> seq 0 (length volumes)).
    rewrite list_lookup_fmap, lookup_seq_lt by exact Hi. simpl.
    unfold rolling_apply_at. destruct lookback as [|n]; [lia|].
    destruct (Nat.leb_spec (S n) (S i)) as [_|Hgt]; [|lia].
    fold seen.
    assert (Hlen : length seen = S n) by (apply length_window; [exact Hi|lia]).
    rewrite Hlen, Nat.eqb_refl. unfold percentile_rank. rewrite Hlen.
    destruct (Nat.ltb_spec (S n) 2) as [H2|_]; [lia|].
    assert (Hlast : last seen = Some (volume row)).
    { rewrite last_lookup, Hlen. simpl.
      replace n with (S n - 1)%nat by lia. apply window_last; [exact Hv|lia]. }
    rewrite Hlast. cbn [mbind option_bind]. fold below.
    assert (Hcount := count_below_last seen (volume row) Hlast). fold below in Hcount.
    rewrite Hlen in Hcount.
    assert (Hn : 0 < inject_Z (Z.of_nat (S n - 1))).
    { change 0 with (inject_Z 0). rewrite <- Zlt_Qlt. lia. }
    assert (Hb0 : 0 <= inject_Z (Z.of_nat (length below))).
    { change 0 with (inject_Z 0). rewrite <- Zle_Qle. lia. }
    assert (Hb1 : inject_Z (Z.of_nat (length below)) <= inject_Z (Z.of_nat (S n - 1))).
    { rewrite <- Zle_Qle. lia. }
    eexists. split; [reflexivity|]. split; [field; lra|]. split.
    + split; [apply Qle_shift_div_l; lra|apply Qle_shift_div_r; lra].
    + split.
      * intros Hz x Hx.
        assert (Hnil : below = []).
        { destruct below as [|b bs] eqn:Hbelow; [reflexivity|]. exfalso.
          assert (Hpos : 0 < inject_Z (Z.of_nat (length (b :: bs)))).
          { change 0 with (inject_Z 0). rewrite <- Zlt_Qlt. simpl length. lia. }
          assert (Hq : 0 < inject_Z (Z.of_nat (length (b :: bs)))
                           / inject_Z (Z.of_nat (S n - 1)))
            by (apply Qlt_shift_div_l; lra).
          lra. }
        destruct (Qlt_le_dec x (volume row)) as [Hlt|Hle]; [|exact Hle].
        exfalso. assert (Hin : x ∈ below).
        { unfold below. apply list_elem_of_filter. split; [apply Qltb_lt; exact Hlt|exact Hx]. }
        rewrite Hnil in Hin. apply elem_of_nil in Hin. exact Hin.
      * intros Hall.
        assert (Hnil : below = []).
        { destruct below as [|b bs] eqn:Hbelow; [reflexivity|]. exfalso.
          assert (Hin : b ∈ below) by (rewrite Hbelow; left).
          unfold below in Hin. apply list_elem_of_filter in Hin. destruct Hin as [Hlt Hin].
          apply Qltb_lt in Hlt. specialize (Hall b Hin). lra. }
        rewrite Hnil. simpl. unfold Qdiv. ring.
Qed.

(** ** The live trading loop *)

Import TradingSystem.

(** The risk check is one straight-line function over a state that is
    rebound at every stage; its case analysis proceeds stage by stage, a
    binding being substituted only once the test that decides it is
    settled. *)
Ltac risk_fields H :=
  cbn beta iota delta
      [capital daily_start_capital weekly_start_capital monthly_start_capital
       size_multiplier daily_trading_stopped system_halted current_date
       current_week current_month set_daily set_weekly set_monthly
       mbind option_bind andb] in H.

Ltac risk_test H :=
  match type of H with
  | context [bool_decide ?P] => destruct (bool_decide_reflect P)
  | context [fdiv ?a ?b] => let E := fresh "E" in destruct (fdiv a b) eqn:E
  | context [Qle_bool ?a ?b] => let E := fresh "E" in destruct (Qle_bool a b) eqn:E
  | context [Qeq_bool ?a ?b] => let E := fresh "E" in destruct (Qeq_bool a b) eqn:E
  | context [if ?b then _ else _] => is_var b; destruct b
  end; risk_fields H.

Ltac risk_let H :=
  lazymatch type of H with
  | (let x := ?v in @?b x) = ?r => change (b v = r) in H; cbv beta in H
  end; risk_fields H.

Ltac risk_cases H :=
  cbv beta delta [check_risk_limits] in H; risk_fields H;
  repeat first [risk_test H | risk_let H].

(** X24.  A risk check of the live system that returns leaves the capital
    untouched and records the date it was made on.  It answers "stop"
    exactly when the daily stop is set afterwards or a monthly-limit event
    was handled in this call; a daily event sets the daily stop, a weekly
    event leaves the size multiplier at one half, a monthly event leaves the
    system halted.  A halt already in force is never lifted, and a size
    multiplier that was 1 or 0.5 stays one of the two. *)
Theorem X24_risk_check_outcome config now1 now2 now3 self self' stop events :
  check_risk_limits config now1 now2 now3 self = Some (self', stop, events) ->
  capital self' = capital self
  /\ current_date self' = Some (date_of now1)
  /\ (system_halted self = true -> system_halted self' = true)
  /\ (stop = true <->
      daily_trading_stopped self' = true \/ existsb is_monthly events = true)
  /\ (existsb is_daily events = true -> daily_trading_stopped self' = true)
  /\ (existsb is_weekly events = true -> size_multiplier self' = 1 # 2)
  /\ (existsb is_monthly events = true -> system_halted self' = true)
  /\ (size_multiplier self == 1 \/ size_multiplier self == 1 # 2 ->
      size_multiplier self' == 1 \/ size_multiplier self' == 1 # 2).
Proof.
  intros H. destruct self as [c d w m mult st halt cd cw cm].
  risk_cases H; try discriminate H; injection H as <- <- <-;
    cbn; repeat apply conj; try reflexivity; try discriminate; try tauto;
    try (intros _; reflexivity);
    try (intros; (left; reflexivity) || (right; reflexivity));
    apply dec_stable; assumption.
Qed.

Lemma X24_risk_check_outcome_witness :
  check_risk_limits default_config example_now example_now example_now example_system
  = Some example_checked
  /\ example_checked.1.2 = true
  /\ daily_trading_stopped example_checked.1.1 = true.
Proof.
  split; [vm_compute; reflexivity|]. split; [reflexivity|].
  destruct (X24_risk_check_outcome default_config example_now example_now example_now
              example_system example_checked.1.1 example_checked.1.2 example_checked.2
              ltac:(vm_compute; reflexivity))
    as (_ & _ & _ & _ & H & _).
  apply H. reflexivity.
Defined.

Ltac risk_goal_fields :=
  cbn beta iota delta
      [capital daily_start_capital weekly_start_capital monthly_start_capital
       size_multiplier daily_trading_stopped system_halted current_date
       current_week current_month set_daily set_weekly set_monthly
       mbind option_bind andb].

Ltac risk_known :=
  match goal with
  | E : fdiv ?a ?b = _ |- context [fdiv ?a ?b] => rewrite E
  | E : Qle_bool ?a ?b = _ |- context [Qle_bool ?a ?b] => rewrite E
  | E : Qeq_bool ?a ?b = _ |- context [Qeq_bool ?a ?b] => rewrite E
  | |- context [Qeq_bool (1 # 2) 1] => change (Qeq_bool (1 # 2) 1) with false
  | |- context [bool_decide ?P] =>
      destruct (bool_decide_reflect P); [congruence|]
  | |- context [bool_decide ?P] =>
      destruct (bool_decide_reflect P); [|congruence]
  | |- (let x := ?v in @?b x) = ?r => change (b v = r); cbv beta
  end; risk_goal_fields.

Ltac risk_replay :=
  cbv beta delta [check_risk_limits];
  repeat match goal with
  | H : _ = _ :> Z |- _ => rewrite H
  end;
  risk_goal_fields; repeat risk_known.

(** X25.  Checking again with the capital unchanged, on the same date, ISO
    week and month, changes nothing in the state and gives the same answer.
    The daily and weekly events are not handled a second time; the monthly
    event is handled again on every such check. *)
Theorem X25_risk_check_repeated config now1 now2 now3 later1 later2 later3
    self self' stop events :
  check_risk_limits config now1 now2 now3 self = Some (self', stop, events) ->
  date_of later1 = date_of now1 ->
  isocalendar_week later2 = isocalendar_week now2 ->
  month_of later3 = month_of now3 ->
  check_risk_limits config later1 later2 later3 self'
  = Some (self', stop, List.filter is_monthly events).
Proof.
  intros H H1 H2 H3. destruct self as [c d w m mult st halt cd cw cm].
  risk_cases H; try discriminate H; injection H as <- <- <-;
    repeat match goal with
    | n : ~ ?x <> Some _ |- _ => apply dec_stable in n; subst x
    end;
    repeat match goal with
    | E : Some ?a = Some ?b |- _ => injection E as E; subst
    end;
    risk_replay; reflexivity.
Qed.

Lemma X25_risk_check_repeated_witness :
  check_risk_limits default_config example_now example_now example_now example_system
  = Some example_checked
  /\ check_risk_limits default_config (example_now + 60)%Z (example_now + 61)%Z
       (example_now + 62)%Z example_checked.1.1
     = Some (example_checked.1.1, true, []).
Proof.
  split; [vm_compute; reflexivity|].
  apply (X25_risk_check_repeated default_config example_now example_now example_now
           (example_now + 60)%Z (example_now + 61)%Z (example_now + 62)%Z
           example_system example_checked.1.1 example_checked.1.2 example_checked.2);
    vm_compute; reflexivity.
Defined.

Lemma fdiv_None (a b : Q) : fdiv a b = None -> b == 0.
Proof.
  unfold fdiv. destruct (Qeq_bool b 0) eqn:E; [|discriminate].
  intros _. apply Qeq_bool_eq. exact E.
Qed.

Lemma fdiv_self_value (a q : Q) : fdiv (a - a) a = Some q -> q == 0.
Proof.
  unfold fdiv. destruct (Qeq_bool a 0) eqn:E; [discriminate|].
  intros [= <-]. unfold Qdiv. ring.
Qed.

(** X26.  The first check on a new calendar date (so also the first one
    after start-up) lifts the daily stop whatever the losses were: with a
    positive daily limit and non-zero capital and weekly and monthly
    references, the check returns, restarts the daily reference at the
    current capital, leaves the daily stop off, handles no daily event, and
    answers "stop" only for a monthly-limit event. *)
Theorem X26_new_day_lifts_daily_stop config now1 now2 now3 self :
  current_date self <> Some (date_of now1) ->
  0 < daily_loss_limit_pct config ->
  ~ capital self == 0 ->
  ~ weekly_start_capital self == 0 ->
  ~ monthly_start_capital self == 0 ->
  exists self' stop events,
    check_risk_limits config now1 now2 now3 self = Some (self', stop, events)
    /\ daily_trading_stopped self' = false
    /\ daily_start_capital self' = capital self
    /\ existsb is_daily events = false
    /\ (stop = true <-> existsb is_monthly events = true).
Proof.
  intros Hd Hl Hc Hw Hm. destruct self as [c d w m mult st halt cd cw cm].
  cbn in Hd, Hc, Hw, Hm.
  destruct (check_risk_limits _ _ _ _ _) as [[[self' stop] events]|] eqn:H.
  - exists self', stop, events. split; [reflexivity|].
    risk_cases H; try discriminate H; try contradiction;
      injection H as <- <- <-;
      repeat match goal with
      | E : Some ?a = Some ?b |- _ => injection E as E; subst
      end;
      try (exfalso;
           match goal with
           | E : fdiv (c - c) c = Some ?q, E' : Qle_bool ?q _ = true |- _ =>
               apply fdiv_self_value in E; apply Qle_bool_iff in E'; lra
           end);
      cbn; repeat apply conj; intros; first [assumption | reflexivity].
  - exfalso. risk_cases H; try discriminate H; try contradiction;
      repeat match goal with
      | E : Some ?a = Some ?b |- _ => injection E as E; subst
      end;
      match goal with
      | E : fdiv _ _ = None |- _ => apply fdiv_None in E; contradiction
      end.
Qed.

Lemma X26_new_day_lifts_daily_stop_witness :
  exists self' stop events,
    check_risk_limits default_config example_now example_now example_now (init 10000)
    = Some (self', stop, events)
    /\ daily_trading_stopped self' = false.
Proof.
  destruct (X26_new_day_lifts_daily_stop default_config example_now example_now
              example_now (init 10000))
    as (self' & stop & events & H & Hstop & _).
  - discriminate.
  - reflexivity.
  - discriminate.
  - discriminate.
  - discriminate.
  - exists self', stop, events. split; [exact H | exact Hstop].
Defined.

(** X27.  For a positive check interval and a well-formed UTC reading,
    [_calculate_next_check_time] fails in one case only: on 9999-12-31, the
    last day a [datetime] can hold, once the day's last boundary has
    passed, where adding a day overflows.  Otherwise it returns the next
    candle boundary: a well-formed time on the interval grid (hour a
    multiple of the interval, zero minutes, seconds and microseconds),
    strictly after now and at most one interval later, and no boundary of
    the grid lies strictly between now and it. *)
Theorem X27_next_check_time (check_interval_hours : Z) (now : clock) :
  (1 <= check_interval_hours)%Z -> clock_ok now ->
  (_calculate_next_check_time check_interval_hours now = None <->
   day now = _MAXORDINAL
   /\ (24 <= (hour now / check_interval_hours + 1) * check_interval_hours)%Z)
  /\ forall next,
       _calculate_next_check_time check_interval_hours now = Some next ->
       clock_ok next
       /\ aligned check_interval_hours next
       /\ (to_microseconds now < to_microseconds next
           <= to_microseconds now + check_interval_hours * 3600000000)%Z
       /\ forall c, clock_ok c -> aligned check_interval_hours c ->
            (to_microseconds now < to_microseconds c)%Z ->
            (to_microseconds next <= to_microseconds c)%Z.
Proof.
  intros Hi (Hd & Hh & Hm & Hs & Hu). destruct now as [dy h mi se us]. cbn in *.
  unfold _calculate_next_check_time. cbn [hour day].
  destruct (Z.eqb_spec check_interval_hours 0) as [|_]; [lia|].
  set (i := check_interval_hours) in *.
  set (k := (h / i)%Z).
  assert (Hk : (i * k <= h < i * (k + 1))%Z).
  { unfold k. pose proof (Z.mul_div_le h i ltac:(lia)).
    pose proof (Z.mul_succ_div_gt h i ltac:(lia)). lia. }
  assert (Hk0 : (0 <= k)%Z) by (unfold k; apply Z.div_pos; lia).
  clearbody k. unfold _MAXORDINAL in *.
  destruct (Z.leb_spec 24 ((k + 1) * i)) as [Hn|Hn].
  - cbn. unfold add_days, _MAXORDINAL. cbn [day hour minute second microsecond].
    destruct (Z.ltb_spec 0 (dy + 1)); [|lia].
    destruct (Z.leb_spec (dy + 1) 3652059) as [Hmax|Hmax]; cbn.
    + split; [split; [discriminate|lia]|].
      intros next [= <-].
      unfold clock_ok, aligned, to_microseconds, _MAXORDINAL. cbn.
      split; [lia|]. split; [rewrite Z.mod_0_l by lia; lia|].
      split; [nia|].
      intros [dy' h' mi' se' us'] (_ & Hh' & _) (Ha & -> & -> & ->). cbn in *.
      intros Hlt.
      assert (dy < dy' \/ dy' <= dy)%Z as [|] by lia; [nia|].
      exfalso.
      assert (Hh'' : (h < h')%Z) by nia.
      apply Z.mod_divide in Ha; [|lia]. destruct Ha as [j ->].
      assert (k < j)%Z by nia. nia.
    + split; [split; [intros _; lia|reflexivity]|]. discriminate.
  - unfold replace_hour.
    assert (0 <= (k + 1) * i)%Z by nia.
    destruct (Z.leb_spec 0 ((k + 1) * i)); [|lia].
    destruct (Z.ltb_spec ((k + 1) * i) 24); [|lia]. cbn.
    split; [split; [discriminate|lia]|].
    intros next [= <-].
    unfold clock_ok, aligned, to_microseconds, _MAXORDINAL. cbn.
    split; [lia|]. split; [rewrite Z.mod_mul by lia; lia|].
    split; [nia|].
    intros [dy' h' mi' se' us'] (_ & Hh' & _) (Ha & -> & -> & ->). cbn in *.
    intros Hlt.
    assert (dy < dy' \/ dy' = dy \/ dy' < dy)%Z as [|[->|]] by lia; [nia| |nia].
    assert (Hh'' : (h < h')%Z) by nia.
    apply Z.mod_divide in Ha; [|lia]. destruct Ha as [j ->].
    assert (k < j)%Z by nia. nia.
Qed.

Lemma X27_next_check_time_witness :
  _calculate_next_check_time 4 (mkClock 739000 21 3 4 5)
  = Some (mkClock 739001 0 0 0 0)
  /\ (to_microseconds (mkClock 739000 21 3 4 5)
      < to_microseconds (mkClock 739001 0 0 0 0))%Z
  /\ _calculate_next_check_time 4 (mkClock _MAXORDINAL 21 3 4 5) = None.
Proof.
  split; [reflexivity|]. split.
  - destruct (X27_next_check_time 4 (mkClock 739000 21 3 4 5)) as [_ H].
    + lia.
    + unfold clock_ok, _MAXORDINAL. cbn. lia.
    + destruct (H (mkClock 739001 0 0 0 0) eq_refl) as (_ & _ & (Hlt & _) & _).
      exact Hlt.
  - apply (X27_next_check_time 4 (mkClock _MAXORDINAL 21 3 4 5)).
    + lia.
    + unfold clock_ok, _MAXORDINAL. cbn. lia.
    + split; [reflexivity|]. vm_compute. discriminate.
Defined.
